(** * Escape_Plan: the VIN identification and caching pipeline

    A shallow embedding of
    - [VinService] (services/vinService.ts): [isValidVinFormat],
      [findResult], [directNhtsaCall], [decodeVin], [clearCache];
    - the [/decode-vin] handler of supabase/functions/server/index.tsx;
    - the detection loop of components/Scanner.tsx: [startScanning],
      [scanFrame], [detectTextRegions], [detectVinPatterns],
      [detectBarcodePatterns], [detectTextInImage], [handleScanResult],
      [stopCamera];
    - around them: [getCachedVehicle] and the [/vehicles/:vin] route, the
      [decodeVin] of components/VehicleIdentification.tsx with its
      auto-decode effect, [handleManualSubmit] and the row scan of
      [detectBarcodePatterns] in the scanner, and the server's
      [initDemoUsers], [requireAuth], [/signup], [/profile],
      [/fuel-entries] and [/admin/users] routes.

    Part I holds the model, Part II the properties of the pipeline, Part
    III further properties of the code. *)

From Stdlib Require Import ZArith NArith Ascii String Bool List Lia Floats.
From stdpp Require Import gmap strings.
Import ListNotations.

Local Open Scope string_scope.

(* ===================================================================== *)
(** * Part I.  The model                                                  *)
(* ===================================================================== *)

(** ** JavaScript values used by the pipeline *)

Module JS.

(** Strings are sequences of code units.  The development covers the code
    units below 256, one [ascii] each. *)

Definition code (c : ascii) : N := N_of_ascii c.

Definition between (lo hi c : ascii) : bool :=
  ((code lo <=? code c) && (code c <=? code hi))%N.

Definition shift_down (c : ascii) : ascii := ascii_of_N (code c - 32).

(** [String.prototype.toUpperCase] on one code unit below 256: [a-z] and the
    Latin-1 letters U+00E0..U+00FE (U+00F7, the division sign, apart) move
    down by 32; U+00DF (sharp s) expands to [SS].  The upper-case forms of
    U+00B5 and U+00FF lie beyond 255; both code units are kept, they and
    their images are outside every character class used below. *)
Definition upper_unit (c : ascii) : string :=
  if between "a" "z" c then String (shift_down c) ""
  else if (code c =? 223)%N then "SS"
  else if between "224" "254" c && negb (code c =? 247)%N
       then String (shift_down c) ""
  else String c "".

Fixpoint toUpperCase (s : string) : string :=
  match s with
  | "" => ""
  | String c rest => upper_unit c ++ toUpperCase rest
  end.

(** Truthiness of a string: only the empty string is falsy. *)
Definition truthy (s : string) : bool :=
  match s with "" => false | _ => true end.

(** [v || ''] for a value that is a string or null/undefined. *)
Definition or_empty (v : option string) : string :=
  match v with
  | Some s => if truthy s then s else ""
  | None => ""
  end.

(** Truthiness of an optional string argument ([accessToken?: string]). *)
Definition truthy_opt (v : option string) : bool :=
  match v with Some s => truthy s | None => false end.

(** Decimal rendering of a non-negative integer Number ([n + '']). *)
Definition digit_unit (d : Z) : ascii := ascii_of_N (48 + Z.to_N d).

Fixpoint digits_into (fuel : nat) (n : Z) (acc : string) : string :=
  match fuel with
  | O => acc
  | S fuel' =>
      let acc' := String (digit_unit (n mod 10)) acc in
      if (n / 10 =? 0)%Z then acc' else digits_into fuel' (n / 10) acc'
  end.

Definition Number_toString (n : Z) : string :=
  digits_into (S (Z.to_nat (Z.log2 n))) n "".

(** [Math.random()] yields a double in [0, 1).  A draw is given by an
    integer [m], read modulo 2^53, and stands for [m / 2^53]. *)
Abbreviation draw := Z.

Definition mantissa (u : draw) : Z := (u mod 2 ^ 53)%Z.

(** [Math.floor(Math.random() * n)] for a positive integer [n]. *)
Definition random_floor (u : draw) (n : Z) : Z :=
  (mantissa u * n / 2 ^ 53)%Z.

(** [Math.random() < p/q]. *)
Definition random_below (u : draw) (p q : Z) : bool :=
  (mantissa u * q <? p * 2 ^ 53)%Z.

End JS.

(** ** Regular expressions of the pipeline *)

Module Regex.

Import JS.

(** [^[cls]{n}$]: exactly [n] code units, each in the class. *)
Fixpoint exactly (cls : ascii -> bool) (n : nat) (s : string) : bool :=
  match n, s with
  | O, "" => true
  | S n', String c rest => cls c && exactly cls n' rest
  | _, _ => false
  end.

(** [^[cls]{lo,hi}$] as [lo] mandatory units followed by at most
    [extra = hi - lo] optional ones. *)
Fixpoint at_most (cls : ascii -> bool) (extra : nat) (s : string) : bool :=
  match s, extra with
  | "", _ => true
  | String c rest, S extra' => cls c && at_most cls extra' rest
  | String _ _, O => false
  end.

Fixpoint from_to (cls : ascii -> bool) (lo extra : nat) (s : string) : bool :=
  match lo with
  | O => at_most cls extra s
  | S lo' =>
      match s with
      | "" => false
      | String c rest => cls c && from_to cls lo' extra rest
      end
  end.

(** [[A-HJ-NPR-Z0-9]] *)
Definition vin_class (c : ascii) : bool :=
  between "A" "H" c || between "J" "N" c || Ascii.eqb c "P"
  || between "R" "Z" c || between "0" "9" c.

(** [\d] *)
Definition digit_class (c : ascii) : bool := between "0" "9" c.

(** [/^[A-HJ-NPR-Z0-9]{17}$/.test(s)] *)
Definition vinPattern_test (s : string) : bool := exactly vin_class 17 s.

(** [/^\d{8,14}$/.test(s)] *)
Definition barcodePattern_test (s : string) : bool :=
  from_to digit_class 8 6 s.

End Regex.

(** ** services/vinService.ts *)

Module VinService.

Import JS.

(** [isValidVinFormat]: the pattern is tested on the upper-cased input. *)
Definition isValidVinFormat (vin : string) : bool :=
  Regex.vinPattern_test (toUpperCase vin).

(** The [VehicleInfo] interface.  [cached_at] holds the instant (in
    milliseconds) whose ISO rendering the code stores. *)
Record VehicleInfo := {
  vin : string;
  year : string;
  make : string;
  model : string;
  trim : option string;
  engine : option string;
  displacement : option string;
  cylinders : option string;
  fuel_type : option string;
  vehicle_type : option string;
  body_class : option string;
  drive_type : option string;
  transmission : option string;
  manufacturer : option string;
  plant_city : option string;
  plant_state : option string;
  valid : bool;
  cached_at : option Z;
  error : option string
}.

(** An object literal that sets only [vin], the three (empty) required
    fields, [valid: false], [error] and possibly [cached_at]. *)
Definition failure_record (v : string) (e : string) (at_ : option Z)
  : VehicleInfo :=
  {| vin := v; year := ""; make := ""; model := "";
     trim := None; engine := None; displacement := None; cylinders := None;
     fuel_type := None; vehicle_type := None; body_class := None;
     drive_type := None; transmission := None; manufacturer := None;
     plant_city := None; plant_state := None;
     valid := false; cached_at := at_; error := Some e |}.

(** One entry of the registry's [Results] table. *)
Record Row := { row_Variable : string; row_Value : option string }.

(** What a [fetch] of the public registry can come to. *)
Inductive RegistryReply :=
| registry_unreachable                       (* fetch rejects *)
| registry_not_ok                            (* response.ok is false *)
| registry_garbled                           (* response.json() rejects *)
| registry_json (Results : option (list Row)).

(** [findResult]: the first row with that [Variable]; [result?.Value || '']. *)
Definition findResult (results : list Row) (variableName : string) : string :=
  match find (fun r => String.eqb (row_Variable r) variableName) results with
  | Some result => or_empty (row_Value result)
  | None => ""
  end.

(** The record both [directNhtsaCall] and the server build from [Results];
    [e] is the message used when a required field is missing. *)
Definition extract (v : string) (results : list Row) (now : Z) (e : string)
  : VehicleInfo :=
  let y := findResult results "Model Year" in
  let mk := findResult results "Make" in
  let md := findResult results "Model" in
  let ok := truthy y && truthy mk && truthy md in
  {| vin := v; year := y; make := mk; model := md;
     trim := Some (findResult results "Trim");
     engine := Some (findResult results "Engine Model");
     displacement := Some (findResult results "Displacement (L)");
     cylinders := Some (findResult results "Engine Number of Cylinders");
     fuel_type := Some (findResult results "Fuel Type - Primary");
     vehicle_type := Some (findResult results "Vehicle Type");
     body_class := Some (findResult results "Body Class");
     drive_type := Some (findResult results "Drive Type");
     transmission := Some (findResult results "Transmission Style");
     manufacturer := Some (findResult results "Manufacturer Name");
     plant_city := Some (findResult results "Plant City");
     plant_state := Some (findResult results "Plant State");
     valid := ok;
     cached_at := Some now;
     error := if ok then None else Some e |}.

End VinService.

(** ** supabase/functions/server/index.tsx: the [/decode-vin] route *)

Module Server.

Import JS VinService.

Inductive ErrorStatus := S400 | S401 | S500.

(** [c.json(record)] answers 200, [c.json(record, 500)] answers 500; error
    payloads always carry a 4xx or 5xx status. *)
Inductive Response :=
| json_vehicle (record : VehicleInfo) (failed : bool)
| json_error (message : string) (status : ErrorStatus).

Definition ok (r : Response) : bool :=
  match r with
  | json_vehicle _ failed => negb failed
  | json_error _ _ => false
  end.

Definition vehicle_key (v : string) : string := "vehicle:" ++ v.

(** The 400 answer given to a VIN that fails the pattern. *)
Definition format_rejection : Response :=
  json_error "Invalid VIN format. VIN must be 17 characters." S400.

Definition is_format_rejection (r : Response) : bool :=
  match r with
  | json_error m S400 =>
      String.eqb m "Invalid VIN format. VIN must be 17 characters."
  | _ => false
  end.

(** The handler behind [requireAuth].  [kv] is the key-value store (taken
    to be available), [registry] the answer the registry gives this
    request, [now] the server's clock. *)
Definition decode_vin (authorized : bool) (vin : string)
    (registry : RegistryReply) (now : Z) (kv : gmap string VehicleInfo)
  : Response * gmap string VehicleInfo :=
  if negb authorized then (json_error "Unauthorized - Invalid token" S401, kv)
  else if negb (truthy vin) then (json_error "VIN is required" S400, kv)
  else if negb (Regex.vinPattern_test (toUpperCase vin)) then
    (format_rejection, kv)
  else
    let normalizedVin := toUpperCase vin in
    match kv !! vehicle_key normalizedVin with
    | Some cachedVehicle => (json_vehicle cachedVehicle false, kv)
    | None =>
        match registry with
        | registry_json Results =>
            let results := default [] Results in
            let vehicleData :=
              extract normalizedVin results now
                      "Vehicle information not found for this VIN" in
            (json_vehicle vehicleData false,
             <[vehicle_key normalizedVin := vehicleData]> kv)
        | _ =>
            let errorResponse :=
              failure_record normalizedVin
                "Failed to decode VIN via NHTSA API" (Some now) in
            (json_vehicle errorResponse true,
             <[vehicle_key normalizedVin := errorResponse]> kv)
        end
    end.

End Server.

(** ** [VinService.decodeVin] and its world *)

Module Decode.

Import JS VinService.

Inductive Call :=
| call_backend (vin : string) (token : string)
| call_registry (vin : string).

Inductive Error :=
| backend_failed      (* Error(`Backend VIN decode failed: ...`) or a
                         rejected fetch/json of the backend call *)
| registry_failed.    (* Error('NHTSA API error') or a rejected
                         fetch/json of the registry call *)

(** The settlement of a promise of [VehicleInfo]. *)
Inductive Outcome :=
| Resolved (record : VehicleInfo)
| Rejected (e : Error).

(** A pending [setTimeout(() => this.cache.delete(key), ...)]. *)
Record Timer := { due : Z; key : string }.

Record World := {
  cache : gmap string VehicleInfo;     (* VinService.cache *)
  timers : list Timer;                 (* pending deletions *)
  clock : Z;                           (* milliseconds *)
  kv : gmap string VehicleInfo;        (* the server's store *)
  calls : list Call                    (* network calls made by the client,
                                          oldest first *)
}.

Definition initial : World :=
  {| cache := ∅; timers := []; clock := 0; kv := ∅; calls := [] |}.

(** What the network does during one [decodeVin]. *)
Record Net := {
  link_up : bool;                      (* the backend fetch gets a response *)
  authorized : bool;                   (* requireAuth lets the token pass *)
  backend_registry : RegistryReply;    (* registry's answer to the server *)
  registry : RegistryReply             (* registry's answer to the client *)
}.

Definition cache_set (k : string) (v : VehicleInfo) (w : World) : World :=
  {| cache := <[k := v]> (cache w); timers := timers w; clock := clock w;
     kv := kv w; calls := calls w |}.

Definition setTimeout_delete (k : string) (delay : Z) (w : World) : World :=
  {| cache := cache w;
     timers := {| due := clock w + delay; key := k |} :: timers w;
     clock := clock w; kv := kv w; calls := calls w |}.

Definition record_call (c : Call) (w : World) : World :=
  {| cache := cache w; timers := timers w; clock := clock w;
     kv := kv w; calls := calls w ++ [c] |}.

Definition kv_put (s : gmap string VehicleInfo) (w : World) : World :=
  {| cache := cache w; timers := timers w; clock := clock w;
     kv := s; calls := calls w |}.

(** [directNhtsaCall]: its [catch] only logs and rethrows. *)
Definition directNhtsaCall (net : Net) (vin : string) (w : World)
  : Outcome * World :=
  let w := record_call (call_registry vin) w in
  match registry net with
  | registry_json Results =>
      let results := default [] Results in
      let vehicleInfo :=
        extract vin results (clock w) "Vehicle information not found" in
      (Resolved vehicleInfo, cache_set vin vehicleInfo w)
  | _ => (Rejected registry_failed, w)
  end.

(** The [fetch] of the backend proxy followed by the [response.ok] test,
    [response.json()] and the local [cache.set].  The answer is the one
    the route above computes; when the fetch is rejected the request is
    taken not to have reached the server. *)
Definition backendCall (net : Net) (normalizedVin token : string) (w : World)
  : Outcome * World :=
  let w := record_call (call_backend normalizedVin token) w in
  if negb (link_up net) then (Rejected backend_failed, w)
  else
    let '(response, kv') :=
      Server.decode_vin (authorized net) normalizedVin
                        (backend_registry net) (clock w) (kv w) in
    let w := kv_put kv' w in
    if negb (Server.ok response) then (Rejected backend_failed, w)
    else
      match response with
      | Server.json_vehicle vehicleData _ =>
          (Resolved vehicleData, cache_set normalizedVin vehicleData w)
      | Server.json_error _ _ => (Rejected backend_failed, w)
      end.

Definition five_minutes : Z := 5 * 60 * 1000.

(** [decodeVin(vin, accessToken?)] *)
Definition decodeVin (net : Net) (vin : string) (accessToken : option string)
    (w : World) : Outcome * World :=
  if negb (isValidVinFormat vin) then
    (Resolved (failure_record (toUpperCase vin) "Invalid VIN format" None), w)
  else
    let normalizedVin := toUpperCase vin in
    match cache w !! normalizedVin with
    | Some cached => (Resolved cached, w)
    | None =>
        let attempt :=
          match accessToken with
          | Some token =>
              if truthy token then backendCall net normalizedVin token w
              else directNhtsaCall net normalizedVin w
          | None => directNhtsaCall net normalizedVin w
          end in
        match attempt with
        | (Resolved record, w) => (Resolved record, w)
        | (Rejected _, w) =>
            if truthy_opt accessToken then directNhtsaCall net normalizedVin w
            else
              let errorInfo :=
                failure_record normalizedVin "Failed to decode VIN" None in
              let w := setTimeout_delete normalizedVin five_minutes w in
              let w := cache_set normalizedVin errorInfo w in
              (Resolved errorInfo, w)
        end
    end.

(** [clearCache()] *)
Definition clearCache (w : World) : World :=
  {| cache := ∅; timers := timers w; clock := clock w;
     kv := kv w; calls := calls w |}.

(** Time passes by [dt] milliseconds; the timers that have come due run. *)
Definition fire (t : Timer) (c : gmap string VehicleInfo)
  : gmap string VehicleInfo := delete (key t) c.

Definition is_due (now : Z) (t : Timer) : bool := (due t <=? now)%Z.

Definition advance (dt : Z) (w : World) : World :=
  let now := (clock w + Z.max 0 dt)%Z in
  {| cache := foldr fire (cache w)
                (filter (fun t => is_due now t = true) (timers w));
     timers := filter (fun t => is_due now t = false) (timers w);
     clock := now; kv := kv w; calls := calls w |}.

(** Another client's request reaches the server. *)
Definition remote_decode (vin : string) (reply : RegistryReply) (w : World)
  : World :=
  kv_put (snd (Server.decode_vin true vin reply (clock w) (kv w))) w.

(** The worlds the program can be in. *)
Inductive reachable : World -> Prop :=
| reach_initial : reachable initial
| reach_decode net vin token w :
    reachable w -> reachable (snd (decodeVin net vin token w))
| reach_clear w : reachable w -> reachable (clearCache w)
| reach_advance dt w : reachable w -> reachable (advance dt w)
| reach_remote vin reply w :
    reachable w -> reachable (remote_decode vin reply w).

End Decode.

(** ** components/Scanner.tsx: detection and dispatch *)

Module Scanner.

Import JS.

Definition VIN_PATTERN_test : string -> bool := Regex.vinPattern_test.
Definition BARCODE_PATTERN_test : string -> bool := Regex.barcodePattern_test.

Inductive ScanType := barcode | vin.

Record ScanResult := { type : ScanType; data : string }.

Inductive Mode := mode_barcode | mode_vin | mode_auto.

(** [mode === t || mode === 'auto'] *)
Definition mode_allows (m : Mode) (t : ScanType) : bool :=
  match m, t with
  | mode_auto, _ | mode_barcode, barcode | mode_vin, vin => true
  | _, _ => false
  end.

(** *** Pixels *)

(** [ImageData]: [pixels] is the RGBA byte array [imageData.data]. *)
Record ImageData := { width : Z; height : Z; pixels : list Z }.

(** [data[idx]] as a Number; an index outside the array reads [undefined],
    which arithmetic turns into NaN. *)
Definition channel (d : list Z) (idx : Z) : float :=
  if (idx <? 0)%Z then PrimFloat.nan
  else match nth_error d (Z.to_nat idx) with
       | Some v => PrimFloat.of_uint63 (Uint63.of_Z v)
       | None => PrimFloat.nan
       end.

(** [(data[idx] + data[idx + 1] + data[idx + 2]) / 3] *)
Definition brightness (d : list Z) (idx : Z) : float :=
  ((channel d idx + channel d (idx + 1) + channel d (idx + 2)) / 3)%float.

(** The values a [for (i = start; i < bound; i += step)] loop visits
    ([step] positive, [fuel] at least the number of rounds). *)
Fixpoint visits (fuel : nat) (i bound step : Z) : list Z :=
  match fuel with
  | O => []
  | S fuel' =>
      if (i <? bound)%Z then i :: visits fuel' (i + step) bound step else []
  end.

Definition for_loop (start bound step : Z) : list Z :=
  visits (Z.to_nat (bound - start)) start bound step.

(** The test of one sampled pixel in [detectTextRegions]. *)
Definition is_edge (imageData : ImageData) (y x : Z) : bool :=
  let d := pixels imageData in
  let w := width imageData in
  let threshold := 50%float in
  let b := brightness d ((y * w + x) * 4) in
  let leftBrightness := brightness d ((y * w + (x - 1)) * 4) in
  let rightBrightness := brightness d ((y * w + (x + 1)) * 4) in
  PrimFloat.ltb threshold (PrimFloat.abs (b - leftBrightness))
  || PrimFloat.ltb threshold (PrimFloat.abs (b - rightBrightness)).

(** [detectTextRegions]: more than 100 edges over the sampled grid. *)
Definition detectTextRegions (imageData : ImageData) : bool :=
  let edgeCount :=
    fold_left
      (fun count y =>
         fold_left
           (fun count x =>
              if is_edge imageData y x then (count + 1)%Z else count)
           (for_loop 1 (width imageData - 1) 4) count)
      (for_loop 1 (height imageData - 1) 4) 0%Z in
  (100 <? edgeCount)%Z.

(** The [Math.random()] calls of one tick, one per call site. *)
Record Draws := {
  u_barcode : draw;      (* the mock barcode number *)
  u_prefix : draw;       (* index into vinPrefixes *)
  u_suffix : draw;       (* the six-digit suffix *)
  u_demo : draw;         (* Math.random() < 0.02 *)
  u_pick : draw          (* index into the demo results *)
}.

(** *** The row scan of [detectBarcodePatterns] *)

Module RowScan.

(** The integer [n] as a Number. *)
Definition number (n : Z) : float := PrimFloat.of_uint63 (Uint63.of_Z n).

(** [Math.floor] of a finite double; NaN and the infinities have no
    integer floor. *)
Definition Math_floor (f : float) : option Z :=
  match Prim2SF f with
  | S754_zero _ => Some 0%Z
  | S754_finite s m e =>
      let v := if s then Z.neg m else Z.pos m in
      Some (if (0 <=? e)%Z then v * 2 ^ e else v / 2 ^ (- e))%Z
  | _ => None
  end.

Definition floor_or_zero (f : float) : Z := default 0%Z (Math_floor f).

(** The three loop constants of the row scan, for a canvas height:
    [Math.floor(h * 0.4)], [Math.floor(h * 0.6)] and
    [Math.floor(h / sampleRows)] with [sampleRows = 10].  The literals are
    the doubles nearest to 0.4 and 0.6. *)
Definition first_row (h : Z) : Z :=
  floor_or_zero (number h * 0x1.999999999999ap-2)%float.

Definition end_row (h : Z) : Z :=
  floor_or_zero (number h * 0x1.3333333333333p-1)%float.

Definition row_step (h : Z) : Z := floor_or_zero (number h / 10)%float.

(** The inner loop over [x]: the number of dark/light changes along row
    [y], the first pixel being compared with "not dark". *)
Definition transitions (imageData : ImageData) (y : Z) : Z :=
  fst (fold_left
         (fun '(count, lastPixelDark) x =>
            let idx := ((y * width imageData + x) * 4)%Z in
            let isDark :=
              PrimFloat.ltb (brightness (pixels imageData) idx) 128 in
            if Bool.eqb isDark lastPixelDark then (count, lastPixelDark)
            else ((count + 1)%Z, isDark))
         (for_loop 0 (width imageData) 2) (0%Z, false)).

(** The outer loop over [y].  Its step can be 0, so it is run on fuel:
    [None] when the fuel runs out before the loop ends. *)
Fixpoint rows (fuel : nat) (imageData : ImageData) (y bound step : Z)
    (verticalLines : Z) : option Z :=
  match fuel with
  | O => None
  | S fuel' =>
      if (y <? bound)%Z then
        let t := transitions imageData y in
        let verticalLines :=
          if (20 <? t)%Z && (t <? 200)%Z then (verticalLines + 1)%Z
          else verticalLines in
        rows fuel' imageData (y + step)%Z bound step verticalLines
      else Some verticalLines
  end.

(** The count of barcode-like rows of a frame. *)
Definition verticalLines_of (fuel : nat) (imageData : ImageData)
  : option Z :=
  rows fuel imageData (first_row (height imageData))
       (end_row (height imageData)) (row_step (height imageData)) 0%Z.

(** The row scan of [detectBarcodePatterns] and what follows it: [None]
    while the scan has not ended; otherwise a mock number when at least
    five rows looked like a barcode, and [null]. *)
Definition detectBarcodePatterns (fuel : nat) (imageData : ImageData)
    (u : Draws) : option (option string) :=
  match verticalLines_of fuel imageData with
  | None => None
  | Some verticalLines =>
      Some (if (5 <=? verticalLines)%Z then
              Some (Number_toString
                      (random_floor (u_barcode u) 9000000000000
                       + 1000000000000))
            else None)
  end.

End RowScan.

(** A canvas at the time of a tick: [context2d] is what [getContext('2d')]
    and [getImageData] give ([None]: no context).  The canvas has the
    width and height of its image. *)
Record Canvas := { context2d : option ImageData }.

(** Rounds within which the row scan of a frame ends, if it ends at
    all: the rows of the band are that many at most. *)
Definition enough (imageData : ImageData) : nat :=
  S (Z.to_nat (RowScan.end_row (height imageData)
               - RowScan.first_row (height imageData))).

(** [detectBarcodePatterns]: [None] when the call does not return, [Some
    None] for [null].  [getImageData] throws on an empty rectangle, and
    the [catch] block leads to [return null]. *)
Definition detectBarcodePatterns (canvas : Canvas) (u : Draws)
  : option (option string) :=
  match context2d canvas with
  | None => Some None
  | Some imageData =>
      if (width imageData <=? 0)%Z || (height imageData <=? 0)%Z
      then Some None
      else RowScan.detectBarcodePatterns (enough imageData) imageData u
  end.

Definition vinPrefixes : list string :=
  ["1HGBH41JX"; "2FMDK3GC4"; "5NPE34AF4"; "1G1BE5SM7"; "WBAFR7C59"].

(** [detectVinPatterns] *)
Definition detectVinPatterns (canvas : Canvas) (u : Draws) : option string :=
  match context2d canvas with
  | None => None
  | Some imageData =>
      let hasTextLikeRegions := detectTextRegions imageData in
      if hasTextLikeRegions then
        let prefix :=
          nth (Z.to_nat (random_floor (u_prefix u)
                           (Z.of_nat (length vinPrefixes))))
              vinPrefixes "undefined" in
        let suffix := (random_floor (u_suffix u) 900000 + 100000)%Z in
        Some (prefix ++ Number_toString suffix)
      else None
  end.

(** *** The session *)

(** What became of a candidate. *)
Inductive Fate := Ignored | Dropped | Forwarded.

Record Event := { candidate : ScanResult; fate : Fate }.

Record Session := {
  lastScan : string;            (* the state cell written by setLastScan *)
  scanning : bool;              (* the state cell written by setIsScanning *)
  intervals : list nat;         (* the intervals set and not cleared *)
  scanIntervalRef : option nat; (* scanIntervalRef.current *)
  next_id : nat;                (* the id the next setInterval returns *)
  scanned : list ScanResult;    (* calls of onScan, oldest first *)
  closed : nat;                 (* calls of onClose *)
  trace : list Event            (* ghost: every candidate, oldest first *)
}.

(** The component before any [startCamera]. *)
Definition mounted : Session :=
  {| lastScan := ""; scanning := false; intervals := [];
     scanIntervalRef := None; next_id := 1; scanned := []; closed := 0;
     trace := [] |}.

Definition log (e : Event) (st : Session) : Session :=
  {| lastScan := lastScan st; scanning := scanning st;
     intervals := intervals st; scanIntervalRef := scanIntervalRef st;
     next_id := next_id st; scanned := scanned st; closed := closed st;
     trace := trace st ++ [e] |}.

Definition setLastScan (s : string) (st : Session) : Session :=
  {| lastScan := s; scanning := scanning st;
     intervals := intervals st; scanIntervalRef := scanIntervalRef st;
     next_id := next_id st; scanned := scanned st; closed := closed st;
     trace := trace st |}.

Definition setIsScanning (b : bool) (st : Session) : Session :=
  {| lastScan := lastScan st; scanning := b;
     intervals := intervals st; scanIntervalRef := scanIntervalRef st;
     next_id := next_id st; scanned := scanned st; closed := closed st;
     trace := trace st |}.

Definition onScan (result : ScanResult) (st : Session) : Session :=
  {| lastScan := lastScan st; scanning := scanning st;
     intervals := intervals st; scanIntervalRef := scanIntervalRef st;
     next_id := next_id st; scanned := scanned st ++ [result];
     closed := closed st; trace := trace st |}.

Definition onClose (st : Session) : Session :=
  {| lastScan := lastScan st; scanning := scanning st;
     intervals := intervals st; scanIntervalRef := scanIntervalRef st;
     next_id := next_id st; scanned := scanned st; closed := S (closed st);
     trace := trace st |}.

(** [clearInterval(id)] *)
Definition clearInterval (id : nat) (st : Session) : Session :=
  {| lastScan := lastScan st; scanning := scanning st;
     intervals := List.filter (fun i => negb (Nat.eqb i id)) (intervals st);
     scanIntervalRef := scanIntervalRef st;
     next_id := next_id st; scanned := scanned st; closed := closed st;
     trace := trace st |}.

(** [startScanning]: the id of the new interval overwrites
    [scanIntervalRef.current]; an interval set before stays set. *)
Definition startScanning (st : Session) : Session :=
  {| lastScan := lastScan st; scanning := scanning st;
     intervals := intervals st ++ [next_id st];
     scanIntervalRef := Some (next_id st);
     next_id := S (next_id st); scanned := scanned st; closed := closed st;
     trace := trace st |}.

(** [startCamera] when the camera is granted and plays:
    [setIsScanning(true)] and [startScanning()].  Its other paths set
    an error and set no interval. *)
Definition startCamera (st : Session) : Session :=
  startScanning (setIsScanning true st).

(** The scanner once opened: [startCamera] has run once. *)
Definition opened : Session := startCamera mounted.

(** [stopCamera]: [setIsScanning(false)], and [clearInterval] of the
    interval [scanIntervalRef] holds.  (The tracks of the stream are not
    part of the model.) *)
Definition stopCamera (st : Session) : Session :=
  let st := setIsScanning false st in
  match scanIntervalRef st with
  | Some id => clearInterval id st
  | None => st
  end.

Definition isValid (result : ScanResult) : bool :=
  match type result with
  | vin => VIN_PATTERN_test (data result)
  | barcode => BARCODE_PATTERN_test (data result)
  end.

(** [handleScanResult] *)
Definition handleScanResult (result : ScanResult) (st : Session) : Session :=
  if isValid result then
    onClose (stopCamera (onScan result
      (log {| candidate := result; fate := Forwarded |} st)))
  else log {| candidate := result; fate := Dropped |} st.

(** Which value the name [lastScan] denotes inside the interval callback:
    the state cell as it is now, or the value the cell had in the render
    whose closure the interval keeps calling. *)
Inductive Binding := live | captured (s : string).

Definition read (b : Binding) (st : Session) : string :=
  match b with live => lastScan st | captured s => s end.

(** The block
    [if (x !== lastScan) { setLastScan(x); handleScanResult(..); return; }];
    the boolean tells whether the [return] was taken. *)
Definition offer (seen : string) (result : ScanResult) (st : Session)
  : Session * bool :=
  if String.eqb (data result) seen then
    (log {| candidate := result; fate := Ignored |} st, false)
  else (handleScanResult result (setLastScan (data result) st), true).

Definition barcodeResults : list string :=
  ["1234567890123"; "9876543210987"; "4567890123456"; "7890123456789";
   "3456789012345"].

Definition vinResults : list string :=
  ["1HGBH41JXMN109186"; "2FMDK3GC4DBA12345"; "5NPE34AF4DH123456";
   "1G1BE5SM7F7123456"; "WBAFR7C59BC123456"].

Definition pick {A} (l : list A) (u : draw) (d : A) : A :=
  nth (Z.to_nat (random_floor u (Z.of_nat (length l)))) l d.

(** The result chosen by Method 3. *)
Definition demoResult (mode : Mode) (u : Draws) : ScanResult :=
  let undefined := {| type := barcode; data := "" |} in
  match mode with
  | mode_barcode =>
      {| type := barcode; data := pick barcodeResults (u_pick u) "" |}
  | mode_vin => {| type := vin; data := pick vinResults (u_pick u) "" |}
  | mode_auto =>
      let allResults : list ScanResult :=
        (map (fun d => {| type := barcode; data := d |}) barcodeResults
         ++ map (fun d => {| type := vin; data := d |}) vinResults)%list in
      pick allResults (u_pick u) undefined
  end.

(** [detectTextInImage]; [None] when the call does not return, which is
    when [detectBarcodePatterns], called first, does not. *)
Definition detectTextInImage (mode : Mode) (b : Binding) (canvas : Canvas)
    (u : Draws) (st : Session) : option Session :=
  let seen := read b st in
  match detectBarcodePatterns canvas u with
  | None => None
  | Some found =>
      (* Method 1 *)
      let '(st, returned) :=
        match found with
        | Some detectedBarcode =>
            if truthy detectedBarcode && mode_allows mode barcode then
              offer seen {| type := barcode; data := detectedBarcode |} st
            else (st, false)
        | None => (st, false)
        end in
      if returned then Some st else
      (* Method 2 *)
      let '(st, returned) :=
        match detectVinPatterns canvas u with
        | Some detectedVin =>
            if truthy detectedVin && mode_allows mode vin then
              offer seen {| type := vin; data := detectedVin |} st
            else (st, false)
        | None => (st, false)
        end in
      if returned then Some st else
      (* Method 3 *)
      if random_below (u_demo u) 2 100 then
        Some (fst (offer seen (demoResult mode u) st))
      else Some st
  end.

(** One firing of an interval: the canvas with the video frame drawn on
    it ([None] when there is no video or canvas element) and the draws of
    the tick. *)
Record Frame := { canvas : option Canvas; draws : Draws }.

(** [scanFrame]: it returns early without a video or canvas element,
    without a context and while the video has no width; [getImageData]
    throws when the height is 0, which ends the tick. *)
Definition scanFrame (mode : Mode) (b : Binding) (f : Frame) (st : Session)
  : option Session :=
  match canvas f with
  | None => Some st
  | Some c =>
      match context2d c with
      | None => Some st
      | Some imageData =>
          if (width imageData <=? 0)%Z || (height imageData <=? 0)%Z
          then Some st
          else detectTextInImage mode b c (draws f) st
      end
  end.

(** The ticks of a session, one frame each.  An interval fires as long as
    it is set, whichever it is: with none left nothing happens any more.
    A tick that does not return keeps every later one from running; the
    session stays as it was before that tick. *)
Fixpoint run (mode : Mode) (b : Binding) (frames : list Frame)
    (st : Session) : Session :=
  match frames with
  | [] => st
  | f :: rest =>
      match intervals st with
      | [] => st
      | _ :: _ =>
          match scanFrame mode b f st with
          | Some st' => run mode b rest st'
          | None => st
          end
      end
  end.

End Scanner.

(** ** Concrete situations used to exercise the model *)

Module Scenario.

Import VinService Decode.

Definition honda : string := "1HGBH41JXMN109186".

Definition civic : list Row :=
  [ {| row_Variable := "Model Year"; row_Value := Some "2010" |};
    {| row_Variable := "Make"; row_Value := Some "Honda" |};
    {| row_Variable := "Model"; row_Value := Some "Civic" |} ].

(** Everything answers. *)
Definition online : Net :=
  {| link_up := true; authorized := true;
     backend_registry := registry_json (Some civic);
     registry := registry_json (Some civic) |}.

(** Nothing can be reached. *)
Definition offline : Net :=
  {| link_up := false; authorized := true;
     backend_registry := registry_unreachable;
     registry := registry_unreachable |}.

(** The backend is down, the registry answers. *)
Definition backend_down : Net :=
  {| link_up := false; authorized := true;
     backend_registry := registry_unreachable;
     registry := registry_json (Some civic) |}.

(** The registry answers but has no data for the VIN. *)
Definition unknown : Net :=
  {| link_up := true; authorized := true;
     backend_registry := registry_json (Some []);
     registry := registry_json (Some []) |}.

Definition one_day : Z := 24 * 60 * 60 * 1000.

(** A 50 x 50 frame of one-pixel black and white vertical stripes, and a
    plain white one. *)
Definition stripes (w h : nat) : list Z :=
  flat_map
    (fun i => let v := if Nat.even (i mod w) then 0%Z else 255%Z in
              [v; v; v; 255%Z])
    (seq 0 (w * h)).

Definition striped : Scanner.ImageData :=
  {| Scanner.width := 50; Scanner.height := 50;
     Scanner.pixels := stripes 50 50 |}.

Definition white : Scanner.ImageData :=
  {| Scanner.width := 50; Scanner.height := 50;
     Scanner.pixels := repeat 255%Z (4 * 50 * 50) |}.

(** A frame full of edges and a plain white frame: the row scan finds
    no barcode-like row in either. *)
Definition text_canvas : Scanner.Canvas :=
  {| Scanner.context2d := Some striped |}.

Definition white_canvas : Scanner.Canvas :=
  {| Scanner.context2d := Some white |}.

(** Draws of 0 everywhere, except that Method 3 stays silent (0.5). *)
Definition draws0 : Scanner.Draws :=
  {| Scanner.u_barcode := 0; Scanner.u_prefix := 0; Scanner.u_suffix := 0;
     Scanner.u_demo := 2 ^ 52; Scanner.u_pick := 0 |}.

(** Draws with which Method 3 fires and picks its first result, and
    draws with which it picks, in mode [auto], its second. *)
Definition demo_draws : Scanner.Draws :=
  {| Scanner.u_barcode := 0; Scanner.u_prefix := 0; Scanner.u_suffix := 0;
     Scanner.u_demo := 0; Scanner.u_pick := 0 |}.

Definition other_draws : Scanner.Draws :=
  {| Scanner.u_barcode := 0; Scanner.u_prefix := 0; Scanner.u_suffix := 0;
     Scanner.u_demo := 0; Scanner.u_pick := 2 ^ 50 |}.

(** Ticks on the frame full of edges, on the white frame, and on the
    white frame with Method 3 firing. *)
Definition text_frame : Scanner.Frame :=
  {| Scanner.canvas := Some text_canvas; Scanner.draws := draws0 |}.

Definition white_frame : Scanner.Frame :=
  {| Scanner.canvas := Some white_canvas; Scanner.draws := draws0 |}.

Definition demo_frame : Scanner.Frame :=
  {| Scanner.canvas := Some white_canvas; Scanner.draws := demo_draws |}.

Definition other_frame : Scanner.Frame :=
  {| Scanner.canvas := Some white_canvas; Scanner.draws := other_draws |}.

(** Two ticks on the frame full of edges, then two with Method 3
    firing. *)
Definition session_frames : list Scanner.Frame :=
  [text_frame; text_frame; demo_frame; demo_frame].

Definition mock_vin : Scanner.ScanResult :=
  {| Scanner.type := Scanner.vin; Scanner.data := "1HGBH41JX100000" |}.

Definition demo_barcode : Scanner.ScanResult :=
  {| Scanner.type := Scanner.barcode; Scanner.data := "1234567890123" |}.

Definition other_barcode : Scanner.ScanResult :=
  {| Scanner.type := Scanner.barcode; Scanner.data := "9876543210987" |}.

(** The scanner after [retryCamera]: [startCamera] has run a second
    time while the interval of the first is set. *)
Definition retried : Scanner.Session := Scanner.startCamera Scanner.opened.

(** The world after a decode that failed for want of any network. *)
Definition after_failure : World :=
  snd (decodeVin offline honda None initial).

(** The world after a decode that the registry answered without data. *)
Definition after_not_found : World :=
  snd (decodeVin unknown honda None initial).

(** The world after a successful decode. *)
Definition after_success : World :=
  snd (decodeVin online honda None initial).

End Scenario.

(** ** More of services/vinService.ts and of the server *)

Module Lookup.

Import JS VinService Decode.

(** What the route [GET /vehicles/:vin] answers. *)
Inductive Answer :=
| found (record : VehicleInfo)                  (* c.json(vehicle) *)
| refused (message : string) (status : Z).      (* c.json({error}, status) *)

(** The handler of [GET /make-server-218dc5b7/vehicles/:vin] behind
    [requireAuth]: a lookup in the store, nothing else. *)
Definition get_vehicle (authorized : bool) (param : string)
    (kv : gmap string VehicleInfo) : Answer :=
  if negb authorized then refused "Unauthorized - Invalid token" 401
  else
    let vin := toUpperCase param in
    match kv !! Server.vehicle_key vin with
    | Some vehicle => found vehicle
    | None => refused "Vehicle not found in cache" 404
    end.

(** The client pastes the upper-cased VIN, unescaped, into the URL
    [.../vehicles/<text>].  What the route then receives as its path
    parameter is the work of the URL parser of [fetch] and of the router,
    which are not code of this repository: a [Transport] gives the
    parameter for the text pasted, [None] when no route matches the path
    (which the router answers with 404). *)
Definition Transport := string -> option string.

Definition letter_or_digit (c : ascii) : bool :=
  between "A" "Z" c || between "a" "z" c || between "0" "9" c.

Fixpoint letters_and_digits (s : string) : bool :=
  match s with
  | "" => true
  | String c rest => letter_or_digit c && letters_and_digits rest
  end.

(** A non-empty text of ASCII letters and digits. *)
Definition plain (s : string) : bool := truthy s && letters_and_digits s.

(** All that is assumed of a transport: a plain text arrives as it is. *)
Definition transparent (via : Transport) : Prop :=
  forall s, plain s = true -> via s = Some s.

(** [getCachedVehicle(vin, accessToken)]: [null] on 404, and on every
    failure, which its [catch] turns into [null]. *)
Definition getCachedVehicle (via : Transport) (net : Net) (vin : string)
    (w : World) : option VehicleInfo :=
  if negb (link_up net) then None
  else
    match via (toUpperCase vin) with
    | None => None
    | Some param =>
        match get_vehicle (authorized net) param (kv w) with
        | found vehicle => Some vehicle
        | refused _ status => None
        end
    end.

End Lookup.

(** ** components/VehicleIdentification.tsx: the caller of [decodeVin] *)

Module Form.

Import JS VinService Decode.

Inductive Toast :=
| toast_success (message : string)
| toast_warning (message : string)
| toast_error (message : string).

Record State := {
  vehicleInfo : option VehicleInfo;
  isDecodingVin : bool;
  toasts : list Toast              (* oldest first *)
}.

Definition setVehicleInfo (v : option VehicleInfo) (st : State) : State :=
  {| vehicleInfo := v; isDecodingVin := isDecodingVin st;
     toasts := toasts st |}.

Definition setIsDecodingVin (b : bool) (st : State) : State :=
  {| vehicleInfo := vehicleInfo st; isDecodingVin := b;
     toasts := toasts st |}.

Definition toast (t : Toast) (st : State) : State :=
  {| vehicleInfo := vehicleInfo st; isDecodingVin := isDecodingVin st;
     toasts := (toasts st ++ [t])%list |}.

(** [accessToken || undefined] *)
Definition or_undefined (accessToken : option string) : option string :=
  if truthy_opt accessToken then accessToken else None.

(** The component's [decodeVin(vinToCheck)], with its try, catch and
    finally. *)
Definition decodeVin (net : Net) (vinToCheck : string)
    (accessToken : option string) (st : State) (w : World) : State * World :=
  let st := setIsDecodingVin true st in
  let '(outcome, w) :=
    Decode.decodeVin net vinToCheck (or_undefined accessToken) w in
  let st :=
    match outcome with
    | Resolved decoded =>
        let st := setVehicleInfo (Some decoded) st in
        if valid decoded then
          toast (toast_success
                   ("Vehicle identified: " ++ year decoded ++ " "
                    ++ make decoded ++ " " ++ model decoded)) st
        else if truthy_opt (error decoded) then
          toast (toast_warning (default "" (error decoded))) st
        else st
    | Rejected _ => toast (toast_error "Failed to decode VIN") st
    end in
  (setIsDecodingVin false st, w).

(** The effect on [vin] and [accessToken]:
    [if (vin && vin.length === 17) decodeVin(vin) else setVehicleInfo(null)]. *)
Definition autoDecode (net : Net) (vin : string)
    (accessToken : option string) (st : State) (w : World) : State * World :=
  if truthy vin && (String.length vin =? 17)%nat then
    decodeVin net vin accessToken st w
  else (setVehicleInfo None st, w).

End Form.

(** ** More of components/Scanner.tsx *)

Module Entry.

Import JS Scanner.

(** White space among the code units below 256: TAB, LF, VT, FF, CR,
    SPACE and NO-BREAK SPACE. *)
Definition is_space (c : ascii) : bool :=
  between "009" "013" c || (code c =? 32)%N || (code c =? 160)%N.

Fixpoint trimStart (s : string) : string :=
  match s with
  | String c rest => if is_space c then trimStart rest else s
  | "" => ""
  end.

Fixpoint trimEnd (s : string) : string :=
  match s with
  | String c rest =>
      match trimEnd rest with
      | "" => if is_space c then "" else String c ""
      | kept => String c kept
      end
  | "" => ""
  end.

(** [String.prototype.trim] *)
Definition trim (s : string) : string := trimEnd (trimStart s).

(** What [handleManualSubmit] does. *)
Inductive Outcome :=
| nothing                          (* the early return *)
| submitted (result : ScanResult)  (* onScan(result); onClose() *)
| complaint (message : string).    (* setError(...) *)

Definition complaint_for (mode : Mode) : string :=
  "Please enter a valid "
  ++ match mode with
     | mode_vin => "VIN (17 characters)"
     | mode_barcode => "barcode (8-14 digits)"
     | mode_auto => "VIN or barcode"
     end.

(** [handleManualSubmit] *)
Definition handleManualSubmit (mode : Mode) (manualInput : string)
  : Outcome :=
  if negb (truthy (trim manualInput)) then nothing
  else
    let result :=
      if VIN_PATTERN_test (toUpperCase (trim manualInput)) then
        Some {| type := vin; data := toUpperCase (trim manualInput) |}
      else if BARCODE_PATTERN_test (trim manualInput) then
        Some {| type := barcode; data := trim manualInput |}
      else None in
    match result with
    | Some r =>
        if mode_allows mode (type r) then submitted r
        else complaint (complaint_for mode)
    | None => complaint (complaint_for mode)
    end.

End Entry.

(** ** More concrete situations *)

Module Cases.

Import VinService Decode.

(** The backend is reached but cannot reach the registry; the client
    can. *)
Definition registry_down_for_backend : Net :=
  {| link_up := true; authorized := true;
     backend_registry := registry_unreachable;
     registry := registry_json (Some Scenario.civic) |}.

(** A failed decode without token, then [clearCache()], one minute, and a
    successful decode. *)
Definition one_minute : Z := 60 * 1000.

Definition refreshed : World :=
  advance one_minute (clearCache Scenario.after_failure).

Definition after_refresh : World :=
  snd (decodeVin Scenario.online Scenario.honda None refreshed).

(** The world after a decode with token that the backend answered. *)
Definition after_backend : World :=
  snd (decodeVin Scenario.online Scenario.honda (Some "token") initial).

(** Rows with a duplicate and a null value. *)
Definition untidy : list Row :=
  [ {| row_Variable := "Make"; row_Value := None |};
    {| row_Variable := "Model"; row_Value := Some "Civic" |};
    {| row_Variable := "Make"; row_Value := Some "Honda" |} ].

(** A transport that cuts the text at the first [?] or [#] and matches
    no route for an empty segment or one with a [/]. *)
Fixpoint segment (s : string) : option string :=
  match s with
  | "" => Some ""
  | String c rest =>
      if Ascii.eqb c "?" || Ascii.eqb c "#" then Some ""
      else if Ascii.eqb c "/" then None
      else option_map (String c) (segment rest)
  end.

Definition cut_query : Lookup.Transport :=
  fun s => match segment s with
           | Some "" => None
           | other => other
           end.

(** Frames and inputs for the scanner. *)
Definition tiny : Scanner.ImageData :=
  {| Scanner.width := 41; Scanner.height := 41; Scanner.pixels := [] |}.

Definition tall (h : Z) : Scanner.ImageData :=
  {| Scanner.width := 50; Scanner.height := h;
     Scanner.pixels := Scenario.stripes 50 50 |}.

Definition vin_session : list Scanner.Frame :=
  [Scenario.text_frame; Scenario.white_frame; Scenario.text_frame].

End Cases.

(** ** supabase/functions/server/index.tsx: users and fuel entries *)

Module Ledger.

Import JS VinService.

Local Open Scope list_scope.

(** A JSON value.  A Number is kept as its rendering [String(n)], which
    is all the routes below look at; an object as its bindings in the
    order they were made, a later binding of a key replacing an earlier
    one. *)
#[local] Set Warnings "-register-all".

Inductive Json :=
| JNull
| JBool (b : bool)
| JNum (rendering : string)
| JStr (s : string)
| JArr (items : list Json)
| JObj (bindings : list (string * Json)).

(** Truthiness: [null], [false], [0] and [''] are falsy. *)
Definition truthy_json (j : Json) : bool :=
  match j with
  | JNull => false
  | JBool b => b
  | JNum rendering => negb (String.eqb rendering "0")
  | JStr s => truthy s
  | JArr _ | JObj _ => true
  end.

Fixpoint join (sep : string) (parts : list string) : string :=
  match parts with
  | [] => ""
  | [p] => p
  | p :: rest => (p ++ sep ++ join sep rest)%string
  end.

(** The string a template literal makes of a value. *)
Fixpoint String_of (j : Json) : string :=
  match j with
  | JNull => "null"
  | JBool true => "true"
  | JBool false => "false"
  | JNum rendering => rendering
  | JStr s => s
  | JArr items =>
      join "," (map (fun x => match x with
                              | JNull => ""
                              | _ => String_of x
                              end) items)
  | JObj _ => "[object Object]"
  end.

(** The value a key is bound to: the last binding counts. *)
Fixpoint field (k : string) (bindings : list (string * Json))
  : option Json :=
  match bindings with
  | [] => None
  | (k', v) :: rest =>
      match field k rest with
      | Some w => Some w
      | None => if String.eqb k' k then Some v else None
      end
  end.

(** The bindings without those of [k]: what serialization leaves of an
    object whose [k] is [undefined]. *)
Definition without (k : string) (bindings : list (string * Json))
  : list (string * Json) :=
  List.filter (fun b => negb (String.eqb (fst b) k)) bindings.

(** [j.k] for a name [k] that is no built-in property: [None] is
    [undefined].  Reading a property of [null] throws; the callers deal
    with it. *)
Definition prop (j : Json) (k : string) : option Json :=
  match j with
  | JObj bindings => field k bindings
  | _ => None
  end.

(** [j?.k] for what [kv.get] returned. *)
Definition prop_opt (j : option Json) (k : string) : option Json :=
  match j with
  | Some j => prop j k
  | None => None
  end.

(** [v || null] for a string that may be missing. *)
Definition or_null (v : option string) : Json :=
  match v with
  | Some s => if truthy s then JStr s else JNull
  | None => JNull
  end.

(** [v || []] for what [kv.get] returned. *)
Definition or_empty_array (v : option Json) : Json :=
  match v with
  | Some j => if truthy_json j then j else JArr []
  | None => JArr []
  end.

Definition units (s : string) : list Json :=
  map (fun c => JStr (String c "")) (list_ascii_of_string s).

Definition indexed (items : list Json) : list (string * Json) :=
  combine (map (fun i => Number_toString (Z.of_nat i))
               (seq 0 (length items)))
          items.

(** The own enumerable properties [{...j}] copies. *)
Definition spread (j : Json) : list (string * Json) :=
  match j with
  | JObj bindings => bindings
  | JArr items => indexed items
  | JStr s => indexed (units s)
  | JNull | JBool _ | JNum _ => []
  end.

(** The elements [[...j]] and [for (... of j)] run through; [None] when
    [j] is not iterable and the code throws. *)
Definition iterate (j : Json) : option (list Json) :=
  match j with
  | JArr items => Some items
  | JStr s => Some (units s)
  | _ => None
  end.

(** [s.endsWith(suffix)] *)
Definition endsWith (s suffix : string) : bool :=
  (String.length suffix <=? String.length s)%nat
  && String.eqb (substring (String.length s - String.length suffix)
                           (String.length suffix) s) suffix.

(** [s.split(' ')] *)
Fixpoint split (s : string) : list string :=
  match s with
  | "" => [""]
  | String c rest =>
      if Ascii.eqb c " " then "" :: split rest
      else match split rest with
           | piece :: pieces => String c piece :: pieces
           | [] => [String c ""]
           end
  end.

(** The key-value store (taken to be available).  The rows under
    [vehicle:] hold the records of the [/decode-vin] route and are kept
    as such; [rows] holds the others. *)
Record Db := {
  vehicles : gmap string VehicleInfo;
  rows : gmap string Json
}.

Definition empty : Db := {| vehicles := ∅; rows := ∅ |}.

Definition with_rows (r : gmap string Json) (db : Db) : Db :=
  {| vehicles := vehicles db; rows := r |}.

Definition user_key (id : string) : string := ("user:" ++ id)%string.
Definition entry_key (id : string) : string := ("fuel_entry:" ++ id)%string.
Definition entries_key (id : string) : string :=
  ("user_fuel_entries:" ++ id)%string.

(** [kv.getByPrefix(prefix)]: the values of the rows whose key starts with
    the prefix, in no particular order. *)
Definition getByPrefix (p : string) (r : gmap string Json) : list Json :=
  (map_to_list (filter (fun kv => String.prefix p (fst kv) = true) r)).*2.

(** What a route answers. *)
Inductive Reply :=
| answer (body : Json)                        (* c.json(body) *)
| refusal (message : string) (status : Z).    (* c.json({error}, status) *)

(** [requireAuth]: the token is the second piece of the [Authorization]
    header split at spaces; [getUser] is what Supabase makes of a token,
    the id of its user or nothing. *)
Definition requireAuth (getUser : string -> option string)
    (authorization : option string) : Reply + string :=
  let accessToken :=
    match authorization with
    | Some header => nth_error (split header) 1
    | None => None
    end in
  if negb (truthy_opt accessToken) then
    inl (refusal "Unauthorized - No token provided" 401)
  else
    match getUser (default "" accessToken) with
    | Some id => inr id
    | None => inl (refusal "Unauthorized - Invalid token" 401)
    end.

(** A route behind [requireAuth]. *)
Definition guarded (getUser : string -> option string)
    (authorization : option string)
    (handler : string -> Db -> Reply * Db) (db : Db) : Reply * Db :=
  match requireAuth getUser authorization with
  | inl r => (r, db)
  | inr user => handler user db
  end.

(** [userProfile?.role === 'admin'] *)
Definition is_admin (userProfile : option Json) : bool :=
  match prop_opt userProfile "role" with
  | Some (JStr role) => String.eqb role "admin"
  | _ => false
  end.

(** What [supabase.auth.admin.createUser] comes to. *)
Inductive Created :=
| created (id : string)
| create_error (message : string)
| create_throws.

(** [POST /signup].  [body] is what [c.req.json()] gives, [None] when it
    rejects. *)
Definition signup (body : option Json) (outcome : Created) (now : string)
    (db : Db) : Reply * Db :=
  let failed := (refusal "Failed to create user" 500, db) in
  match body with
  | None | Some JNull => failed
  | Some b =>
      match prop b "email" with
      | Some (JStr email) =>
          if negb (endsWith email "@napleton.com") then
            (refusal "Only Napleton email addresses are allowed" 400, db)
          else
            match outcome with
            | create_throws => failed
            | create_error message => (refusal message 400, db)
            | created id =>
                let name :=
                  match prop b "name" with
                  | Some n => [("name", n)]
                  | None => []
                  end in
                let profile :=
                  [("id", JStr id); ("email", JStr email)] ++ name
                  ++ [("role", JStr "porter"); ("created_at", JStr now);
                      ("updated_at", JStr now)] in
                (answer
                   (JObj [("message", JStr "User created successfully");
                          ("user",
                           JObj ([("id", JStr id); ("email", JStr email)]
                                 ++ name ++ [("role", JStr "porter")]))]),
                 with_rows (<[user_key id := JObj profile]> (rows db)) db)
            end
      | _ => failed                  (* email.endsWith is not a function *)
      end
  end.

(** [GET /profile] *)
Definition get_profile (user : string) (db : Db) : Reply :=
  match rows db !! user_key user with
  | Some profile =>
      if truthy_json profile then answer profile
      else refusal "Profile not found" 404
  | None => refusal "Profile not found" 404
  end.

(** The entry [POST /fuel-entries] builds: the body's own fields come
    after [id] and [user_id] and before the vehicle fields and
    [created_at]. *)
Definition fuelEntry (user : string) (entryData : Json)
    (vehicleData : option VehicleInfo) (uuid now : string)
  : list (string * Json) :=
  [("id", JStr uuid); ("user_id", JStr user)]
  ++ spread entryData
  ++ [("vehicle_year", or_null (year <$> vehicleData));
      ("vehicle_make", or_null (make <$> vehicleData));
      ("vehicle_model", or_null (model <$> vehicleData));
      ("vehicle_trim", or_null (vehicleData ≫= trim));
      ("created_at", JStr now)].

(** [fuelEntry.id] *)
Definition entry_id (entry : list (string * Json)) : Json :=
  default JNull (field "id" entry).

(** The lookup of the vehicle of an entry: [Some None] is [null], [None]
    a [TypeError] ([vin.toUpperCase] is not a function). *)
Definition vehicle_of (entryData : Json) (db : Db)
  : option (option VehicleInfo) :=
  match prop entryData "vin" with
  | Some (JStr s) =>
      if truthy s then
        Some (vehicles db !! Server.vehicle_key (toUpperCase s))
      else Some None
  | Some v => if truthy_json v then None else Some None
  | None => Some None
  end.

(** [POST /fuel-entries] for the authenticated [user]. *)
Definition create_entry (user : string) (body : option Json)
    (uuid now : string) (db : Db) : Reply * Db :=
  let failed := refusal "Failed to create fuel entry" 500 in
  match body with
  | None | Some JNull => (failed, db)
  | Some entryData =>
      match vehicle_of entryData db with
      | None => (failed, db)
      | Some vehicleData =>
          let entry := fuelEntry user entryData vehicleData uuid now in
          let rows1 :=
            <[entry_key (String_of (entry_id entry)) := JObj entry]>
              (rows db) in
          let userEntriesKey := entries_key user in
          let existingEntries :=
            or_empty_array (rows1 !! userEntriesKey) in
          match iterate existingEntries with
          | None => (failed, with_rows rows1 db)
          | Some ids =>
              (answer (JObj entry),
               with_rows
                 (<[userEntriesKey := JArr (ids ++ [entry_id entry])]> rows1)
                 db)
          end
      end
  end.

(** [GET /fuel-entries] for the authenticated [user]. *)
Definition list_entries (user : string) (db : Db) : Reply :=
  if is_admin (rows db !! user_key user) then
    answer (JArr (getByPrefix "fuel_entry:" (rows db)))
  else
    match iterate (or_empty_array (rows db !! entries_key user)) with
    | None => refusal "Failed to fetch fuel entries" 500
    | Some entryIds =>
        answer
          (JArr (omap (fun entryId =>
                         match rows db !! entry_key (String_of entryId) with
                         | Some entry =>
                             if truthy_json entry then Some entry else None
                         | None => None
                         end) entryIds))
    end.

(** [GET /admin/users] *)
Definition list_users (user : string) (db : Db) : Reply :=
  if negb (is_admin (rows db !! user_key user)) then
    refusal "Admin access required" 403
  else answer (JArr (getByPrefix "user:" (rows db))).

(** [PUT /admin/users/:userId/role] *)
Definition update_role (user userId : string) (body : option Json)
    (now : string) (db : Db) : Reply * Db :=
  if negb (is_admin (rows db !! user_key user)) then
    (refusal "Admin access required" 403, db)
  else
    match body with
    | None | Some JNull => (refusal "Failed to update user role" 500, db)
    | Some b =>
        match rows db !! user_key userId with
        | Some targetUser =>
            if truthy_json targetUser then
              let updatedUser :=
                match prop b "role" with
                | Some role => spread targetUser ++ [("role", role)]
                | None => without "role" (spread targetUser)
                end ++ [("updated_at", JStr now)] in
              (answer (JObj updatedUser),
               with_rows (<[user_key userId := JObj updatedUser]> (rows db))
                         db)
            else (refusal "User not found" 404, db)
        | None => (refusal "User not found" 404, db)
        end
    end.

(** [DELETE /admin/users/:userId] *)
Definition delete_user (user userId : string) (db : Db) : Reply * Db :=
  if negb (is_admin (rows db !! user_key user)) then
    (refusal "Admin access required" 403, db)
  else
    let rows1 := delete (user_key userId) (rows db) in
    let userEntriesKey := entries_key userId in
    match iterate (or_empty_array (rows1 !! userEntriesKey)) with
    | None => (refusal "Failed to delete user" 500, with_rows rows1 db)
    | Some entryIds =>
        let rows2 :=
          fold_left (fun r entryId => delete (entry_key (String_of entryId)) r)
                    entryIds rows1 in
        (answer (JObj [("message", JStr "User deleted successfully")]),
         with_rows (delete userEntriesKey rows2) db)
    end.

(** [POST /decode-vin] on the whole store. *)
Definition decode_vin (authorized : bool) (vin : string)
    (registry : RegistryReply) (now : Z) (db : Db) : Db :=
  {| vehicles := snd (Server.decode_vin authorized vin registry now
                                        (vehicles db));
     rows := rows db |}.

(** The requests that change the store, each with what the outside world
    contributes to it. *)
Inductive Request :=
| Signup (body : option Json) (outcome : Created) (now : string)
| CreateEntry (user : string) (body : option Json) (uuid now : string)
| UpdateRole (user userId : string) (body : option Json) (now : string)
| DeleteUser (user userId : string)
| DecodeVin (authorized : bool) (vin : string) (registry : RegistryReply)
            (now : Z).

Definition serve (r : Request) (db : Db) : Db :=
  match r with
  | Signup body outcome now => snd (signup body outcome now db)
  | CreateEntry user body uuid now => snd (create_entry user body uuid now db)
  | UpdateRole user userId body now =>
      snd (update_role user userId body now db)
  | DeleteUser user userId => snd (delete_user user userId db)
  | DecodeVin authorized vin registry now =>
      decode_vin authorized vin registry now db
  end.

(** The stores that requests lead to from [db0]. *)
Inductive reaches (db0 : Db) : Db -> Prop :=
| reaches_start : reaches db0 db0
| reaches_serve r db : reaches db0 db -> reaches db0 (serve r db).

(** One demo user of [initDemoUsers]: the profile is written when
    [createUser] gives a user, and nothing is when it gives an error or
    throws.  The two stamps are the two [new Date().toISOString()]. *)
Definition demo_user (email name role : string) (outcome : Created)
    (created_at updated_at : string) (db : Db) : Db :=
  match outcome with
  | created id =>
      with_rows
        (<[user_key id :=
             JObj [("id", JStr id); ("email", JStr email);
                   ("name", JStr name); ("role", JStr role);
                   ("created_at", JStr created_at);
                   ("updated_at", JStr updated_at)]]> (rows db)) db
  | create_error _ | create_throws => db
  end.

(** [initDemoUsers], run when the server starts: the admin, then the
    porter.  [POST /setup-demo-users] makes the same two writes. *)
Definition initDemoUsers (admin porter : Created)
    (admin_created admin_updated porter_created porter_updated : string)
    (db : Db) : Db :=
  demo_user "porter@napleton.com" "John Porter" "porter" porter
            porter_created porter_updated
    (demo_user "admin@napleton.com" "Admin User" "admin" admin
               admin_created admin_updated db).

(** The stores that arise: from the empty one, by the requests and by
    setting up the demo users, at the start or later. *)
Inductive arises : Db -> Prop :=
| arises_empty : arises empty
| arises_serve r db : arises db -> arises (serve r db)
| arises_demo admin porter t1 t2 t3 t4 db :
    arises db -> arises (initDemoUsers admin porter t1 t2 t3 t4 db).

End Ledger.

(** ** Concrete users, requests and stores *)

Module Book.

Import Ledger.

Definition stamp : string := "2024-05-01T12:00:00.000Z".

(** What Supabase makes of the tokens. *)
Definition getUser (token : string) : option string :=
  if String.eqb token "t-alice" then Some "alice" else None.

(** A signup that asks for the admin role. *)
Definition alice_signup : Json :=
  JObj [("email", JStr "alice@napleton.com"); ("password", JStr "secret");
        ("name", JStr "Alice"); ("role", JStr "admin")].

Definition fill_up_fields : list (string * Json) :=
  [("vin", JStr "1hgbh41jxmn109186"); ("gallons", JNum "12.5")].

Definition fill_up : Json := JObj fill_up_fields.

(** Alice has signed up and posted one entry. *)
Definition alice_db : Db :=
  serve (CreateEntry "alice" (Some fill_up) "e1" stamp)
        (serve (Signup (Some alice_signup) (created "alice") stamp)
               Ledger.empty).

(** A body that names the id of Alice's entry and Alice as its owner. *)
Definition forged_fields : list (string * Json) :=
  [("id", JStr "e1"); ("user_id", JStr "alice"); ("gallons", JNum "999")].

Definition forged : Json := JObj forged_fields.

(** The same store with an admin in it. *)
Definition root_fields : list (string * Json) :=
  [("id", JStr "root"); ("role", JStr "admin")].

Definition root_db : Db :=
  with_rows (<[user_key "root" := JObj root_fields]> (rows alice_db))
            alice_db.

(** The server has set up its demo users, with the ids [root] and
    [john]; then Alice has signed up and posted one entry. *)
Definition demo_db : Db :=
  serve (CreateEntry "alice" (Some fill_up) "e1" stamp)
        (serve (Signup (Some alice_signup) (created "alice") stamp)
               (initDemoUsers (created "root") (created "john")
                              stamp stamp stamp stamp Ledger.empty)).

End Book.

(** ** The property the specification gives for VIN syntax *)

Module VinGrammar.

Import JS.

(** A character of [[A-Z0-9]] other than [I], [O] and [Q]. *)
Definition allowed (c : ascii) : Prop :=
  (between "A" "Z" c = true \/ between "0" "9" c = true)
  /\ c <> "I"%char /\ c <> "O"%char /\ c <> "Q"%char.

(** Exactly 17 characters, all allowed. *)
Definition well_formed (s : string) : Prop :=
  String.length s = 17 /\ Forall allowed (list_ascii_of_string s).

Definition allowedb (c : ascii) : bool :=
  (between "A" "Z" c || between "0" "9" c)
  && negb (Ascii.eqb c "I") && negb (Ascii.eqb c "O")
  && negb (Ascii.eqb c "Q").

End VinGrammar.

(* ===================================================================== *)
(** * Part II.  Properties                                                *)
(* ===================================================================== *)

Module RegexFacts.

Import JS Regex.

Lemma exactly_length cls n s : exactly cls n s = true -> String.length s = n.
Proof.
  revert s; induction n as [|n IH]; intros [|c s]; simpl; try discriminate.
  - reflexivity.
  - intros H. apply andb_true_iff in H as [_ H]. f_equal. now apply IH.
Qed.

Lemma exactly_forall cls n s :
  exactly cls n s = true <->
  String.length s = n
  /\ Forall (fun c => cls c = true) (list_ascii_of_string s).
Proof.
  revert s; induction n as [|n IH]; intros [|c s]; simpl.
  - split; [intros _; split; [reflexivity|constructor]|reflexivity].
  - split; [discriminate|intros [H _]; discriminate].
  - split; [discriminate|intros [H _]; discriminate].
  - rewrite andb_true_iff, IH. split.
    + intros [Hc [Hl Hf]]. split; [now f_equal|now constructor].
    + intros [Hl Hf]. inversion Hf; subst. repeat split; auto.
Qed.

Lemma vin_class_allowedb c : vin_class c = VinGrammar.allowedb c.
Proof.
  destruct c as [[] [] [] [] [] [] [] []]; reflexivity.
Qed.

Lemma allowedb_spec c : VinGrammar.allowedb c = true <-> VinGrammar.allowed c.
Proof.
  unfold VinGrammar.allowedb, VinGrammar.allowed.
  rewrite !andb_true_iff, orb_true_iff, !negb_true_iff.
  rewrite <- !not_true_iff_false, !Ascii.eqb_eq. tauto.
Qed.

Lemma vinPattern_test_spec s :
  vinPattern_test s = true <-> VinGrammar.well_formed s.
Proof.
  unfold vinPattern_test, VinGrammar.well_formed.
  rewrite exactly_forall. apply and_iff_compat_l.
  rewrite !Forall_forall. split; intros H c Hc.
  - apply allowedb_spec. rewrite <- vin_class_allowedb. now apply H.
  - rewrite vin_class_allowedb. apply allowedb_spec. now apply H.
Qed.

End RegexFacts.

Module JSFacts.

Import JS Regex.

Lemma upper_unit_vin_class c : vin_class c = true -> upper_unit c = String c "".
Proof.
  destruct c as [[] [] [] [] [] [] [] []]; vm_compute; congruence.
Qed.

(** Upper-casing leaves a string of the VIN alphabet as it is. *)
Lemma toUpperCase_exactly n s :
  exactly vin_class n s = true -> toUpperCase s = s.
Proof.
  revert s; induction n as [|n IH]; intros [|c s]; simpl; try discriminate.
  - reflexivity.
  - intros H. apply andb_true_iff in H as [Hc H].
    rewrite (upper_unit_vin_class _ Hc), (IH _ H). reflexivity.
Qed.

Lemma toUpperCase_vinPattern s :
  vinPattern_test s = true -> toUpperCase s = s.
Proof. apply toUpperCase_exactly. Qed.

Lemma truthy_true s : truthy s = true <-> s <> "".
Proof. destruct s; simpl; split; congruence. Qed.

Lemma truthy_false s : truthy s = false <-> s = "".
Proof. destruct s; simpl; split; congruence. Qed.

Lemma length_append (a b : string) :
  String.length (a ++ b) = (String.length a + String.length b)%nat.
Proof. induction a as [|c a IH]; simpl; [reflexivity|now rewrite IH]. Qed.

(** A number with [k + 1] decimal digits is rendered on [k + 1]
    characters. *)
Lemma digits_into_length (k : nat) :
  forall (fuel : nat) (n : Z) (acc : string),
    (k < fuel)%nat ->
    (10 ^ Z.of_nat k <= n < 10 ^ Z.of_nat (S k))%Z ->
    String.length (digits_into fuel n acc) = (S k + String.length acc)%nat.
Proof.
  induction k as [|k IH]; intros fuel n acc Hfuel Hn;
    (destruct fuel as [|fuel]; [lia|]); simpl digits_into.
  - change (10 ^ Z.of_nat 0)%Z with 1%Z in Hn.
    change (10 ^ Z.of_nat 1)%Z with 10%Z in Hn.
    replace (n / 10 =? 0)%Z with true; [reflexivity|].
    symmetry. apply Z.eqb_eq, Z.div_small. lia.
  - rewrite !Nat2Z.inj_succ, !Z.pow_succ_r in Hn by lia.
    assert (Hpos : (0 < 10 ^ Z.of_nat k)%Z) by (apply Z.pow_pos_nonneg; lia).
    assert (Hq : (10 ^ Z.of_nat k <= n / 10 < 10 ^ Z.of_nat (S k))%Z).
    { rewrite Nat2Z.inj_succ, Z.pow_succ_r by lia. split.
      - apply Z.div_le_lower_bound; lia.
      - apply Z.div_lt_upper_bound; lia. }
    replace (n / 10 =? 0)%Z with false
      by (symmetry; apply Z.eqb_neq; lia).
    rewrite (IH fuel (n / 10)%Z) by (lia || exact Hq).
    simpl. lia.
Qed.

Lemma Number_toString_length (k : nat) (n : Z) :
  (10 ^ Z.of_nat k <= n < 10 ^ Z.of_nat (S k))%Z ->
  String.length (Number_toString n) = S k.
Proof.
  intros Hn. unfold Number_toString.
  rewrite (digits_into_length k) by (try exact Hn;
    assert (Z.of_nat k <= Z.log2 n)%Z
      by (apply Z.log2_le_pow2;
          [assert (0 < 10 ^ Z.of_nat k)%Z by (apply Z.pow_pos_nonneg; lia); lia
          |transitivity (10 ^ Z.of_nat k)%Z;
           [apply Z.pow_le_mono_l; lia|lia]]);
    lia).
  simpl. lia.
Qed.

Lemma mantissa_range u : (0 <= mantissa u < 2 ^ 53)%Z.
Proof. unfold mantissa. apply Z.mod_pos_bound. reflexivity. Qed.

(** [Math.floor(Math.random() * n)] lies in [0, n). *)
Lemma random_floor_range u n :
  (0 < n)%Z -> (0 <= random_floor u n < n)%Z.
Proof.
  intros Hn. unfold random_floor. pose proof (mantissa_range u) as Hm.
  split.
  - apply Z.div_pos; [nia|reflexivity].
  - apply Z.div_lt_upper_bound; [reflexivity|nia].
Qed.

End JSFacts.

(** ** VIN syntax *)

Module SyntaxFacts.

Import JS VinService.

(** C1.  [isValidVinFormat] is a total boolean function that answers true
    exactly when the upper-cased input has 17 characters, all from
    [[A-Z0-9]] and none of them I, O or Q.  The scanner's [VIN_PATTERN]
    gives the same verdict on the upper-cased input, and the server's
    [/decode-vin] route rejects a non-empty VIN for its format exactly when
    [isValidVinFormat] is false. *)
Theorem isValidVinFormat_iff_grammar (input : string) :
  (isValidVinFormat input = true <->
   VinGrammar.well_formed (toUpperCase input))
  /\ (isValidVinFormat input = false <->
      ~ VinGrammar.well_formed (toUpperCase input))
  /\ Scanner.VIN_PATTERN_test (toUpperCase input) = isValidVinFormat input
  /\ (forall reply now kv,
        Server.is_format_rejection
          (fst (Server.decode_vin true input reply now kv))
        = truthy input && negb (isValidVinFormat input)).
Proof.
  assert (H : isValidVinFormat input = true <->
              VinGrammar.well_formed (toUpperCase input))
    by apply RegexFacts.vinPattern_test_spec.
  split; [exact H|]. split; [|split].
  - split.
    + intros Hf Hw. apply H in Hw. congruence.
    + intros Hn. destruct (isValidVinFormat input); [|reflexivity].
      exfalso. apply Hn, H. reflexivity.
  - reflexivity.
  - intros reply now kv. unfold Server.decode_vin. simpl.
    destruct (truthy input); simpl; [|reflexivity].
    fold (isValidVinFormat input).
    destruct (isValidVinFormat input); simpl; [|reflexivity].
    destruct (kv !! _); simpl; [reflexivity|].
    destruct reply; reflexivity.
Qed.

(** The examples of the specification. *)
Example vin_accepted : isValidVinFormat "1HGBH41JXMN109186" = true.
Proof. reflexivity. Qed.

Example vin_with_O_refused : isValidVinFormat "1HGBH41JXMN1091O6" = false.
Proof. reflexivity. Qed.

Example short_vin_refused : isValidVinFormat "SHORT123" = false.
Proof. reflexivity. Qed.

Example lower_case_accepted : isValidVinFormat "1hgbh41jxmn109186" = true.
Proof. reflexivity. Qed.

(** On input made of code units below 128 upper-casing keeps the length,
    so an accepted input of that kind has 17 characters itself. *)
Lemma upper_unit_ascii c :
  (code c <? 128)%N = true -> String.length (upper_unit c) = 1.
Proof.
  destruct c as [[] [] [] [] [] [] [] []]; vm_compute; congruence.
Qed.

Lemma isValidVinFormat_ascii_length input :
  Forall (fun c => (code c <? 128)%N = true) (list_ascii_of_string input) ->
  isValidVinFormat input = true -> String.length input = 17.
Proof.
  intros Hascii Hv. apply RegexFacts.exactly_length in Hv. rewrite <- Hv.
  clear Hv. induction input as [|c input IH]; simpl; [reflexivity|].
  inversion Hascii; subst.
  rewrite JSFacts.length_append, upper_unit_ascii, <- IH by assumption.
  reflexivity.
Qed.

(** The length that counts is the one after upper-casing: sharp s becomes
    two letters. *)
Example sharp_s_expands :
  let input := String "223" "234567890123456" in
  String.length input = 16 /\ isValidVinFormat input = true.
Proof. split; reflexivity. Qed.

End SyntaxFacts.

(** ** The decode service: invariants *)

Module DecodeFacts.

Import JS VinService Decode.

(** [valid] is the conjunction of the truthiness of the three required
    fields. *)
Definition consistent (r : VehicleInfo) : Prop :=
  valid r = truthy (year r) && truthy (make r) && truthy (model r).

Definition key_ok (k : string) : Prop := Regex.vinPattern_test k = true.

Record sound (w : World) : Prop := {
  cache_consistent : map_Forall (fun _ r => consistent r) (cache w);
  kv_consistent : map_Forall (fun _ r => consistent r) (kv w);
  cache_keys : map_Forall (fun k _ => key_ok k) (cache w)
}.

Lemma consistent_iff r :
  consistent r ->
  (valid r = true <-> year r <> "" /\ make r <> "" /\ model r <> "").
Proof.
  unfold consistent. intros ->.
  rewrite !andb_true_iff, !JSFacts.truthy_true. tauto.
Qed.

Lemma extract_consistent v rs now e : consistent (extract v rs now e).
Proof. reflexivity. Qed.

Lemma failure_consistent v e a : consistent (failure_record v e a).
Proof. reflexivity. Qed.

Create HintDb decode.
#[local] Hint Resolve extract_consistent failure_consistent : decode.

(** The server keeps its store consistent and answers with consistent
    records. *)
Lemma server_decode_vin_consistent a v reply now (s : gmap string VehicleInfo) :
  map_Forall (fun _ r => consistent r) s ->
  map_Forall (fun _ r => consistent r) (snd (Server.decode_vin a v reply now s))
  /\ (forall r f, fst (Server.decode_vin a v reply now s)
                  = Server.json_vehicle r f -> consistent r).
Proof.
  intros Hs. unfold Server.decode_vin.
  destruct a; simpl; [|split; [assumption|discriminate]].
  destruct (truthy v); simpl; [|split; [assumption|discriminate]].
  destruct (Regex.vinPattern_test (toUpperCase v)); simpl;
    [|split; [assumption|discriminate]].
  destruct (s !! Server.vehicle_key (toUpperCase v)) as [c|] eqn:Hc; simpl.
  - split; [assumption|]. intros r f [= <- _]. exact (Hs _ _ Hc).
  - destruct reply; simpl;
      (split; [apply map_Forall_insert_2; auto with decode
              |intros r f [= <- _]; auto with decode]).
Qed.

Lemma sound_initial : sound initial.
Proof. split; simpl; apply map_Forall_empty. Qed.

Lemma sound_cache_set k v w :
  key_ok k -> consistent v -> sound w -> sound (cache_set k v w).
Proof.
  intros Hk Hv [H1 H2 H3].
  split; simpl; auto; apply map_Forall_insert_2; auto.
Qed.

Lemma sound_record_call c w : sound w -> sound (record_call c w).
Proof. intros [H1 H2 H3]. split; assumption. Qed.

Lemma sound_setTimeout k d w : sound w -> sound (setTimeout_delete k d w).
Proof. intros [H1 H2 H3]. split; assumption. Qed.

Lemma sound_kv_put s w :
  map_Forall (fun _ r => consistent r) s -> sound w -> sound (kv_put s w).
Proof. intros Hs [H1 H2 H3]. split; assumption. Qed.

Lemma directNhtsaCall_sound net k w :
  key_ok k -> sound w ->
  sound (snd (directNhtsaCall net k w))
  /\ (forall r, fst (directNhtsaCall net k w) = Resolved r -> consistent r).
Proof.
  intros Hk Hw. unfold directNhtsaCall.
  destruct (registry net); simpl;
    try (split; [apply sound_record_call; assumption|discriminate]).
  split.
  - apply sound_cache_set; auto with decode.
    apply sound_record_call; assumption.
  - intros r [= <-]. auto with decode.
Qed.

Lemma backendCall_sound net k token w :
  key_ok k -> sound w ->
  sound (snd (backendCall net k token w))
  /\ (forall r, fst (backendCall net k token w) = Resolved r -> consistent r).
Proof.
  intros Hk Hw. unfold backendCall.
  destruct (link_up net); simpl;
    [|split; [apply sound_record_call; assumption|discriminate]].
  pose proof (server_decode_vin_consistent (authorized net) k
                (backend_registry net) (clock w) (kv w) (kv_consistent w Hw))
    as [Hkv Hresp].
  destruct (Server.decode_vin _ _ _ _ _) as [response kv'] eqn:E.
  simpl in Hkv, Hresp.
  assert (Hw' : sound (kv_put kv' (record_call (call_backend k token) w)))
    by (apply sound_kv_put; [assumption|apply sound_record_call; assumption]).
  destruct response as [r failed|m st]; simpl.
  - destruct failed; simpl; [split; [assumption|discriminate]|].
    split.
    + apply sound_cache_set; eauto.
    + intros r' [= <-]. eauto.
  - split; [assumption|discriminate].
Qed.

(** The three ways through [decodeVin]. *)
Lemma decodeVin_invalid net input token w :
  isValidVinFormat input = false ->
  decodeVin net input token w
  = (Resolved (failure_record (toUpperCase input) "Invalid VIN format" None),
     w).
Proof. intros H. unfold decodeVin. rewrite H. reflexivity. Qed.

Lemma decodeVin_hit net input token w cached :
  isValidVinFormat input = true ->
  cache w !! toUpperCase input = Some cached ->
  decodeVin net input token w = (Resolved cached, w).
Proof. intros H Hc. unfold decodeVin. rewrite H, Hc. reflexivity. Qed.

Lemma decodeVin_miss_token net input token w :
  isValidVinFormat input = true ->
  cache w !! toUpperCase input = None ->
  truthy token = true ->
  decodeVin net input (Some token) w
  = match backendCall net (toUpperCase input) token w with
    | (Resolved r, w1) => (Resolved r, w1)
    | (Rejected _, w1) => directNhtsaCall net (toUpperCase input) w1
    end.
Proof.
  intros H Hc Ht. unfold decodeVin. rewrite H, Hc. simpl. rewrite Ht.
  reflexivity.
Qed.

Lemma decodeVin_miss_anonymous net input token w :
  isValidVinFormat input = true ->
  cache w !! toUpperCase input = None ->
  truthy_opt token = false ->
  decodeVin net input token w
  = match directNhtsaCall net (toUpperCase input) w with
    | (Resolved r, w1) => (Resolved r, w1)
    | (Rejected _, w1) =>
        let errorInfo :=
          failure_record (toUpperCase input) "Failed to decode VIN" None in
        (Resolved errorInfo,
         cache_set (toUpperCase input) errorInfo
           (setTimeout_delete (toUpperCase input) five_minutes w1))
    end.
Proof.
  intros H Hc Ht. unfold decodeVin. rewrite H, Hc. simpl.
  destruct token as [t|]; simpl in Ht; rewrite ?Ht;
    destruct (directNhtsaCall net (toUpperCase input) w) as [[r|e] w1];
    simpl; rewrite ?Ht; reflexivity.
Qed.

Lemma decodeVin_sound net input token w :
  sound w ->
  sound (snd (decodeVin net input token w))
  /\ (forall r, fst (decodeVin net input token w) = Resolved r -> consistent r).
Proof.
  intros Hw.
  destruct (isValidVinFormat input) eqn:Hv.
  2:{ rewrite decodeVin_invalid by assumption. simpl.
      split; [assumption|intros r [= <-]; auto with decode]. }
  assert (Hk : key_ok (toUpperCase input)) by exact Hv.
  destruct (cache w !! toUpperCase input) as [c|] eqn:Hc.
  { rewrite (decodeVin_hit _ _ _ _ c) by assumption. simpl.
    split; [assumption|]. intros r [= <-].
    exact (cache_consistent w Hw _ _ Hc). }
  destruct (truthy_opt token) eqn:Ht.
  - destruct token as [t|]; [|discriminate]. simpl in Ht.
    rewrite decodeVin_miss_token by assumption.
    destruct (backendCall_sound net (toUpperCase input) t w Hk Hw) as [Hs Hr].
    destruct (backendCall net (toUpperCase input) t w) as [[r|e] w1];
      simpl in *.
    + split; [assumption|]. intros r' [= <-]. auto.
    + apply directNhtsaCall_sound; assumption.
  - rewrite decodeVin_miss_anonymous by assumption.
    destruct (directNhtsaCall_sound net (toUpperCase input) w Hk Hw) as [Hs Hr].
    destruct (directNhtsaCall net (toUpperCase input) w) as [[r|e] w1];
      simpl in *.
    + split; [assumption|]. intros r' [= <-]. auto.
    + split.
      * apply sound_cache_set; auto with decode.
        apply sound_setTimeout; assumption.
      * intros r' [= <-]. auto with decode.
Qed.

Lemma foldr_fire_Forall {A} (P : string -> A -> Prop) ts (c : gmap string A) :
  map_Forall P c ->
  map_Forall P (foldr (fun t m => delete (key t) m) c ts).
Proof.
  intros Hc. induction ts as [|t ts IH]; simpl; [assumption|].
  apply map_Forall_delete, IH.
Qed.

Lemma sound_advance dt w : sound w -> sound (advance dt w).
Proof.
  intros [H1 H2 H3]. split; simpl; auto;
    apply (foldr_fire_Forall _ _ _); assumption.
Qed.

Lemma sound_clearCache w : sound w -> sound (clearCache w).
Proof. intros [H1 H2 H3]. split; simpl; auto; apply map_Forall_empty. Qed.

Lemma sound_remote_decode v reply w :
  sound w -> sound (remote_decode v reply w).
Proof.
  intros Hw. apply sound_kv_put; [|assumption].
  apply server_decode_vin_consistent, (kv_consistent w Hw).
Qed.

Lemma reachable_sound w : reachable w -> sound w.
Proof.
  induction 1.
  - apply sound_initial.
  - apply decodeVin_sound; assumption.
  - apply sound_clearCache; assumption.
  - apply sound_advance; assumption.
  - apply sound_remote_decode; assumption.
Qed.

End DecodeFacts.

(** ** The decode service: cache and fallback *)

Module DecodeClaims.

Import JS VinService Decode DecodeFacts.

Local Open Scope list_scope.

Lemma directNhtsaCall_calls net k w :
  calls (snd (directNhtsaCall net k w)) = calls w ++ [call_registry k].
Proof. unfold directNhtsaCall. destruct (registry net); reflexivity. Qed.

Lemma backendCall_calls net k token w :
  calls (snd (backendCall net k token w)) = calls w ++ [call_backend k token].
Proof.
  unfold backendCall. destruct (link_up net); simpl; [|reflexivity].
  destruct (Server.decode_vin _ _ _ _ _) as [[r [|]|m st] kv']; reflexivity.
Qed.

(** The backend call fails when the fetch is rejected or the answer is not
    a success. *)
Lemma backendCall_fails net k token w :
  link_up net = false
  \/ Server.ok (fst (Server.decode_vin (authorized net) k
                       (backend_registry net) (clock w) (kv w))) = false ->
  fst (backendCall net k token w) = Rejected backend_failed.
Proof.
  unfold backendCall. destruct (link_up net); simpl; [|reflexivity].
  intros [?|H]; [discriminate|].
  destruct (Server.decode_vin _ _ _ _ _) as [response kv']. simpl in *.
  rewrite H. reflexivity.
Qed.

(** With a token, a failed backend call and a failed registry call, the
    promise of [decodeVin] is rejected. *)
Lemma decodeVin_rejected net X token w :
  isValidVinFormat X = true ->
  cache w !! toUpperCase X = None ->
  truthy token = true ->
  link_up net = false ->
  (forall R, registry net <> registry_json R) ->
  fst (decodeVin net X (Some token) w) = Rejected registry_failed.
Proof.
  intros Hv Hc Ht Hl Hr. rewrite decodeVin_miss_token by assumption.
  pose proof (backendCall_fails net (toUpperCase X) token w (or_introl Hl))
    as Hb.
  destruct (backendCall net (toUpperCase X) token w) as [[r|e] w1];
    simpl in Hb; [discriminate|].
  unfold directNhtsaCall.
  destruct (registry net) as [| | |R]; try reflexivity.
  now destruct (Hr R).
Qed.

(** C2.  For a syntactically valid VIN whose upper-cased form has a record
    in the cache, [decodeVin] resolves to that very record and leaves the
    world as it was: no call is added to the network log.  The record may
    be any record, a failure record whose timer is still pending
    included. *)
Theorem cache_hit_avoids_network net X token w cached :
  isValidVinFormat X = true ->
  cache w !! toUpperCase X = Some cached ->
  decodeVin net X token w = (Resolved cached, w)
  /\ calls (snd (decodeVin net X token w)) = calls w.
Proof.
  intros Hv Hc. rewrite (decodeVin_hit _ _ _ _ cached) by assumption.
  split; reflexivity.
Qed.

(** What the registry call comes to, by the registry's answer. *)
Lemma directNhtsaCall_answered net k w R :
  registry net = registry_json R ->
  directNhtsaCall net k w
  = (Resolved (extract k (default [] R) (clock w)
                 "Vehicle information not found"),
     cache_set k (extract k (default [] R) (clock w)
                    "Vehicle information not found")
       (record_call (call_registry k) w)).
Proof. intros H. unfold directNhtsaCall. rewrite H. reflexivity. Qed.

Lemma directNhtsaCall_unanswered net k w :
  (forall R, registry net <> registry_json R) ->
  directNhtsaCall net k w
  = (Rejected registry_failed, record_call (call_registry k) w).
Proof.
  intros H. unfold directNhtsaCall.
  destruct (registry net) as [| | |R]; try reflexivity. now destruct (H R).
Qed.

Lemma backendCall_clock net k token w :
  clock (snd (backendCall net k token w)) = clock w.
Proof.
  unfold backendCall. destruct (link_up net); simpl; [|reflexivity].
  destruct (Server.decode_vin _ _ _ _ _) as [[r [|]|m st] kv']; reflexivity.
Qed.

(** C3.  On a cache miss for a valid VIN: with a token, when the backend
    call fails (rejected fetch, or an answer that is not a success),
    [decodeVin] goes on to the public registry, the log showing the
    backend call followed by the registry call, and returns what the
    registry gives: the record extracted from the registry's rows, which
    it also caches, when the registry answers, and the registry call's
    failure when it does not.  Without a token no backend call is ever
    logged: the log is unchanged (invalid input or cache hit) or gains
    exactly one registry call (cache miss), and the record is the one
    extracted from the registry's rows when the registry answers. *)
Theorem fallback_order net X w :
  (forall token,
      isValidVinFormat X = true ->
      cache w !! toUpperCase X = None ->
      truthy token = true ->
      (link_up net = false
       \/ Server.ok (fst (Server.decode_vin (authorized net) (toUpperCase X)
                            (backend_registry net) (clock w) (kv w)))
          = false) ->
      calls (snd (decodeVin net X (Some token) w))
      = calls w ++ [call_backend (toUpperCase X) token;
                    call_registry (toUpperCase X)]
      /\ (forall R,
            registry net = registry_json R ->
            fst (decodeVin net X (Some token) w)
            = Resolved (extract (toUpperCase X) (default [] R) (clock w)
                          "Vehicle information not found")
            /\ cache (snd (decodeVin net X (Some token) w))
                 !! toUpperCase X
               = Some (extract (toUpperCase X) (default [] R) (clock w)
                         "Vehicle information not found"))
      /\ ((forall R, registry net <> registry_json R) ->
          fst (decodeVin net X (Some token) w) = Rejected registry_failed))
  /\ (forall token,
        truthy_opt token = false ->
        (calls (snd (decodeVin net X token w)) = calls w
         \/ calls (snd (decodeVin net X token w))
            = calls w ++ [call_registry (toUpperCase X)])
        /\ (isValidVinFormat X = true ->
            cache w !! toUpperCase X = None ->
            calls (snd (decodeVin net X token w))
            = calls w ++ [call_registry (toUpperCase X)]
            /\ (forall R,
                  registry net = registry_json R ->
                  fst (decodeVin net X token w)
                  = Resolved (extract (toUpperCase X) (default [] R) (clock w)
                                "Vehicle information not found"))
            /\ ((forall R, registry net <> registry_json R) ->
                fst (decodeVin net X token w)
                = Resolved (failure_record (toUpperCase X)
                              "Failed to decode VIN" None)))).
Proof.
  split.
  - intros token Hv Hc Ht Hfail.
    rewrite decodeVin_miss_token by assumption.
    pose proof (backendCall_fails net (toUpperCase X) token w Hfail) as Hb.
    pose proof (backendCall_calls net (toUpperCase X) token w) as Hl.
    pose proof (backendCall_clock net (toUpperCase X) token w) as Hk.
    destruct (backendCall net (toUpperCase X) token w) as [[r|e] w1];
      simpl in *; [discriminate|].
    split; [|split].
    + rewrite directNhtsaCall_calls, Hl, <- app_assoc. reflexivity.
    + intros R HR. rewrite (directNhtsaCall_answered _ _ _ R HR). simpl.
      rewrite Hk. split; [reflexivity|]. apply lookup_insert_eq.
    + intros HR. rewrite directNhtsaCall_unanswered by assumption.
      reflexivity.
  - intros token Ht.
    assert (Hmiss : isValidVinFormat X = true ->
                    cache w !! toUpperCase X = None ->
                    calls (snd (decodeVin net X token w))
                    = calls w ++ [call_registry (toUpperCase X)]
                    /\ (forall R,
                          registry net = registry_json R ->
                          fst (decodeVin net X token w)
                          = Resolved (extract (toUpperCase X) (default [] R)
                                        (clock w)
                                        "Vehicle information not found"))
                    /\ ((forall R, registry net <> registry_json R) ->
                        fst (decodeVin net X token w)
                        = Resolved (failure_record (toUpperCase X)
                                      "Failed to decode VIN" None))).
    { intros Hv Hc. rewrite decodeVin_miss_anonymous by assumption.
      split; [|split].
      - pose proof (directNhtsaCall_calls net (toUpperCase X) w) as Hl.
        destruct (directNhtsaCall net (toUpperCase X) w) as [[r|e] w1];
          simpl in *; assumption.
      - intros R HR. rewrite (directNhtsaCall_answered _ _ _ R HR).
        reflexivity.
      - intros HR. rewrite directNhtsaCall_unanswered by assumption.
        reflexivity. }
    split; [|exact Hmiss].
    destruct (isValidVinFormat X) eqn:Hv.
    + destruct (cache w !! toUpperCase X) as [c|] eqn:Hc.
      * left. rewrite (decodeVin_hit _ _ _ _ c) by assumption. reflexivity.
      * right. apply Hmiss; reflexivity.
    + left. rewrite decodeVin_invalid by assumption. reflexivity.
Qed.

(** C4 (the code departs from it).  With a token, the backend unreachable
    and the registry unreachable, [decodeVin "1HGBH41JXMN109186"] does not
    resolve to a record: the error of [directNhtsaCall] escapes the
    [catch] block, and nothing is cached.  Without a token the same
    network resolves to a failure record with [valid = false] and an
    [error]. *)
Theorem decodeVin_offline_with_token_rejects :
  fst (decodeVin Scenario.offline Scenario.honda (Some "token") initial)
  = Rejected registry_failed
  /\ cache (snd (decodeVin Scenario.offline Scenario.honda (Some "token")
                   initial)) !! Scenario.honda = None
  /\ fst (decodeVin Scenario.offline Scenario.honda None initial)
     = Resolved (failure_record Scenario.honda "Failed to decode VIN" None).
Proof. vm_compute. repeat split; reflexivity. Qed.

(** C5.  In every reachable world, a record to which [decodeVin] resolves,
    on whatever path, has [valid = true] exactly when [year], [make] and
    [model] are all non-empty. *)
Theorem validity_invariant net X token w r :
  reachable w ->
  fst (decodeVin net X token w) = Resolved r ->
  (valid r = true <-> year r <> "" /\ make r <> "" /\ model r <> "").
Proof.
  intros Hw Hr. apply consistent_iff.
  apply (decodeVin_sound net X token w (reachable_sound w Hw)). exact Hr.
Qed.

(** C7.  When [decodeVin] resolves for an input that passes the format
    check, the record is in the cache under the upper-cased VIN right after
    the call, whether it is a success or a failure record.  In particular,
    decoding "1HGBH41JXMN109186" without a token on a cache miss, against a
    registry answer whose rows give Model Year 2010, Make Honda and Model
    Civic, resolves to a record with [valid = true] and these three values,
    and that record is cached under "1HGBH41JXMN109186"; the same holds
    with a token when the backend is reached, has no entry for the VIN and
    gets that answer from the registry. *)
Theorem decode_result_is_cached :
  (forall net X token w r w',
      isValidVinFormat X = true ->
      decodeVin net X token w = (Resolved r, w') ->
      cache w' !! toUpperCase X = Some r)
  /\ (forall net results w,
        registry net = registry_json (Some results) ->
        cache w !! Scenario.honda = None ->
        findResult results "Model Year" = "2010" ->
        findResult results "Make" = "Honda" ->
        findResult results "Model" = "Civic" ->
        exists r w',
          decodeVin net Scenario.honda None w = (Resolved r, w')
          /\ vin r = Scenario.honda /\ valid r = true
          /\ year r = "2010" /\ make r = "Honda" /\ model r = "Civic"
          /\ cache w' !! Scenario.honda = Some r)
  /\ (forall net token results w,
        truthy token = true ->
        link_up net = true -> authorized net = true ->
        backend_registry net = registry_json (Some results) ->
        cache w !! Scenario.honda = None ->
        kv w !! Server.vehicle_key Scenario.honda = None ->
        findResult results "Model Year" = "2010" ->
        findResult results "Make" = "Honda" ->
        findResult results "Model" = "Civic" ->
        exists r w',
          decodeVin net Scenario.honda (Some token) w = (Resolved r, w')
          /\ vin r = Scenario.honda /\ valid r = true
          /\ year r = "2010" /\ make r = "Honda" /\ model r = "Civic"
          /\ cache w' !! Scenario.honda = Some r).
Proof.
  split; [|split].
  - intros net X token w r w' Hv Hd.
    destruct (cache w !! toUpperCase X) as [c|] eqn:Hc.
    { rewrite (decodeVin_hit _ _ _ _ c) in Hd by assumption.
      injection Hd as <- <-. assumption. }
    destruct (truthy_opt token) eqn:Ht.
    + destruct token as [t|]; [|discriminate]. simpl in Ht.
      rewrite decodeVin_miss_token in Hd by assumption.
      unfold backendCall, directNhtsaCall in Hd.
      destruct (link_up net); simpl in Hd.
      * destruct (Server.decode_vin _ _ _ _ _) as [[v [|]|m st] kv'];
          simpl in Hd; destruct (registry net); simpl in Hd;
          try discriminate; injection Hd as <- <-; simpl;
          apply lookup_insert_eq.
      * destruct (registry net); simpl in Hd; try discriminate.
        injection Hd as <- <-. simpl. apply lookup_insert_eq.
    + rewrite decodeVin_miss_anonymous in Hd by assumption.
      unfold directNhtsaCall in Hd.
      destruct (registry net); simpl in Hd; injection Hd as <- <-; simpl;
        apply lookup_insert_eq.
  - intros net results w Hreg Hc Hy Hmk Hmd.
    assert (Hv : isValidVinFormat Scenario.honda = true) by reflexivity.
    assert (Hu : toUpperCase Scenario.honda = Scenario.honda) by reflexivity.
    eexists _, _. split.
    + rewrite decodeVin_miss_anonymous; rewrite ?Hu; try reflexivity;
        try assumption.
      unfold directNhtsaCall. rewrite Hreg. simpl. reflexivity.
    + simpl. rewrite Hy, Hmk, Hmd. simpl.
      repeat split. apply lookup_insert_eq.
  - intros net token results w Ht Hl Ha Hreg Hc Hkv Hy Hmk Hmd.
    assert (Hv : isValidVinFormat Scenario.honda = true) by reflexivity.
    assert (Hu : toUpperCase Scenario.honda = Scenario.honda) by reflexivity.
    eexists _, _. split.
    + rewrite decodeVin_miss_token; rewrite ?Hu; try reflexivity;
        try assumption.
      unfold backendCall. rewrite Hl. simpl negb. cbv iota.
      unfold Server.decode_vin. rewrite Ha.
      change (Regex.vinPattern_test (toUpperCase Scenario.honda)) with true.
      change (truthy Scenario.honda) with true.
      simpl negb. cbv iota. rewrite Hu. simpl kv. rewrite Hkv, Hreg.
      simpl. reflexivity.
    + simpl. rewrite Hy, Hmk, Hmd. simpl.
      repeat split. apply lookup_insert_eq.
Qed.

(** C10.  In every reachable world each key of the cache matches the VIN
    pattern: it has 17 characters, is its own upper-casing and passes
    [isValidVinFormat].  An input that fails the format check leaves the
    world, hence the cache, untouched. *)
Theorem cache_keys_are_valid_vins :
  (forall w k,
      reachable w -> is_Some (cache w !! k) ->
      Regex.vinPattern_test k = true /\ toUpperCase k = k
      /\ isValidVinFormat k = true /\ String.length k = 17)
  /\ (forall net X token w,
        isValidVinFormat X = false -> snd (decodeVin net X token w) = w).
Proof.
  split.
  - intros w k Hw [r Hr].
    pose proof (cache_keys w (reachable_sound w Hw) k r Hr) as Hk.
    unfold key_ok in Hk.
    pose proof (JSFacts.toUpperCase_vinPattern k Hk) as Hu.
    repeat split; try assumption.
    + unfold isValidVinFormat. rewrite Hu. exact Hk.
    + apply (RegexFacts.exactly_length _ _ _ Hk).
  - intros net X token w Hv. rewrite decodeVin_invalid by assumption.
    reflexivity.
Qed.

Lemma cache_hit_avoids_network_witness :
  valid (failure_record Scenario.honda "Failed to decode VIN" None) = false
  /\ (decodeVin Scenario.online Scenario.honda (Some "token")
        Scenario.after_failure
      = (Resolved (failure_record Scenario.honda "Failed to decode VIN" None),
         Scenario.after_failure)
      /\ calls (snd (decodeVin Scenario.online Scenario.honda (Some "token")
                       Scenario.after_failure))
         = calls Scenario.after_failure).
Proof.
  split; [reflexivity|].
  apply cache_hit_avoids_network; vm_compute; reflexivity.
Defined.

Lemma fallback_order_witness :
  calls (snd (decodeVin Scenario.backend_down Scenario.honda (Some "token")
                initial))
  = calls initial ++ [call_backend (toUpperCase Scenario.honda) "token";
                      call_registry (toUpperCase Scenario.honda)]
  /\ (fst (decodeVin Scenario.backend_down Scenario.honda (Some "token")
             initial)
      = Resolved (extract (toUpperCase Scenario.honda)
                    (default [] (Some Scenario.civic)) (clock initial)
                    "Vehicle information not found")
      /\ cache (snd (decodeVin Scenario.backend_down Scenario.honda
                       (Some "token") initial)) !! toUpperCase Scenario.honda
         = Some (extract (toUpperCase Scenario.honda)
                   (default [] (Some Scenario.civic)) (clock initial)
                   "Vehicle information not found"))
  /\ make (extract (toUpperCase Scenario.honda)
             (default [] (Some Scenario.civic)) (clock initial)
             "Vehicle information not found") = "Honda"
  /\ fst (decodeVin Scenario.offline Scenario.honda (Some "token") initial)
     = Rejected registry_failed
  /\ calls (snd (decodeVin Scenario.online Scenario.honda None initial))
     = calls initial ++ [call_registry (toUpperCase Scenario.honda)].
Proof.
  destruct (proj1 (fallback_order Scenario.backend_down Scenario.honda
                     initial) "token" eq_refl eq_refl eq_refl
              (or_introl eq_refl)) as (H1 & H2 & _).
  destruct (proj1 (fallback_order Scenario.offline Scenario.honda initial)
              "token" eq_refl eq_refl eq_refl (or_introl eq_refl))
    as (_ & _ & H3).
  split; [exact H1|]. split; [exact (H2 (Some Scenario.civic) eq_refl)|].
  split; [reflexivity|]. split.
  - apply H3. intros R. discriminate.
  - apply (proj2 (fallback_order Scenario.online Scenario.honda initial) None);
      reflexivity.
Defined.

Lemma validity_invariant_witness :
  fst (decodeVin Scenario.online Scenario.honda None initial)
  = Resolved (extract Scenario.honda Scenario.civic 0
                "Vehicle information not found")
  /\ (valid (extract Scenario.honda Scenario.civic 0
               "Vehicle information not found") = true
      <-> year (extract Scenario.honda Scenario.civic 0
                  "Vehicle information not found") <> ""
          /\ make (extract Scenario.honda Scenario.civic 0
                     "Vehicle information not found") <> ""
          /\ model (extract Scenario.honda Scenario.civic 0
                      "Vehicle information not found") <> "").
Proof.
  split; [reflexivity|].
  apply (validity_invariant Scenario.online Scenario.honda None initial);
    [apply reach_initial|reflexivity].
Defined.

Lemma decode_result_is_cached_witness :
  cache Scenario.after_success !! toUpperCase Scenario.honda
  = Some (extract Scenario.honda Scenario.civic 0
            "Vehicle information not found")
  /\ exists r w',
      decodeVin Scenario.online Scenario.honda None initial = (Resolved r, w')
      /\ vin r = Scenario.honda /\ valid r = true
      /\ year r = "2010" /\ make r = "Honda" /\ model r = "Civic"
      /\ cache w' !! Scenario.honda = Some r.
Proof.
  split.
  - apply (proj1 decode_result_is_cached Scenario.online Scenario.honda None
             initial); reflexivity.
  - apply (proj1 (proj2 decode_result_is_cached) Scenario.online
             Scenario.civic initial); reflexivity.
Defined.

Lemma cache_keys_are_valid_vins_witness :
  is_Some (cache Scenario.after_success !! Scenario.honda)
  /\ (Regex.vinPattern_test Scenario.honda = true
      /\ toUpperCase Scenario.honda = Scenario.honda
      /\ isValidVinFormat Scenario.honda = true
      /\ String.length Scenario.honda = 17)
  /\ snd (decodeVin Scenario.online "SHORT123" None initial) = initial.
Proof.
  assert (H : is_Some (cache Scenario.after_success !! Scenario.honda))
    by (eexists; reflexivity).
  split; [exact H|]. split.
  - apply (proj1 cache_keys_are_valid_vins Scenario.after_success);
      [apply reach_decode, reach_initial|exact H].
  - apply (proj2 cache_keys_are_valid_vins); reflexivity.
Defined.

End DecodeClaims.

(** ** The decode service: retention of failure records *)

Module Retention.

Import JS VinService Decode DecodeFacts.

Local Open Scope list_scope.
Local Open Scope Z_scope.

Lemma lookup_fired_other ts (c : gmap string VehicleInfo) k :
  Forall (fun t => key t <> k) ts -> foldr fire c ts !! k = c !! k.
Proof.
  induction 1 as [|t ts Ht _ IH]; simpl; [reflexivity|].
  unfold fire at 1. rewrite lookup_delete_ne by assumption. exact IH.
Qed.

Lemma lookup_fired ts (c : gmap string VehicleInfo) k :
  Exists (fun t => key t = k) ts -> foldr fire c ts !! k = None.
Proof.
  induction 1 as [t ts Ht|t ts _ IH]; simpl; unfold fire at 1.
  - rewrite Ht. apply lookup_delete_eq.
  - destruct (decide (key t = k)) as [->|Hne].
    + apply lookup_delete_eq.
    + rewrite lookup_delete_ne by assumption. exact IH.
Qed.

(** An entry survives as long as none of its timers has come due. *)
Lemma advance_keeps dt w k :
  Forall (fun t => key t = k -> clock w + Z.max 0 dt < due t) (timers w) ->
  cache (advance dt w) !! k = cache w !! k.
Proof.
  intros H. simpl. apply lookup_fired_other.
  apply Forall_forall. intros t Ht.
  apply list_elem_of_filter in Ht as [Hdue Hin].
  rewrite Forall_forall in H. specialize (H t Hin).
  unfold is_due in Hdue. intros Hk. specialize (H Hk). lia.
Qed.

(** An entry is gone once one of its timers has come due. *)
Lemma advance_expires dt w k :
  Exists (fun t => key t = k /\ due t <= clock w + Z.max 0 dt) (timers w) ->
  cache (advance dt w) !! k = None.
Proof.
  intros H. simpl. apply lookup_fired.
  apply Exists_exists in H as (t & Hin & Hk & Hdue).
  apply Exists_exists. exists t. split; [|assumption].
  apply list_elem_of_filter. split; [|assumption].
  unfold is_due. lia.
Qed.

(** A cache miss on a valid VIN always leads to a network call. *)
Lemma decodeVin_miss_calls net X token w :
  isValidVinFormat X = true ->
  cache w !! toUpperCase X = None ->
  exists c l, calls (snd (decodeVin net X token w)) = calls w ++ c :: l.
Proof.
  intros Hv Hc. destruct (truthy_opt token) eqn:Ht.
  - destruct token as [t|]; [|discriminate]. simpl in Ht.
    rewrite decodeVin_miss_token by assumption.
    pose proof (DecodeClaims.backendCall_calls net (toUpperCase X) t w) as Hl.
    destruct (backendCall net (toUpperCase X) t w) as [[r|e] w1]; simpl in *.
    + eauto.
    + rewrite DecodeClaims.directNhtsaCall_calls, Hl, <- app_assoc. eauto.
  - rewrite decodeVin_miss_anonymous by assumption.
    pose proof (DecodeClaims.directNhtsaCall_calls net (toUpperCase X) w) as Hl.
    destruct (directNhtsaCall net (toUpperCase X) w) as [[r|e] w1];
      simpl in *; eauto.
Qed.

(** The two ways a decode without a token ends on a cache miss. *)
Lemma decodeVin_anonymous_failed net X token w :
  isValidVinFormat X = true ->
  cache w !! toUpperCase X = None ->
  truthy_opt token = false ->
  (forall R, registry net <> registry_json R) ->
  decodeVin net X token w
  = (Resolved (failure_record (toUpperCase X) "Failed to decode VIN" None),
     cache_set (toUpperCase X)
       (failure_record (toUpperCase X) "Failed to decode VIN" None)
       (setTimeout_delete (toUpperCase X) five_minutes
          (record_call (call_registry (toUpperCase X)) w))).
Proof.
  intros Hv Hc Ht Hfail. rewrite decodeVin_miss_anonymous by assumption.
  unfold directNhtsaCall.
  destruct (registry net) as [| | |R]; try reflexivity.
  now destruct (Hfail R).
Qed.

Lemma decodeVin_anonymous_answered net X token w R :
  isValidVinFormat X = true ->
  cache w !! toUpperCase X = None ->
  truthy_opt token = false ->
  registry net = registry_json R ->
  decodeVin net X token w
  = (Resolved (extract (toUpperCase X) (default [] R) (clock w)
                 "Vehicle information not found"),
     cache_set (toUpperCase X)
       (extract (toUpperCase X) (default [] R) (clock w)
          "Vehicle information not found")
       (record_call (call_registry (toUpperCase X)) w)).
Proof.
  intros Hv Hc Ht HR. rewrite decodeVin_miss_anonymous by assumption.
  unfold directNhtsaCall. rewrite HR. reflexivity.
Qed.

(** C6, as the code has it.  Take a valid VIN that misses the cache, no
    token, and no older timer pending for it.  If the registry call fails,
    [decodeVin] caches the failure record "Failed to decode VIN"
    ([valid = false]) with a five-minute timer: for less than five minutes
    the cache returns that record and [decodeVin] resolves to it without
    touching the world; from five minutes on the entry is absent and a
    decode of the same VIN makes a network call again.  If the registry
    answers, the record built from the answer, valid or not, is cached
    with no timer and is still returned after any lapse of time. *)
Theorem failure_record_expiry net X token w :
  isValidVinFormat X = true ->
  cache w !! toUpperCase X = None ->
  truthy_opt token = false ->
  Forall (fun t => key t <> toUpperCase X) (timers w) ->
  ((forall R, registry net <> registry_json R) ->
   fst (decodeVin net X token w)
   = Resolved (failure_record (toUpperCase X) "Failed to decode VIN" None)
   /\ (forall dt net' token',
         dt < five_minutes ->
         cache (advance dt (snd (decodeVin net X token w))) !! toUpperCase X
         = Some (failure_record (toUpperCase X) "Failed to decode VIN" None)
         /\ decodeVin net' X token' (advance dt (snd (decodeVin net X token w)))
            = (Resolved
                 (failure_record (toUpperCase X) "Failed to decode VIN" None),
               advance dt (snd (decodeVin net X token w))))
   /\ (forall dt net' token',
         five_minutes <= dt ->
         cache (advance dt (snd (decodeVin net X token w))) !! toUpperCase X
         = None
         /\ exists c l,
             calls (snd (decodeVin net' X token'
                           (advance dt (snd (decodeVin net X token w)))))
             = calls (snd (decodeVin net X token w)) ++ c :: l))
  /\ (forall R,
        registry net = registry_json R ->
        exists r,
          fst (decodeVin net X token w) = Resolved r
          /\ forall dt,
              cache (advance dt (snd (decodeVin net X token w)))
                !! toUpperCase X = Some r).
Proof.
  intros Hv Hc Ht Htimers. split.
  - intros Hfail.
    rewrite (decodeVin_anonymous_failed net X token w Hv Hc Ht Hfail).
    simpl fst. simpl snd.
    set (errorInfo := failure_record _ _ _).
    set (w1 := cache_set _ _ _).
    split; [reflexivity|]. split.
    + intros dt net' token' Hdt.
      assert (Hk : cache (advance dt w1) !! toUpperCase X = Some errorInfo).
      { rewrite advance_keeps.
        - subst w1. simpl. apply lookup_insert_eq.
        - subst w1. simpl. constructor.
          + simpl. intros _. unfold five_minutes in *. lia.
          + eapply Forall_impl; [exact Htimers|].
            simpl. intros t Hne Heq. contradiction. }
      split; [exact Hk|]. apply decodeVin_hit; assumption.
    + intros dt net' token' Hdt.
      assert (Hk : cache (advance dt w1) !! toUpperCase X = None).
      { apply advance_expires. subst w1. simpl.
        apply Exists_cons_hd. simpl. split; [reflexivity|lia]. }
      split; [exact Hk|].
      destruct (decodeVin_miss_calls net' X token' (advance dt w1) Hv Hk)
        as (c & l & Hcalls).
      exists c, l. rewrite Hcalls. reflexivity.
  - intros R HR.
    rewrite (decodeVin_anonymous_answered net X token w R Hv Hc Ht HR).
    simpl fst. simpl snd. eexists. split; [reflexivity|].
    intros dt. rewrite advance_keeps.
    + simpl. apply lookup_insert_eq.
    + simpl. eapply Forall_impl; [exact Htimers|].
      simpl. intros t Hne Heq. contradiction.
Qed.

Lemma failure_record_expiry_witness :
  (cache (advance 299999 Scenario.after_failure) !! toUpperCase Scenario.honda
   = Some (failure_record (toUpperCase Scenario.honda)
             "Failed to decode VIN" None)
   /\ cache (advance 300000 Scenario.after_failure)
        !! toUpperCase Scenario.honda = None)
  /\ exists r,
      fst (decodeVin Scenario.unknown Scenario.honda None initial) = Resolved r
      /\ forall dt,
          cache (advance dt Scenario.after_not_found)
            !! toUpperCase Scenario.honda = Some r.
Proof.
  split.
  - destruct (failure_record_expiry Scenario.offline Scenario.honda None
                initial eq_refl eq_refl eq_refl (List.Forall_nil _))
      as [H _].
    destruct H as (_ & Hkeep & Hgone); [intros R; discriminate|].
    split.
    + apply (Hkeep 299999 Scenario.offline None). reflexivity.
    + apply (Hgone 300000 Scenario.offline None). discriminate.
  - apply (proj2 (failure_record_expiry Scenario.unknown Scenario.honda None
                    initial eq_refl eq_refl eq_refl (List.Forall_nil _))
             (Some [])).
    reflexivity.
Defined.

(** C6 as stated fails.  The registry answers at time 0 without data for
    "1HGBH41JXMN109186": the record cached is a failure record
    ([valid = false], "Vehicle information not found").  No lapse of time
    removes it; one day later, far beyond five or thirty minutes, the cache
    still returns it and [decodeVin] resolves to it without any network
    call, although the network would now answer. *)
Lemma not_found_record_never_expires :
  exists r,
    cache Scenario.after_not_found !! Scenario.honda = Some r
    /\ valid r = false
    /\ error r = Some "Vehicle information not found"
    /\ (forall dt,
          cache (advance dt Scenario.after_not_found) !! Scenario.honda
          = Some r)
    /\ decodeVin Scenario.online Scenario.honda None
         (advance Scenario.one_day Scenario.after_not_found)
       = (Resolved r, advance Scenario.one_day Scenario.after_not_found).
Proof.
  eexists. split; [reflexivity|]. split; [reflexivity|].
  split; [reflexivity|]. split.
  - intros dt. rewrite advance_keeps; [reflexivity|]. constructor.
  - apply decodeVin_hit; reflexivity.
Qed.

End Retention.

(** ** The scanner: what the VIN heuristic emits *)

Module DetectionFacts.

Import JS Scanner.

Lemma vinPrefix_length (i : Z) :
  (0 <= i < 5)%Z ->
  String.length (nth (Z.to_nat i) vinPrefixes "undefined") = 9.
Proof.
  intros Hi.
  assert (Hn : (Z.to_nat i < 5)%nat) by lia.
  destruct (Z.to_nat i) as [|[|[|[|[|n]]]]]; try reflexivity. lia.
Qed.

(** Nine characters of prefix and six digits. *)
Lemma mock_vin_length (i suffix : Z) :
  (0 <= i < 5)%Z -> (100000 <= suffix < 1000000)%Z ->
  String.length (nth (Z.to_nat i) vinPrefixes "undefined"
                 ++ Number_toString suffix) = 15.
Proof.
  intros Hi Hs. rewrite JSFacts.length_append, vinPrefix_length by assumption.
  rewrite (JSFacts.Number_toString_length 5); [reflexivity|].
  change (10 ^ Z.of_nat 5)%Z with 100000%Z.
  change (10 ^ Z.of_nat 6)%Z with 1000000%Z. lia.
Qed.

Lemma detectVinPatterns_length canvas u payload :
  detectVinPatterns canvas u = Some payload -> String.length payload = 15.
Proof.
  unfold detectVinPatterns.
  destruct (context2d canvas) as [imageData|]; [|discriminate].
  destruct (detectTextRegions imageData); [|discriminate].
  intros [= <-]. apply mock_vin_length.
  - apply JSFacts.random_floor_range. reflexivity.
  - pose proof (JSFacts.random_floor_range (u_suffix u) 900000 eq_refl). lia.
Qed.

Lemma detectBarcodePatterns_length canvas u payload :
  detectBarcodePatterns canvas u = Some (Some payload) ->
  String.length payload = 13.
Proof.
  unfold detectBarcodePatterns.
  destruct (context2d canvas) as [imageData|]; [|discriminate].
  destruct ((width imageData <=? 0)%Z || (height imageData <=? 0)%Z);
    [discriminate|].
  unfold RowScan.detectBarcodePatterns.
  destruct (RowScan.verticalLines_of _ _) as [n|]; [|discriminate].
  destruct (5 <=? n)%Z; [|discriminate].
  intros [= <-].
  rewrite (JSFacts.Number_toString_length 12); [reflexivity|].
  pose proof (JSFacts.random_floor_range (u_barcode u) 9000000000000 eq_refl).
  change (10 ^ Z.of_nat 12)%Z with 1000000000000%Z.
  change (10 ^ Z.of_nat 13)%Z with 10000000000000%Z. lia.
Qed.

(** The brightness comparison is the one of doubles: 194/3 and 44/3 differ
    by more than 50 once rounded, 195/3 and 45/3 do not. *)
Example edge_rounding :
  is_edge {| width := 3; height := 1;
             pixels := [194; 0; 0; 0; 44; 0; 0; 0; 194; 0; 0; 0]%Z |} 0 1
  = true
  /\ is_edge {| width := 3; height := 1;
                pixels := [195; 0; 0; 0; 45; 0; 0; 0; 195; 0; 0; 0]%Z |} 0 1
     = false.
Proof. split; vm_compute; reflexivity. Qed.

Lemma VIN_PATTERN_test_length s :
  VIN_PATTERN_test s = true -> String.length s = 17.
Proof. apply RegexFacts.exactly_length. Qed.

(** C9 (the code departs from it).  Whenever [detectTextRegions] fires,
    [detectVinPatterns] returns a payload, which [detectTextInImage] tags
    [vin]; the payload is a nine-character prefix followed by six digits:
    15 characters, never 17.  It fails [VIN_PATTERN], so
    [handleScanResult] drops it and [onScan] is not called. *)
Theorem detectVinPatterns_payload canvas u imageData :
  context2d canvas = Some imageData ->
  detectTextRegions imageData = true ->
  exists payload,
    detectVinPatterns canvas u = Some payload
    /\ String.length payload = 15
    /\ VIN_PATTERN_test payload = false
    /\ isValid {| type := vin; data := payload |} = false
    /\ forall st,
        scanned (handleScanResult {| type := vin; data := payload |} st)
        = scanned st.
Proof.
  intros Hctx Hfire.
  destruct (detectVinPatterns canvas u) as [payload|] eqn:E.
  2:{ unfold detectVinPatterns in E. rewrite Hctx, Hfire in E. discriminate. }
  exists payload. split; [reflexivity|].
  pose proof (detectVinPatterns_length _ _ _ E) as Hlen.
  assert (Hbad : VIN_PATTERN_test payload = false).
  { destruct (VIN_PATTERN_test payload) eqn:Ht; [|reflexivity].
    apply VIN_PATTERN_test_length in Ht. lia. }
  repeat split; try assumption.
  intros st. unfold handleScanResult, isValid. simpl. rewrite Hbad.
  reflexivity.
Qed.

Lemma detectVinPatterns_payload_witness :
  detectTextRegions Scenario.striped = true
  /\ detectVinPatterns Scenario.text_canvas Scenario.draws0
     = Some "1HGBH41JX100000"
  /\ exists payload,
      detectVinPatterns Scenario.text_canvas Scenario.draws0 = Some payload
      /\ String.length payload = 15
      /\ VIN_PATTERN_test payload = false
      /\ isValid {| type := vin; data := payload |} = false
      /\ forall st,
          scanned (handleScanResult {| type := vin; data := payload |} st)
          = scanned st.
Proof.
  assert (H : detectTextRegions Scenario.striped = true)
    by (vm_compute; reflexivity).
  split; [exact H|]. split; [vm_compute; reflexivity|].
  apply (detectVinPatterns_payload Scenario.text_canvas Scenario.draws0
           Scenario.striped eq_refl H).
Defined.

End DetectionFacts.

(** ** The scanner: dispatch of candidates *)

Module DispatchFacts.

Import JS Scanner.

Local Open Scope list_scope.

Definition forwarded (e : Event) : bool :=
  match fate e with Forwarded => true | _ => false end.

(** The shapes of the payloads the three methods come up with. *)
Definition producible (c : ScanResult) : Prop :=
  match type c with
  | barcode => String.length (data c) = 13
  | vin => String.length (data c) = 15 \/ String.length (data c) = 17
  end.

Definition event_ok (e : Event) : Prop :=
  producible (candidate e)
  /\ (fate e = Forwarded -> isValid (candidate e) = true)
  /\ (fate e = Dropped -> isValid (candidate e) = false).

(** A property of every pair of neighbours of a trace. *)
Fixpoint adjacent (P : Event -> Event -> Prop) (tr : list Event) : Prop :=
  match tr with
  | e1 :: rest =>
      match rest with
      | e2 :: _ => P e1 e2
      | [] => True
      end /\ adjacent P rest
  | [] => True
  end.

Definition repeat_not_forwarded (e1 e2 : Event) : Prop :=
  data (candidate e2) = data (candidate e1) -> fate e2 <> Forwarded.

Definition repeat_ignored (e1 e2 : Event) : Prop :=
  data (candidate e2) = data (candidate e1) -> fate e2 = Ignored.

Lemma adjacent_snoc P tr e :
  adjacent P tr ->
  (forall e0, last tr = Some e0 -> P e0 e) ->
  adjacent P (tr ++ [e]).
Proof.
  induction tr as [|e1 [|e2 tr] IH]; simpl; intros Ha Hl.
  - auto.
  - split; [|auto]. apply Hl. reflexivity.
  - destruct Ha as [H12 Ha]. split; [assumption|].
    apply IH; [assumption|]. intros e0 He0. apply Hl. exact He0.
Qed.

Lemma adjacent_at P tr pre e1 e2 post :
  adjacent P tr -> tr = pre ++ e1 :: e2 :: post -> P e1 e2.
Proof.
  revert tr. induction pre as [|x pre IH]; intros tr Ha ->; simpl in Ha.
  - tauto.
  - destruct Ha as [_ Ha]. exact (IH _ Ha eq_refl).
Qed.

(** What holds all along of a session in which [startScanning] ran
    once. *)
Record Inv (b : Binding) (st : Session) : Prop := {
  inv_scanned :
    scanned st = map candidate (List.filter forwarded (trace st));
  inv_running :
    scanning st = true -> Forall (fun e => fate e <> Forwarded) (trace st);
  inv_stopped :
    scanning st = false ->
    exists pre e,
      trace st = pre ++ [e] /\ fate e = Forwarded
      /\ Forall (fun e => fate e <> Forwarded) pre;
  inv_intervals :
    scanIntervalRef st = Some 1%nat
    /\ intervals st = if scanning st then [1%nat] else [];
  inv_events : Forall event_ok (trace st);
  inv_adjacent : adjacent repeat_not_forwarded (trace st);
  inv_binding :
    match b with
    | live =>
        adjacent repeat_ignored (trace st)
        /\ forall e, last (trace st) = Some e ->
                     lastScan st = data (candidate e)
    | captured s =>
        Forall (fun e => fate e = Ignored -> data (candidate e) = s)
               (trace st)
    end
}.

Lemma Inv_opened b : Inv b opened.
Proof.
  split; simpl; auto; try discriminate.
  destruct b; [split; [exact I|discriminate]|constructor].
Qed.

(** A payload cannot be valid under one type and invalid under the
    other, for the shapes that occur. *)
Lemma valid_invalid_clash c1 c2 :
  producible c1 -> producible c2 -> data c1 = data c2 ->
  isValid c1 = true -> isValid c2 = false -> False.
Proof.
  unfold producible, isValid. destruct c1 as [t1 d1], c2 as [t2 d2]. simpl.
  intros H1 H2 <- V1 V2. destruct t1, t2; try congruence; lia.
Qed.

Lemma filter_forwarded_none tr :
  Forall (fun e => fate e <> Forwarded) tr -> List.filter forwarded tr = [].
Proof.
  induction 1 as [|e tr He _ IH]; simpl; [reflexivity|].
  unfold forwarded at 1. destruct (fate e); try assumption. congruence.
Qed.

(** The candidate equals what the callback sees as [lastScan]. *)
Lemma Inv_ignored b result st :
  Inv b st -> scanning st = true -> producible result ->
  data result = read b st ->
  Inv b (log {| candidate := result; fate := Ignored |} st).
Proof.
  intros [H1 H2 H3 H7 H4 H5 H6] Hs Hp Hd. split; simpl.
  - rewrite List.filter_app, H1. simpl. rewrite app_nil_r. reflexivity.
  - intros _. apply Forall_app. split; [auto|]. repeat constructor.
    discriminate.
  - congruence.
  - assumption.
  - apply Forall_app. split; [assumption|].
    repeat constructor; simpl; (assumption || discriminate).
  - apply adjacent_snoc; [assumption|]. intros e0 _ _. discriminate.
  - destruct b as [|s]; simpl in *.
    + destruct H6 as [Ha Hl]. split.
      * apply adjacent_snoc; [assumption|]. intros e0 _ _. reflexivity.
      * intros e. rewrite last_snoc. intros [= <-]. simpl. congruence.
    + apply Forall_app. split; [assumption|]. repeat constructor.
      simpl. intros _. assumption.
Qed.

(** The candidate differs from it and is valid: [stopCamera] clears the
    one interval. *)
Lemma Inv_forwarded b result st :
  Inv b st -> scanning st = true -> producible result ->
  data result <> read b st -> isValid result = true ->
  Inv b (onClose (stopCamera (onScan result
           (log {| candidate := result; fate := Forwarded |}
                (setLastScan (data result) st))))).
Proof.
  intros Hi Hs Hp Hd Hv.
  destruct st as [ls sc iv ref nx scd cl tr]. simpl in Hs. subst sc.
  destruct Hi as [H1 H2 H3 [Href Hiv] H4 H5 H6]. simpl in *.
  subst ref iv. specialize (H2 eq_refl).
  split; simpl.
  - rewrite List.filter_app, map_app, H1. reflexivity.
  - discriminate.
  - intros _. eauto.
  - split; reflexivity.
  - apply Forall_app. split; [assumption|].
    repeat constructor; simpl; (assumption || discriminate || auto).
  - apply adjacent_snoc; [assumption|].
    intros e0 He0 Hsame _. simpl in Hsame.
    assert (Hin : e0 ∈ tr) by (apply last_Some_elem_of; assumption).
    rewrite Forall_forall in H2, H4.
    specialize (H2 _ Hin). destruct (H4 _ Hin) as (Hp0 & _ & Hdrop).
    destruct b as [|s]; simpl in *.
    + destruct H6 as [_ Hl]. rewrite (Hl _ He0) in Hd. congruence.
    + rewrite Forall_forall in H6. specialize (H6 _ Hin).
      destruct (fate e0) eqn:F.
      * rewrite H6 in Hsame by reflexivity. congruence.
      * apply (valid_invalid_clash result (candidate e0)); auto.
      * congruence.
  - destruct b as [|s]; simpl in *.
    + destruct H6 as [Ha Hl]. split.
      * apply adjacent_snoc; [assumption|].
        intros e0 He0 Hsame. simpl in Hsame.
        rewrite (Hl _ He0) in Hd. congruence.
      * intros e. rewrite last_snoc. intros [= <-]. reflexivity.
    + apply Forall_app. split; [assumption|]. repeat constructor.
      simpl. discriminate.
Qed.

(** The candidate differs from it and is invalid. *)
Lemma Inv_dropped b result st :
  Inv b st -> scanning st = true -> producible result ->
  data result <> read b st -> isValid result = false ->
  Inv b (log {| candidate := result; fate := Dropped |}
             (setLastScan (data result) st)).
Proof.
  intros [H1 H2 H3 H7 H4 H5 H6] Hs Hp Hd Hv. split; simpl.
  - rewrite List.filter_app, H1. simpl. rewrite app_nil_r. reflexivity.
  - intros _. apply Forall_app. split; [auto|]. repeat constructor.
    discriminate.
  - congruence.
  - assumption.
  - apply Forall_app. split; [assumption|].
    repeat constructor; simpl; (assumption || discriminate || auto).
  - apply adjacent_snoc; [assumption|]. intros e0 _ _. discriminate.
  - destruct b as [|s]; simpl in *.
    + destruct H6 as [Ha Hl]. split.
      * apply adjacent_snoc; [assumption|].
        intros e0 He0 Hsame. simpl in Hsame.
        rewrite (Hl _ He0) in Hd. congruence.
      * intros e. rewrite last_snoc. intros [= <-]. reflexivity.
    + apply Forall_app. split; [assumption|]. repeat constructor.
      simpl. discriminate.
Qed.

Lemma offer_Inv b result st :
  Inv b st -> scanning st = true -> producible result ->
  Inv b (fst (offer (read b st) result st))
  /\ (snd (offer (read b st) result st) = false ->
      scanning (fst (offer (read b st) result st)) = true
      /\ read b (fst (offer (read b st) result st)) = read b st).
Proof.
  intros Hi Hs Hp. unfold offer.
  destruct (String.eqb (data result) (read b st)) eqn:E; simpl.
  - apply String.eqb_eq in E. split.
    + apply Inv_ignored; assumption.
    + intros _. split; [assumption|]. destruct b; reflexivity.
  - apply String.eqb_neq in E. split; [|discriminate].
    unfold handleScanResult. destruct (isValid result) eqn:V.
    + apply Inv_forwarded; assumption.
    + apply Inv_dropped; assumption.
Qed.

Lemma stage_Inv b seen (o : option string) (cond : string -> bool) t st :
  Inv b st -> scanning st = true -> seen = read b st ->
  (forall d, o = Some d -> producible {| type := t; data := d |}) ->
  Inv b (fst match o with
             | Some d =>
                 if cond d then offer seen {| type := t; data := d |} st
                 else (st, false)
             | None => (st, false)
             end)
  /\ (snd match o with
          | Some d =>
              if cond d then offer seen {| type := t; data := d |} st
              else (st, false)
          | None => (st, false)
          end = false ->
      scanning (fst match o with
                    | Some d =>
                        if cond d then offer seen {| type := t; data := d |} st
                        else (st, false)
                    | None => (st, false)
                    end) = true
      /\ read b (fst match o with
                     | Some d =>
                         if cond d then offer seen {| type := t; data := d |} st
                         else (st, false)
                     | None => (st, false)
                     end) = seen).
Proof.
  intros Hi Hs -> Hp.
  destruct o as [d|]; [destruct (cond d)|]; simpl;
    try (split; [assumption|intros _; split; [assumption|reflexivity]]).
  apply offer_Inv; auto.
Qed.

Lemma pick_in {A} (l : list A) (u : Z) (d : A) :
  l <> [] -> In (pick l u d) l.
Proof.
  intros Hl. unfold pick. apply nth_In.
  assert (0 < Z.of_nat (length l))%Z by (destruct l; [congruence|simpl; lia]).
  pose proof (JSFacts.random_floor_range u (Z.of_nat (length l))). lia.
Qed.

Lemma demoResult_producible mode u : producible (demoResult mode u).
Proof.
  unfold demoResult. destruct mode;
    match goal with |- context [pick ?l ?u ?d] =>
      assert (H : In (pick l u d) l) by (apply pick_in; discriminate);
      revert H; generalize (pick l u d)
    end;
    intros r H; simpl in H;
    repeat (destruct H as [<-|H];
            [unfold producible; simpl; auto; fail|]);
    destruct H.
Qed.

Lemma detectTextInImage_Inv mode b canvas u st st' :
  Inv b st -> scanning st = true ->
  detectTextInImage mode b canvas u st = Some st' ->
  Inv b st'.
Proof.
  intros Hi Hs. unfold detectTextInImage.
  destruct (detectBarcodePatterns canvas u) as [found|] eqn:Ef;
    [|discriminate].
  pose proof (stage_Inv b (read b st) found
                (fun d => truthy d && mode_allows mode barcode) barcode st
                Hi Hs eq_refl) as H1.
  cbv beta in H1.
  destruct H1 as [HI1 HR1].
  { intros d ->.
    exact (DetectionFacts.detectBarcodePatterns_length _ _ _ Ef). }
  destruct (match found with
            | Some _ => _ | None => _ end) as [st1 r1].
  simpl in HI1, HR1. destruct r1; [intros [= <-]; assumption|].
  destruct (HR1 eq_refl) as [Hs1 Hread1].
  pose proof (stage_Inv b (read b st) (detectVinPatterns canvas u)
                (fun d => truthy d && mode_allows mode vin) vin st1
                HI1 Hs1 (eq_sym Hread1)) as H2.
  cbv beta in H2.
  destruct H2 as [HI2 HR2].
  { intros d Hd. apply DetectionFacts.detectVinPatterns_length in Hd.
    left. exact Hd. }
  destruct (match detectVinPatterns canvas u with
            | Some _ => _ | None => _ end) as [st2 r2].
  simpl in HI2, HR2. destruct r2; [intros [= <-]; assumption|].
  destruct (HR2 eq_refl) as [Hs2 Hread2].
  destruct (random_below (u_demo u) 2 100); intros [= <-]; [|assumption].
  rewrite <- Hread2.
  apply offer_Inv; auto using demoResult_producible.
Qed.

Lemma scanFrame_Inv mode b f st st' :
  Inv b st -> scanning st = true ->
  scanFrame mode b f st = Some st' -> Inv b st'.
Proof.
  intros Hi Hs. unfold scanFrame.
  destruct (canvas f) as [c|]; [|intros [= <-]; assumption].
  destruct (context2d c) as [imageData|]; [|intros [= <-]; assumption].
  destruct ((width imageData <=? 0)%Z || (height imageData <=? 0)%Z);
    [intros [= <-]; assumption|].
  apply detectTextInImage_Inv; assumption.
Qed.

(** With no interval left no tick changes anything. *)
Lemma run_stopped mode b frames st :
  intervals st = [] -> run mode b frames st = st.
Proof. intros Hs. destruct frames; simpl; [|rewrite Hs]; reflexivity. Qed.

Lemma run_Inv mode b frames st : Inv b st -> Inv b (run mode b frames st).
Proof.
  revert st. induction frames as [|f frames IH]; intros st Hi; simpl.
  - assumption.
  - destruct (intervals st) as [|i rest] eqn:Hiv; [assumption|].
    assert (Hs : scanning st = true).
    { destruct Hi as [_ _ _ [_ H] _ _ _]. rewrite Hiv in H.
      destruct (scanning st); [reflexivity|discriminate]. }
    destruct (scanFrame mode b f st) as [st'|] eqn:E; [|assumption].
    apply IH. exact (scanFrame_Inv _ _ _ _ _ Hi Hs E).
Qed.

(** The one forwarded event of a trace is its last. *)
Lemma forwarded_is_last (pre pre' post : list Event) e e' :
  pre ++ e :: post = pre' ++ [e'] ->
  fate e = Forwarded ->
  Forall (fun x => fate x <> Forwarded) pre' ->
  post = [] /\ e = e' /\ pre = pre'.
Proof.
  intros Heq Hf Hpre.
  destruct post as [|x post _] using rev_ind.
  - apply app_inj_tail in Heq as [-> ->]. auto.
  - exfalso. rewrite app_comm_cons, app_assoc in Heq.
    apply app_inj_tail in Heq as [<- _].
    rewrite Forall_app, Forall_cons in Hpre. tauto.
Qed.

(** X30.  In a session in which [startScanning] has run once, whatever
    the frames and draws, in every mode and under either reading of
    [lastScan] in the interval callback: a candidate whose payload equals
    that of the candidate just before it is not forwarded (with the state
    cell read live it is ignored by the comparison with [lastScan]); a
    candidate that fails the pattern of its type is not forwarded; and a
    forwarded candidate is valid, is the last candidate of the session
    and the only one handed to [onScan]: [stopCamera] has cleared the
    interval, no interval is left, and further ticks change nothing. *)
Theorem one_interval_contract mode b frames :
  (forall pre e1 e2 post,
      trace (run mode b frames opened) = pre ++ e1 :: e2 :: post ->
      data (candidate e2) = data (candidate e1) ->
      fate e2 <> Forwarded /\ (b = live -> fate e2 = Ignored))
  /\ (forall e,
        In e (trace (run mode b frames opened)) ->
        isValid (candidate e) = false -> fate e <> Forwarded)
  /\ (forall pre e post,
        trace (run mode b frames opened) = pre ++ e :: post ->
        fate e = Forwarded ->
        post = [] /\ isValid (candidate e) = true
        /\ scanning (run mode b frames opened) = false
        /\ intervals (run mode b frames opened) = []
        /\ scanned (run mode b frames opened) = [candidate e]
        /\ forall more,
            run mode b more (run mode b frames opened)
            = run mode b frames opened)
  /\ scanned (run mode b frames opened)
     = map candidate (List.filter forwarded (trace (run mode b frames opened)))
  /\ (length (scanned (run mode b frames opened)) <= 1)%nat.
Proof.
  pose proof (run_Inv mode b frames opened (Inv_opened b)) as Hi.
  set (st := run mode b frames opened) in *.
  destruct Hi as [H1 H2 H3 [Href Hiv] H4 H5 H6].
  split; [|split; [|split; [|split]]].
  - intros pre e1 e2 post Htr Hsame. split.
    + exact (adjacent_at _ _ _ _ _ _ H5 Htr Hsame).
    + intros ->. destruct H6 as [Ha _].
      exact (adjacent_at _ _ _ _ _ _ Ha Htr Hsame).
  - intros e Hin Hbad Hf. rewrite List.Forall_forall in H4.
    destruct (H4 e Hin) as (_ & Hv & _). rewrite (Hv Hf) in Hbad.
    discriminate.
  - intros pre e post Htr Hf.
    destruct (scanning st) eqn:Hs.
    { specialize (H2 eq_refl). rewrite Htr in H2.
      rewrite Forall_app, Forall_cons in H2. tauto. }
    destruct (H3 eq_refl) as (pre' & e' & Htr' & Hf' & Hpre').
    rewrite Htr' in Htr. symmetry in Htr.
    destruct (forwarded_is_last _ _ _ _ _ Htr Hf Hpre') as (-> & -> & ->).
    split; [reflexivity|]. split.
    + rewrite List.Forall_forall in H4.
      apply (H4 e'); [|assumption]. rewrite Htr'. apply in_or_app.
      right. left. reflexivity.
    + split; [reflexivity|]. split; [exact Hiv|]. split.
      * rewrite H1, Htr', List.filter_app, filter_forwarded_none by assumption.
        simpl. unfold forwarded. rewrite Hf'. reflexivity.
      * intros more. apply run_stopped. assumption.
  - exact H1.
  - rewrite H1, length_map. destruct (scanning st) eqn:Hs.
    + rewrite filter_forwarded_none by auto. simpl. lia.
    + destruct (H3 eq_refl) as (pre' & e' & Htr' & Hf' & Hpre').
      rewrite Htr', List.filter_app, filter_forwarded_none by assumption.
      simpl. destruct (forwarded e'); simpl; lia.
Qed.

Lemma one_interval_contract_witness :
  trace (run mode_auto live Scenario.session_frames opened)
  = [ {| candidate := Scenario.mock_vin; fate := Dropped |};
      {| candidate := Scenario.mock_vin; fate := Ignored |};
      {| candidate := Scenario.demo_barcode; fate := Forwarded |} ]
  /\ (fate {| candidate := Scenario.mock_vin; fate := Ignored |} <> Forwarded
      /\ (live = live ->
          fate {| candidate := Scenario.mock_vin; fate := Ignored |} = Ignored))
  /\ scanned (run mode_auto live Scenario.session_frames opened)
     = [Scenario.demo_barcode]
  /\ intervals (run mode_auto live Scenario.session_frames opened) = []
  /\ trace (run mode_auto (captured "") Scenario.session_frames opened)
     = [ {| candidate := Scenario.mock_vin; fate := Dropped |};
         {| candidate := Scenario.mock_vin; fate := Dropped |};
         {| candidate := Scenario.demo_barcode; fate := Forwarded |} ].
Proof.
  assert (Htr : trace (run mode_auto live Scenario.session_frames opened)
          = [ {| candidate := Scenario.mock_vin; fate := Dropped |} ]
            ++ {| candidate := Scenario.mock_vin; fate := Ignored |}
            :: {| candidate := Scenario.demo_barcode; fate := Forwarded |}
            :: [])
    by (vm_compute; reflexivity).
  split; [exact Htr|]. split.
  - apply (proj1 (one_interval_contract mode_auto live Scenario.session_frames)
             [] {| candidate := Scenario.mock_vin; fate := Dropped |}
             {| candidate := Scenario.mock_vin; fate := Ignored |}
             [ {| candidate := Scenario.demo_barcode; fate := Forwarded |} ]);
      [exact Htr|reflexivity].
  - repeat split; vm_compute; reflexivity.
Defined.

(** C8 (the code departs from it).  [startScanning] overwrites
    [scanIntervalRef] without clearing the interval it held, so after
    [retryCamera] two intervals are set and [stopCamera] clears the newer
    one only.  With Method 3 firing on two ticks in mode [auto], the
    video and the canvas staying mounted: the first tick forwards a valid
    barcode and calls [stopCamera], interval 1 stays set, and the second
    tick forwards again, the very same payload when the callback reads
    the [lastScan] its closure captured, another valid payload when it
    reads the state cell: [onScan] is called twice in the session. *)
Theorem orphan_interval_forwards_again :
  intervals Scenario.retried = [1; 2]%nat
  /\ scanIntervalRef Scenario.retried = Some 2%nat
  /\ intervals (run mode_auto (captured "") [Scenario.demo_frame]
                  Scenario.retried) = [1%nat]
  /\ trace (run mode_auto (captured "")
              [Scenario.demo_frame; Scenario.demo_frame] Scenario.retried)
     = [ {| candidate := Scenario.demo_barcode; fate := Forwarded |};
         {| candidate := Scenario.demo_barcode; fate := Forwarded |} ]
  /\ scanned (run mode_auto (captured "")
                [Scenario.demo_frame; Scenario.demo_frame] Scenario.retried)
     = [Scenario.demo_barcode; Scenario.demo_barcode]
  /\ scanned (run mode_auto live
                [Scenario.demo_frame; Scenario.other_frame] Scenario.retried)
     = [Scenario.demo_barcode; Scenario.other_barcode]
  /\ closed (run mode_auto live
               [Scenario.demo_frame; Scenario.other_frame] Scenario.retried)
     = 2%nat.
Proof. vm_compute. repeat split; reflexivity. Qed.

End DispatchFacts.

(* ===================================================================== *)
(** * Part III.  Further properties of the code                           *)
(* ===================================================================== *)

Module StringFacts.

Import JS Regex.

Lemma string_app_assoc (a b c : string) : (a ++ b) ++ c = a ++ (b ++ c).
Proof.
  induction a as [|x a IH]; [reflexivity|].
  change (String x ((a ++ b) ++ c) = String x (a ++ b ++ c)).
  now rewrite IH.
Qed.

Lemma toUpperCase_app a b :
  toUpperCase (a ++ b) = toUpperCase a ++ toUpperCase b.
Proof.
  induction a as [|x a IH]; [reflexivity|].
  change (toUpperCase (String x a ++ b))
    with (upper_unit x ++ toUpperCase (a ++ b)).
  change (toUpperCase (String x a)) with (upper_unit x ++ toUpperCase a).
  rewrite IH. symmetry. apply string_app_assoc.
Qed.

Lemma upper_unit_idem c : toUpperCase (upper_unit c) = upper_unit c.
Proof. destruct c as [[] [] [] [] [] [] [] []]; reflexivity. Qed.

(** Upper-casing twice is upper-casing once. *)
Lemma toUpperCase_idem s : toUpperCase (toUpperCase s) = toUpperCase s.
Proof.
  induction s as [|c s IH]; [reflexivity|].
  change (toUpperCase (String c s)) with (upper_unit c ++ toUpperCase s).
  now rewrite toUpperCase_app, upper_unit_idem, IH.
Qed.

Lemma toUpperCase_truthy s : truthy (toUpperCase s) = true -> truthy s = true.
Proof. destruct s; [discriminate|reflexivity]. Qed.

Definition all (cls : ascii -> bool) (s : string) : Prop :=
  Forall (fun c => cls c = true) (list_ascii_of_string s).

Lemma at_most_spec cls extra s :
  at_most cls extra s = true <-> (String.length s <= extra)%nat /\ all cls s.
Proof.
  unfold all. revert extra; induction s as [|c s IH]; intros [|extra]; simpl.
  - split; [intros _; split; [lia|apply List.Forall_nil]|reflexivity].
  - split; [intros _; split; [lia|apply List.Forall_nil]|reflexivity].
  - split; [discriminate|intros [H _]; lia].
  - rewrite andb_true_iff, IH. split.
    + intros [Hc [Hl Hf]]. split; [lia|now constructor].
    + intros [Hl Hf]. inversion Hf; subst. repeat split; auto. lia.
Qed.

Lemma from_to_spec cls lo extra s :
  from_to cls lo extra s = true <->
  (lo <= String.length s <= lo + extra)%nat /\ all cls s.
Proof.
  revert s; induction lo as [|lo IH]; intros s; simpl.
  - rewrite at_most_spec. intuition lia.
  - destruct s as [|c s]; simpl.
    + split; [discriminate|intros [H _]; lia].
    + rewrite andb_true_iff, IH. unfold all. simpl. split.
      * intros [Hc [Hl Hf]]. split; [lia|now constructor].
      * intros [Hl Hf]. inversion Hf; subst. repeat split; auto; lia.
Qed.

Lemma digit_unit_digit d : (0 <= d < 10)%Z -> digit_class (digit_unit d) = true.
Proof.
  intros H.
  assert (d = 0 \/ d = 1 \/ d = 2 \/ d = 3 \/ d = 4 \/ d = 5 \/ d = 6
          \/ d = 7 \/ d = 8 \/ d = 9)%Z as Hd by lia.
  repeat (destruct Hd as [->|Hd]; [reflexivity|]). subst. reflexivity.
Qed.

Lemma digits_into_digits fuel :
  forall n acc, all digit_class acc -> all digit_class (digits_into fuel n acc).
Proof.
  induction fuel as [|fuel IH]; intros n acc Hacc; simpl; [assumption|].
  assert (Hacc' : all digit_class (String (digit_unit (n mod 10)) acc)).
  { unfold all. simpl. constructor; [|assumption].
    apply digit_unit_digit, Z.mod_pos_bound. lia. }
  destruct (n / 10 =? 0)%Z; [assumption|]. apply IH. assumption.
Qed.

(** The rendering of a Number consists of digits. *)
Lemma Number_toString_digits n : all digit_class (Number_toString n).
Proof. apply digits_into_digits. constructor. Qed.

(** X20.  [BARCODE_PATTERN] accepts exactly the strings of 8 to 14
    digits. *)
Theorem barcodePattern_test_spec s :
  barcodePattern_test s = true <->
  (8 <= String.length s <= 14)%nat
  /\ Forall (fun c => between "0" "9" c = true) (list_ascii_of_string s).
Proof. unfold barcodePattern_test. rewrite from_to_spec. reflexivity. Qed.

End StringFacts.

(** ** The decode service: what every record satisfies *)

Module Keyed.

Import JS VinService Decode.

Section Keyed.

(** A property of a record filed under a normalized VIN that both ways of
    building records establish. *)
Variable P : string -> VehicleInfo -> Prop.

Hypothesis P_extract :
  forall v rows now e, truthy e = true -> P v (extract v rows now e).

Hypothesis P_failure :
  forall v e at_, truthy e = true -> P v (failure_record v e at_).

Definition kept (w : World) : Prop :=
  (forall k r, cache w !! k = Some r -> P k r)
  /\ (forall v r, kv w !! Server.vehicle_key v = Some r -> P v r).

Lemma vehicle_key_inj a b : Server.vehicle_key a = Server.vehicle_key b -> a = b.
Proof.
  intros H. cbv [Server.vehicle_key append] in H. congruence.
Qed.

Lemma kept_store_insert (s : gmap string VehicleInfo) v r :
  (forall u x, s !! Server.vehicle_key u = Some x -> P u x) ->
  P v r ->
  forall u x, <[Server.vehicle_key v := r]> s !! Server.vehicle_key u = Some x ->
              P u x.
Proof.
  intros Hs Hr u x. rewrite lookup_insert. case_decide as E.
  - apply vehicle_key_inj in E. subst. intros [= <-]. assumption.
  - apply Hs.
Qed.

Lemma server_kept a v reply now (s : gmap string VehicleInfo) :
  (forall u x, s !! Server.vehicle_key u = Some x -> P u x) ->
  (forall u x, snd (Server.decode_vin a v reply now s)
               !! Server.vehicle_key u = Some x -> P u x)
  /\ (forall r f, fst (Server.decode_vin a v reply now s)
                  = Server.json_vehicle r f -> P (toUpperCase v) r).
Proof.
  intros Hs. unfold Server.decode_vin.
  destruct a; simpl; [|split; [assumption|discriminate]].
  destruct (truthy v); simpl; [|split; [assumption|discriminate]].
  destruct (Regex.vinPattern_test (toUpperCase v)); simpl;
    [|split; [assumption|discriminate]].
  destruct (s !! Server.vehicle_key (toUpperCase v)) as [c|] eqn:Hc; simpl.
  - split; [assumption|]. intros r f [= <- _]. exact (Hs _ _ Hc).
  - destruct reply; simpl;
      (split; [apply kept_store_insert; auto
              |intros r f [= <- _]; auto]).
Qed.

Lemma kept_cache_set k r w : P k r -> kept w -> kept (cache_set k r w).
Proof.
  intros Hr [Hc Hk]. split; simpl; [|assumption].
  intros k' r'. rewrite lookup_insert. case_decide as E.
  - subst. intros [= <-]. assumption.
  - apply Hc.
Qed.

Lemma directNhtsaCall_kept net k w :
  kept w ->
  kept (snd (directNhtsaCall net k w))
  /\ (forall r, fst (directNhtsaCall net k w) = Resolved r -> P k r).
Proof.
  intros Hw. unfold directNhtsaCall.
  destruct (registry net); simpl; try (split; [exact Hw|discriminate]).
  split; [apply kept_cache_set; auto|]. intros r [= <-]. auto.
Qed.

Lemma backendCall_kept net X token w :
  kept w ->
  kept (snd (backendCall net (toUpperCase X) token w))
  /\ (forall r, fst (backendCall net (toUpperCase X) token w) = Resolved r ->
                P (toUpperCase X) r).
Proof.
  intros [Hc Hk]. unfold backendCall.
  destruct (link_up net); simpl; [|split; [split; assumption|discriminate]].
  pose proof (server_kept (authorized net) (toUpperCase X)
                (backend_registry net) (clock w) (kv w) Hk) as [Hkv Hresp].
  rewrite StringFacts.toUpperCase_idem in Hresp.
  destruct (Server.decode_vin _ _ _ _ _) as [response kv'].
  simpl in Hkv, Hresp.
  destruct response as [r failed|m st]; simpl.
  - destruct failed; simpl; [split; [split; assumption|discriminate]|].
    split.
    + apply kept_cache_set; [eauto|split; assumption].
    + intros r' [= <-]. eauto.
  - split; [split; assumption|discriminate].
Qed.

Lemma decodeVin_kept net X token w :
  kept w ->
  kept (snd (decodeVin net X token w))
  /\ (forall r, fst (decodeVin net X token w) = Resolved r ->
                P (toUpperCase X) r).
Proof.
  intros Hw.
  destruct (isValidVinFormat X) eqn:Hv.
  2:{ rewrite DecodeFacts.decodeVin_invalid by assumption. simpl.
      split; [assumption|intros r [= <-]; auto]. }
  destruct (cache w !! toUpperCase X) as [c|] eqn:Hc.
  { rewrite (DecodeFacts.decodeVin_hit _ _ _ _ c) by assumption. simpl.
    split; [assumption|]. intros r [= <-]. exact (proj1 Hw _ _ Hc). }
  destruct (truthy_opt token) eqn:Ht.
  - destruct token as [t|]; [|discriminate]. simpl in Ht.
    rewrite DecodeFacts.decodeVin_miss_token by assumption.
    destruct (backendCall_kept net X t w Hw) as [Hs Hr].
    destruct (backendCall net (toUpperCase X) t w) as [[r|e] w1];
      simpl in *.
    + split; [assumption|]. intros r' [= <-]. auto.
    + apply directNhtsaCall_kept; assumption.
  - rewrite DecodeFacts.decodeVin_miss_anonymous by assumption.
    destruct (directNhtsaCall_kept net (toUpperCase X) w Hw) as [Hs Hr].
    destruct (directNhtsaCall net (toUpperCase X) w) as [[r|e] w1];
      simpl in *.
    + split; [assumption|]. intros r' [= <-]. auto.
    + split.
      * apply kept_cache_set; [auto|]. exact Hs.
      * intros r' [= <-]. auto.
Qed.

Lemma lookup_after_fire ts (c : gmap string VehicleInfo) k r :
  foldr fire c ts !! k = Some r -> c !! k = Some r.
Proof.
  induction ts as [|t ts IH]; simpl; [auto|].
  unfold fire at 1. intros H. apply lookup_delete_Some in H as [_ H]. auto.
Qed.

Lemma reachable_kept w : reachable w -> kept w.
Proof.
  induction 1 as [|net X token w _ IH|w _ IH|dt w _ IH|v reply w _ IH].
  - split; simpl; intros ? ?; rewrite lookup_empty; discriminate.
  - apply decodeVin_kept; assumption.
  - destruct IH as [Hc Hk]. split; simpl; [|assumption].
    intros ? ?; rewrite lookup_empty; discriminate.
  - destruct IH as [Hc Hk]. split; simpl; [|assumption].
    intros k r Hr. apply lookup_after_fire in Hr. auto.
  - destruct IH as [Hc Hk]. split; simpl; [assumption|].
    apply server_kept. assumption.
Qed.

Lemma decodeVin_resolves_kept net X token w r :
  reachable w -> fst (decodeVin net X token w) = Resolved r ->
  P (toUpperCase X) r.
Proof.
  intros Hw. apply decodeVin_kept, reachable_kept, Hw.
Qed.

End Keyed.

End Keyed.

(** ** The decode service: further properties *)

Module DecodeMore.

Import JS VinService Decode DecodeFacts.

Local Open Scope list_scope.
Local Open Scope Z_scope.

(** X1.  [findResult] gives the value of the first row whose [Variable]
    is the name asked for, with null and the empty string both read as
    [''] (later rows with the same name are not looked at); it gives ['']
    when no row has that name; and a non-empty result is the value of a
    row of the table. *)
Theorem findResult_first_match results name :
  (forall pre row post,
      results = pre ++ row :: post ->
      Forall (fun r => row_Variable r <> name) pre ->
      row_Variable row = name ->
      findResult results name = or_empty (row_Value row))
  /\ (Forall (fun r => row_Variable r <> name) results ->
      findResult results name = "")
  /\ (findResult results name <> "" ->
      exists row, In row results /\ row_Variable row = name
                  /\ row_Value row = Some (findResult results name)).
Proof.
  unfold findResult. split; [|split].
  - intros pre row post -> Hpre Hrow.
    induction Hpre as [|r pre Hr _ IH]; simpl.
    + rewrite Hrow, String.eqb_refl. reflexivity.
    + apply String.eqb_neq in Hr. rewrite Hr. exact IH.
  - induction 1 as [|r rs Hr _ IH]; simpl; [reflexivity|].
    apply String.eqb_neq in Hr. rewrite Hr. exact IH.
  - intros Hne.
    destruct (find _ results) as [row|] eqn:E; [|congruence].
    apply find_some in E as [Hin Heq]. apply String.eqb_eq in Heq.
    exists row. repeat split; try assumption.
    unfold or_empty in *. destruct (row_Value row) as [v|]; [|congruence].
    destruct (truthy v); congruence.
Qed.

Lemma findResult_first_match_witness :
  findResult Cases.untidy "Make" = ""
  /\ findResult Cases.untidy "Trim" = ""
  /\ exists row, In row Cases.untidy /\ row_Variable row = "Model"
                 /\ row_Value row = Some (findResult Cases.untidy "Model").
Proof.
  destruct (findResult_first_match Cases.untidy "Make") as (H1 & _ & _).
  destruct (findResult_first_match Cases.untidy "Trim") as (_ & H2 & _).
  destruct (findResult_first_match Cases.untidy "Model") as (_ & _ & H3).
  split; [|split].
  - apply (H1 [] {| row_Variable := "Make"; row_Value := None |}
              [ {| row_Variable := "Model"; row_Value := Some "Civic" |};
                {| row_Variable := "Make"; row_Value := Some "Honda" |} ]);
      [reflexivity|constructor|reflexivity].
  - apply H2. repeat constructor; discriminate.
  - apply H3. discriminate.
Defined.

(** X2.  In every reachable world, a record that [decodeVin] resolves to
    with [valid = false] carries a non-empty [error], on every path
    (format rejection, cache hit, backend, registry, failure); a record
    with [valid = true] carries none. *)
Theorem invalid_records_carry_error net X token w r :
  reachable w ->
  fst (decodeVin net X token w) = Resolved r ->
  (valid r = false -> exists e, error r = Some e /\ e <> "")
  /\ (valid r = true -> error r = None).
Proof.
  intros Hw Hr.
  apply (Keyed.decodeVin_resolves_kept
           (fun _ r => (valid r = false -> exists e, error r = Some e /\ e <> "")
                       /\ (valid r = true -> error r = None)))
    with (net := net) (X := X) (token := token) (w := w); try assumption.
  - intros v rows now e He. simpl.
    destruct (truthy (findResult rows "Model Year")
              && truthy (findResult rows "Make")
              && truthy (findResult rows "Model"))%bool; split;
      try discriminate; try reflexivity.
    intros _. exists e. split; [reflexivity|].
    apply JSFacts.truthy_true. assumption.
  - intros v e a He. simpl. split; [|discriminate].
    intros _. exists e. split; [reflexivity|].
    apply JSFacts.truthy_true. assumption.
Qed.

Lemma invalid_records_carry_error_witness :
  (valid (failure_record (toUpperCase "SHORT123") "Invalid VIN format" None)
   = false ->
   exists e,
     error (failure_record (toUpperCase "SHORT123") "Invalid VIN format" None)
     = Some e /\ e <> "")
  /\ (valid (failure_record (toUpperCase "SHORT123") "Invalid VIN format" None)
      = true ->
      error (failure_record (toUpperCase "SHORT123") "Invalid VIN format" None)
      = None).
Proof.
  apply (invalid_records_carry_error Scenario.online "SHORT123" None initial);
    [apply reach_initial|reflexivity].
Defined.

(** X3.  In every reachable world, the [vin] field of a record that
    [decodeVin] resolves to is the upper-cased input, whichever path
    produced the record. *)
Theorem resolved_vin_is_normalized net X token w r :
  reachable w ->
  fst (decodeVin net X token w) = Resolved r ->
  vin r = toUpperCase X.
Proof.
  intros Hw Hr.
  apply (Keyed.decodeVin_resolves_kept (fun v r => vin r = v))
    with (net := net) (token := token) (w := w); try assumption;
    reflexivity.
Qed.

Lemma resolved_vin_is_normalized_witness :
  vin (extract Scenario.honda Scenario.civic 0 "Vehicle information not found")
  = toUpperCase "1hgbh41jxmn109186".
Proof.
  apply (resolved_vin_is_normalized Scenario.online "1hgbh41jxmn109186" None
           initial); [apply reach_initial|reflexivity].
Defined.

(** X4.  [decodeVin] does not depend on the case of its input: the
    upper-cased input gives the same outcome and the same world. *)
Theorem decodeVin_case_insensitive net X token w :
  decodeVin net (toUpperCase X) token w = decodeVin net X token w.
Proof.
  unfold decodeVin, isValidVinFormat.
  rewrite !StringFacts.toUpperCase_idem. reflexivity.
Qed.

Lemma backendCall_then_direct_calls net k token w :
  calls (snd (match backendCall net k token w with
              | (Resolved r, w1) => (Resolved r, w1)
              | (Rejected _, w1) => directNhtsaCall net k w1
              end))
  = calls w ++ [call_backend k token]
  \/ calls (snd (match backendCall net k token w with
                 | (Resolved r, w1) => (Resolved r, w1)
                 | (Rejected _, w1) => directNhtsaCall net k w1
                 end))
     = calls w ++ [call_backend k token; call_registry k].
Proof.
  pose proof (DecodeClaims.backendCall_calls net k token w) as Hl.
  destruct (backendCall net k token w) as [[r|e] w1]; simpl in *.
  - left. assumption.
  - right. rewrite DecodeClaims.directNhtsaCall_calls, Hl, <- app_assoc.
    reflexivity.
Qed.

(** X5.  One [decodeVin] makes at most two network calls: none (format
    rejection or cache hit), one to the registry, one to the backend, or
    one to the backend followed by one to the registry; a call always
    carries the upper-cased VIN, and the backend is only called with the
    token given. *)
Theorem decodeVin_calls_bounded net X token w :
  calls (snd (decodeVin net X token w)) = calls w
  \/ calls (snd (decodeVin net X token w))
     = calls w ++ [call_registry (toUpperCase X)]
  \/ exists t,
      token = Some t
      /\ (calls (snd (decodeVin net X token w))
          = calls w ++ [call_backend (toUpperCase X) t]
          \/ calls (snd (decodeVin net X token w))
             = calls w ++ [call_backend (toUpperCase X) t;
                           call_registry (toUpperCase X)]).
Proof.
  destruct (isValidVinFormat X) eqn:Hv.
  2:{ left. rewrite decodeVin_invalid by assumption. reflexivity. }
  destruct (cache w !! toUpperCase X) as [c|] eqn:Hc.
  { left. rewrite (decodeVin_hit _ _ _ _ c) by assumption. reflexivity. }
  destruct (truthy_opt token) eqn:Ht.
  - destruct token as [t|]; [|discriminate]. simpl in Ht.
    right. right. exists t. split; [reflexivity|].
    rewrite decodeVin_miss_token by assumption.
    apply backendCall_then_direct_calls.
  - right. left. rewrite decodeVin_miss_anonymous by assumption.
    pose proof (DecodeClaims.directNhtsaCall_calls net (toUpperCase X) w) as Hl.
    destruct (directNhtsaCall net (toUpperCase X) w) as [[r|e] w1];
      simpl in *; assumption.
Qed.

(** A resolved record is stored under the upper-cased VIN. *)
Lemma decodeVin_resolved_stored net X token w r w' :
  isValidVinFormat X = true ->
  decodeVin net X token w = (Resolved r, w') ->
  cache w' !! toUpperCase X = Some r.
Proof.
  intros Hv Hd.
  destruct (cache w !! toUpperCase X) as [c|] eqn:Hc.
  { rewrite (decodeVin_hit _ _ _ _ c) in Hd by assumption.
    injection Hd as <- <-. assumption. }
  destruct (truthy_opt token) eqn:Ht.
  - destruct token as [t|]; [|discriminate]. simpl in Ht.
    rewrite decodeVin_miss_token in Hd by assumption.
    unfold backendCall, directNhtsaCall in Hd.
    destruct (link_up net); simpl in Hd.
    + destruct (Server.decode_vin _ _ _ _ _) as [[v [|]|m st] kv'];
        simpl in Hd; destruct (registry net); simpl in Hd;
        try discriminate; injection Hd as <- <-; simpl;
        apply lookup_insert_eq.
    + destruct (registry net); simpl in Hd; try discriminate.
      injection Hd as <- <-. simpl. apply lookup_insert_eq.
  - rewrite decodeVin_miss_anonymous in Hd by assumption.
    unfold directNhtsaCall in Hd.
    destruct (registry net); simpl in Hd; injection Hd as <- <-; simpl;
      apply lookup_insert_eq.
Qed.

(** X6.  Once [decodeVin] has resolved for a valid VIN, decoding the same
    VIN again right away, in any case, with any token and whatever the
    network now does, resolves to the same record and changes nothing:
    no second network call is made. *)
Theorem second_decode_is_a_hit net X token w r w' :
  isValidVinFormat X = true ->
  decodeVin net X token w = (Resolved r, w') ->
  forall net' X' token',
    toUpperCase X' = toUpperCase X ->
    decodeVin net' X' token' w' = (Resolved r, w').
Proof.
  intros Hv Hd net' X' token' Hsame.
  apply decodeVin_hit.
  - unfold isValidVinFormat in *. rewrite Hsame. assumption.
  - rewrite Hsame. eapply decodeVin_resolved_stored; eassumption.
Qed.

Lemma second_decode_is_a_hit_witness :
  decodeVin Scenario.offline "1hgbh41jxmn109186" (Some "token")
    Scenario.after_success
  = (Resolved (extract Scenario.honda Scenario.civic 0
                 "Vehicle information not found"),
     Scenario.after_success).
Proof.
  apply (second_decode_is_a_hit Scenario.online Scenario.honda None initial);
    reflexivity.
Defined.

End DecodeMore.

(** ** The server route and the client's use of it *)

Module ServerMore.

Import JS VinService Decode DecodeFacts.

Local Open Scope list_scope.
Local Open Scope Z_scope.

Lemma vinPattern_truthy s : Regex.vinPattern_test s = true -> truthy s = true.
Proof. destruct s; [discriminate|reflexivity]. Qed.

Lemma valid_input_truthy X : isValidVinFormat X = true -> truthy X = true.
Proof.
  intros H. apply StringFacts.toUpperCase_truthy, vinPattern_truthy, H.
Qed.

(** The three answers of the route to an authorized, well-formed request. *)
Lemma server_decode_cached X reply now (s : gmap string VehicleInfo) c :
  isValidVinFormat X = true ->
  s !! Server.vehicle_key (toUpperCase X) = Some c ->
  Server.decode_vin true X reply now s = (Server.json_vehicle c false, s).
Proof.
  intros Hv Hc. unfold Server.decode_vin. simpl.
  rewrite (valid_input_truthy X Hv). simpl.
  unfold isValidVinFormat in Hv. rewrite Hv. simpl. rewrite Hc. reflexivity.
Qed.

Lemma server_decode_fresh X R now (s : gmap string VehicleInfo) :
  isValidVinFormat X = true ->
  s !! Server.vehicle_key (toUpperCase X) = None ->
  Server.decode_vin true X (registry_json R) now s
  = (Server.json_vehicle
       (extract (toUpperCase X) (default [] R) now
          "Vehicle information not found for this VIN") false,
     <[Server.vehicle_key (toUpperCase X) :=
         extract (toUpperCase X) (default [] R) now
           "Vehicle information not found for this VIN"]> s).
Proof.
  intros Hv Hc. unfold Server.decode_vin. simpl.
  rewrite (valid_input_truthy X Hv). simpl.
  unfold isValidVinFormat in Hv. rewrite Hv. simpl. rewrite Hc. reflexivity.
Qed.

Lemma server_decode_failed X reply now (s : gmap string VehicleInfo) :
  isValidVinFormat X = true ->
  s !! Server.vehicle_key (toUpperCase X) = None ->
  (forall R, reply <> registry_json R) ->
  Server.decode_vin true X reply now s
  = (Server.json_vehicle
       (failure_record (toUpperCase X) "Failed to decode VIN via NHTSA API"
          (Some now)) true,
     <[Server.vehicle_key (toUpperCase X) :=
         failure_record (toUpperCase X) "Failed to decode VIN via NHTSA API"
           (Some now)]> s).
Proof.
  intros Hv Hc Hr. unfold Server.decode_vin. simpl.
  rewrite (valid_input_truthy X Hv). simpl.
  unfold isValidVinFormat in Hv. rewrite Hv. simpl. rewrite Hc.
  destruct reply as [| | |R]; try reflexivity. now destruct (Hr R).
Qed.

Lemma upper_is_valid X :
  isValidVinFormat X = true -> isValidVinFormat (toUpperCase X) = true.
Proof.
  unfold isValidVinFormat. now rewrite StringFacts.toUpperCase_idem.
Qed.

(** The fields that describe the vehicle, and the verdict. *)
Definition same_vehicle (a b : VehicleInfo) : Prop :=
  vin a = vin b /\ year a = year b /\ make a = make b /\ model a = model b
  /\ trim a = trim b /\ engine a = engine b
  /\ displacement a = displacement b /\ cylinders a = cylinders b
  /\ fuel_type a = fuel_type b /\ vehicle_type a = vehicle_type b
  /\ body_class a = body_class b /\ drive_type a = drive_type b
  /\ transmission a = transmission b /\ manufacturer a = manufacturer b
  /\ plant_city a = plant_city b /\ plant_state a = plant_state b
  /\ valid a = valid b.

(** X7.  For one and the same registry answer, the path through the
    backend (token, server reached, nothing stored yet) and the direct
    path (no token) resolve to records that agree on [vin], on all
    vehicle fields and on [valid]; when the answer lacks a required field
    they differ in the wording of [error] only. *)
Theorem paths_agree net1 net2 X token R w :
  isValidVinFormat X = true ->
  cache w !! toUpperCase X = None ->
  kv w !! Server.vehicle_key (toUpperCase X) = None ->
  truthy token = true ->
  link_up net1 = true -> authorized net1 = true ->
  backend_registry net1 = registry_json R ->
  registry net2 = registry_json R ->
  exists r1 r2,
    fst (decodeVin net1 X (Some token) w) = Resolved r1
    /\ fst (decodeVin net2 X None w) = Resolved r2
    /\ same_vehicle r1 r2
    /\ (valid r1 = false ->
        error r1 = Some "Vehicle information not found for this VIN"
        /\ error r2 = Some "Vehicle information not found").
Proof.
  intros Hv Hc Hk Ht Hl Ha Hb Hr.
  rewrite decodeVin_miss_token, decodeVin_miss_anonymous
    by (assumption || reflexivity).
  unfold backendCall, directNhtsaCall. rewrite Hl, Ha, Hb, Hr. simpl negb.
  cbv iota. simpl kv.
  rewrite (server_decode_fresh (toUpperCase X))
    by (rewrite ?StringFacts.toUpperCase_idem; auto using upper_is_valid).
  rewrite StringFacts.toUpperCase_idem. simpl.
  eexists _, _. split; [reflexivity|]. split; [reflexivity|].
  split; [repeat split|].
  simpl. intros Hbad. rewrite Hbad. split; reflexivity.
Qed.

Lemma paths_agree_witness :
  exists r1 r2,
    fst (decodeVin Scenario.unknown Scenario.honda (Some "token") initial)
    = Resolved r1
    /\ fst (decodeVin Scenario.unknown Scenario.honda None initial)
       = Resolved r2
    /\ same_vehicle r1 r2
    /\ (valid r1 = false ->
        error r1 = Some "Vehicle information not found for this VIN"
        /\ error r2 = Some "Vehicle information not found").
Proof.
  apply (paths_agree Scenario.unknown Scenario.unknown Scenario.honda "token"
           (Some []) initial); reflexivity.
Defined.

(** X8.  When the server cannot reach the registry for a well-formed VIN
    it has no entry for, it answers 500 and stores the failure record;
    from then on every request for that VIN, whatever the registry would
    now answer, gets the stored failure record with status 200.  A client
    with a token that then decodes the VIN resolves to that record
    ([valid = false]) and caches it without scheduling any deletion. *)
Theorem server_failure_is_permanent X reply now (s : gmap string VehicleInfo) :
  isValidVinFormat X = true ->
  s !! Server.vehicle_key (toUpperCase X) = None ->
  (forall R, reply <> registry_json R) ->
  Server.decode_vin true X reply now s
  = (Server.json_vehicle
       (failure_record (toUpperCase X) "Failed to decode VIN via NHTSA API"
          (Some now)) true,
     snd (Server.decode_vin true X reply now s))
  /\ (forall X' reply' now',
        toUpperCase X' = toUpperCase X ->
        Server.decode_vin true X' reply' now'
          (snd (Server.decode_vin true X reply now s))
        = (Server.json_vehicle
             (failure_record (toUpperCase X)
                "Failed to decode VIN via NHTSA API" (Some now)) false,
           snd (Server.decode_vin true X reply now s)))
  /\ (forall net token w,
        kv w = snd (Server.decode_vin true X reply now s) ->
        cache w !! toUpperCase X = None ->
        truthy token = true ->
        link_up net = true -> authorized net = true ->
        fst (decodeVin net X (Some token) w)
        = Resolved (failure_record (toUpperCase X)
                      "Failed to decode VIN via NHTSA API" (Some now))
        /\ cache (snd (decodeVin net X (Some token) w)) !! toUpperCase X
           = Some (failure_record (toUpperCase X)
                     "Failed to decode VIN via NHTSA API" (Some now))
        /\ timers (snd (decodeVin net X (Some token) w)) = timers w).
Proof.
  intros Hv Hc Hr.
  rewrite (server_decode_failed X reply now s Hv Hc Hr). simpl snd.
  split; [reflexivity|].
  assert (Hagain : forall X' reply' now',
             toUpperCase X' = toUpperCase X ->
             Server.decode_vin true X' reply' now'
               (<[Server.vehicle_key (toUpperCase X) :=
                    failure_record (toUpperCase X)
                      "Failed to decode VIN via NHTSA API" (Some now)]> s)
             = (Server.json_vehicle
                  (failure_record (toUpperCase X)
                     "Failed to decode VIN via NHTSA API" (Some now)) false,
                <[Server.vehicle_key (toUpperCase X) :=
                    failure_record (toUpperCase X)
                      "Failed to decode VIN via NHTSA API" (Some now)]> s)).
  { intros X' reply' now' Hsame. apply server_decode_cached.
    - unfold isValidVinFormat in *. rewrite Hsame. assumption.
    - rewrite Hsame. apply lookup_insert_eq. }
  split; [exact Hagain|].
  intros net token w Hkv Hmiss Ht Hl Ha.
  rewrite decodeVin_miss_token by assumption.
  unfold backendCall. rewrite Hl, Ha. simpl negb. cbv iota. simpl kv.
  rewrite Hkv, Hagain by apply StringFacts.toUpperCase_idem.
  simpl. split; [reflexivity|]. split; [apply lookup_insert_eq|reflexivity].
Qed.

Lemma server_failure_is_permanent_witness :
  Server.decode_vin true "1hgbh41jxmn109186" (registry_json (Some Scenario.civic))
    5
    (snd (Server.decode_vin true Scenario.honda registry_unreachable 0 ∅))
  = (Server.json_vehicle
       (failure_record (toUpperCase Scenario.honda)
          "Failed to decode VIN via NHTSA API" (Some 0)) false,
     snd (Server.decode_vin true Scenario.honda registry_unreachable 0 ∅)).
Proof.
  destruct (server_failure_is_permanent Scenario.honda registry_unreachable 0
              ∅) as (_ & H & _);
    [reflexivity|apply lookup_empty|intros R; discriminate|].
  apply H. reflexivity.
Defined.

Lemma server_ok_stored a v reply now (s : gmap string VehicleInfo) r :
  fst (Server.decode_vin a v reply now s) = Server.json_vehicle r false ->
  snd (Server.decode_vin a v reply now s)
    !! Server.vehicle_key (toUpperCase v) = Some r.
Proof.
  unfold Server.decode_vin.
  destruct a; simpl; [|discriminate].
  destruct (truthy v); simpl; [|discriminate].
  destruct (Regex.vinPattern_test (toUpperCase v)); simpl; [|discriminate].
  destruct (s !! Server.vehicle_key (toUpperCase v)) as [c|] eqn:Hc; simpl.
  - intros [= <-]. assumption.
  - destruct reply; simpl; try discriminate.
    intros [= <-]. apply lookup_insert_eq.
Qed.

(** A text that passes the VIN pattern is plain, and a plain text goes
    through the transport of the examples as it is. *)
Lemma vin_class_letter_or_digit c :
  Regex.vin_class c = true -> Lookup.letter_or_digit c = true.
Proof.
  destruct c as [[] [] [] [] [] [] [] []]; vm_compute; congruence.
Qed.

Lemma exactly_letters_and_digits n : forall s,
  Regex.exactly Regex.vin_class n s = true ->
  Lookup.letters_and_digits s = true.
Proof.
  induction n as [|n IH]; intros [|c s]; simpl; try discriminate;
    [reflexivity|].
  intros H. apply andb_true_iff in H as [Hc Hs].
  rewrite (vin_class_letter_or_digit _ Hc). apply IH. assumption.
Qed.

Lemma vinPattern_plain s :
  Regex.vinPattern_test s = true -> Lookup.plain s = true.
Proof.
  intros H. unfold Lookup.plain. rewrite (vinPattern_truthy _ H).
  apply (exactly_letters_and_digits 17). assumption.
Qed.

Lemma segment_letters_and_digits s :
  Lookup.letters_and_digits s = true -> Cases.segment s = Some s.
Proof.
  induction s as [|c s IH]; simpl; [reflexivity|].
  intros H. apply andb_true_iff in H as [Hc Hs]. rewrite (IH Hs).
  revert Hc. destruct c as [[] [] [] [] [] [] [] []]; vm_compute;
    congruence.
Qed.

Lemma cut_query_transparent : Lookup.transparent Cases.cut_query.
Proof.
  intros s H. unfold Lookup.plain in H. apply andb_true_iff in H as [Ht Hs].
  unfold Cases.cut_query. rewrite (segment_letters_and_digits _ Hs).
  destruct s; [discriminate|reflexivity].
Qed.

Lemma backendCall_resolved_pattern net k token w r w' :
  backendCall net k token w = (Resolved r, w') ->
  Regex.vinPattern_test (toUpperCase k) = true.
Proof.
  unfold backendCall. destruct (link_up net); simpl; [|discriminate].
  unfold Server.decode_vin.
  destruct (authorized net); simpl; [|discriminate].
  destruct (truthy k); simpl; [|discriminate].
  destruct (Regex.vinPattern_test (toUpperCase k)); simpl;
    [reflexivity|discriminate].
Qed.

(** X9.  [getCachedVehicle] pastes the upper-cased VIN into the URL, and
    the route looks up the parameter it receives, upper-cased.  Over a
    transport that hands a text of letters and digits on as it is:
    after the backend call of [decodeVin] has resolved to a record for a
    VIN, [getCachedVehicle] for that VIN (in any case), with the server
    reached and the token accepted, returns that record; and for an
    argument of letters and digits it returns [null] exactly when the
    server is not reached, the token is refused or the server holds no
    record for the upper-cased argument.  For any argument it returns
    what the server holds for the parameter that arrives, and [null]
    when no route matches.  A decode without token never changes what
    the server holds. *)
Theorem getCachedVehicle_round_trip via :
  Lookup.transparent via ->
  (forall net X token w r w',
      backendCall net (toUpperCase X) token w = (Resolved r, w') ->
      forall net' X',
        toUpperCase X' = toUpperCase X ->
        link_up net' = true -> authorized net' = true ->
        Lookup.getCachedVehicle via net' X' w' = Some r)
  /\ (forall net X w,
        Lookup.plain (toUpperCase X) = true ->
        (Lookup.getCachedVehicle via net X w = None <->
         link_up net = false \/ authorized net = false
         \/ kv w !! Server.vehicle_key (toUpperCase X) = None))
  /\ (forall net X w param,
        via (toUpperCase X) = Some param ->
        link_up net = true -> authorized net = true ->
        Lookup.getCachedVehicle via net X w
        = kv w !! Server.vehicle_key (toUpperCase param))
  /\ (forall net X w,
        via (toUpperCase X) = None ->
        Lookup.getCachedVehicle via net X w = None)
  /\ (forall net X token w,
        truthy_opt token = false ->
        kv (snd (decodeVin net X token w)) = kv w).
Proof.
  intros Hvia.
  assert (Hparam : forall net X w param,
             via (toUpperCase X) = Some param ->
             link_up net = true -> authorized net = true ->
             Lookup.getCachedVehicle via net X w
             = kv w !! Server.vehicle_key (toUpperCase param)).
  { intros net X w param Hp Hl Ha.
    unfold Lookup.getCachedVehicle, Lookup.get_vehicle.
    rewrite Hl, Ha, Hp. simpl.
    destruct (kv w !! Server.vehicle_key (toUpperCase param)); reflexivity. }
  split; [|split; [|split; [|split]]].
  - intros net X token w r w' Hb net' X' Hsame Hl Ha.
    pose proof (backendCall_resolved_pattern _ _ _ _ _ _ Hb) as Hpat.
    rewrite StringFacts.toUpperCase_idem in Hpat.
    rewrite (Hparam net' X' w' (toUpperCase X)); try assumption.
    2:{ rewrite Hsame. apply Hvia, vinPattern_plain. assumption. }
    rewrite StringFacts.toUpperCase_idem.
    unfold backendCall in Hb. destruct (link_up net); simpl in Hb;
      [|discriminate].
    pose proof (server_ok_stored (authorized net) (toUpperCase X)
                  (backend_registry net) (clock w) (kv w)) as Hs.
    rewrite StringFacts.toUpperCase_idem in Hs.
    destruct (Server.decode_vin _ _ _ _ _) as [[v [|]|m st] kv'];
      simpl in Hb, Hs; try discriminate.
    injection Hb as <- <-. simpl. rewrite (Hs v eq_refl). reflexivity.
  - intros net X w Hplain.
    unfold Lookup.getCachedVehicle, Lookup.get_vehicle.
    rewrite (Hvia _ Hplain), StringFacts.toUpperCase_idem.
    destruct (link_up net), (authorized net); simpl;
      try (split; [auto|reflexivity]).
    destruct (kv w !! Server.vehicle_key (toUpperCase X)) as [c|]; simpl.
    + split; [discriminate|]. intros [H|[H|H]]; discriminate.
    + split; auto.
  - exact Hparam.
  - intros net X w Hnone. unfold Lookup.getCachedVehicle. rewrite Hnone.
    destruct (link_up net); reflexivity.
  - intros net X token w Ht.
    destruct (isValidVinFormat X) eqn:Hv.
    2:{ rewrite decodeVin_invalid by assumption. reflexivity. }
    destruct (cache w !! toUpperCase X) as [c|] eqn:Hc.
    { rewrite (decodeVin_hit _ _ _ _ c) by assumption. reflexivity. }
    rewrite decodeVin_miss_anonymous by assumption.
    unfold directNhtsaCall. destruct (registry net); reflexivity.
Qed.

Lemma getCachedVehicle_round_trip_witness :
  Lookup.getCachedVehicle Cases.cut_query Scenario.online
    "1hgbh41jxmn109186" Cases.after_backend
  = Some (extract Scenario.honda Scenario.civic 0
            "Vehicle information not found for this VIN")
  /\ Lookup.getCachedVehicle Cases.cut_query Scenario.online
       "1hgbh41jxmn109186?x=1" Cases.after_backend
     = Some (extract Scenario.honda Scenario.civic 0
               "Vehicle information not found for this VIN")
  /\ Lookup.getCachedVehicle Cases.cut_query Scenario.online
       "1hgbh41jxmn109186/.." Cases.after_backend = None
  /\ Lookup.getCachedVehicle Cases.cut_query Scenario.online Scenario.honda
       Scenario.after_success = None.
Proof.
  destruct (getCachedVehicle_round_trip Cases.cut_query
              cut_query_transparent) as (H1 & H2 & H3 & H4 & _).
  split; [|split; [|split]].
  - apply (H1 Scenario.online Scenario.honda "token" initial _
              Cases.after_backend); reflexivity.
  - rewrite (H3 Scenario.online "1hgbh41jxmn109186?x=1" Cases.after_backend
               Scenario.honda); reflexivity.
  - apply H4. reflexivity.
  - apply H2; [reflexivity|]. right. right. reflexivity.
Defined.

End ServerMore.

(** ** Timers and [clearCache] *)

Module TimerFacts.

Import JS VinService Decode DecodeFacts.

Local Open Scope list_scope.
Local Open Scope Z_scope.

Lemma directNhtsaCall_frame net k w :
  clock (snd (directNhtsaCall net k w)) = clock w
  /\ timers (snd (directNhtsaCall net k w)) = timers w.
Proof. unfold directNhtsaCall. destruct (registry net); split; reflexivity. Qed.

Lemma backendCall_frame net k token w :
  clock (snd (backendCall net k token w)) = clock w
  /\ timers (snd (backendCall net k token w)) = timers w.
Proof.
  unfold backendCall. destruct (link_up net); simpl; [|split; reflexivity].
  destruct (Server.decode_vin _ _ _ _ _) as [[r [|]|m st] kv'];
    split; reflexivity.
Qed.

(** [decodeVin] leaves the clock alone and removes no pending timer. *)
Lemma decodeVin_frame net X token w :
  clock (snd (decodeVin net X token w)) = clock w
  /\ forall t, In t (timers w) -> In t (timers (snd (decodeVin net X token w))).
Proof.
  destruct (isValidVinFormat X) eqn:Hv.
  2:{ rewrite decodeVin_invalid by assumption. split; auto. }
  destruct (cache w !! toUpperCase X) as [c|] eqn:Hc.
  { rewrite (decodeVin_hit _ _ _ _ c) by assumption. split; auto. }
  destruct (truthy_opt token) eqn:Ht.
  - destruct token as [t|]; [|discriminate]. simpl in Ht.
    rewrite decodeVin_miss_token by assumption.
    pose proof (backendCall_frame net (toUpperCase X) t w) as [Hc1 Ht1].
    destruct (backendCall net (toUpperCase X) t w) as [[r|e] w1];
      simpl in *.
    + rewrite Hc1, Ht1. split; auto.
    + destruct (directNhtsaCall_frame net (toUpperCase X) w1) as [-> ->].
      rewrite Hc1, Ht1. split; auto.
  - rewrite decodeVin_miss_anonymous by assumption.
    pose proof (directNhtsaCall_frame net (toUpperCase X) w) as [Hc1 Ht1].
    destruct (directNhtsaCall net (toUpperCase X) w) as [[r|e] w1];
      simpl in *.
    + rewrite Hc1, Ht1. split; auto.
    + rewrite Hc1, Ht1. split; auto.
Qed.

(** X10.  A deletion timer outlives [clearCache()] and does not look at
    what it deletes.  After a failed decode without token at time T, a
    [clearCache()], a lapse of less than five minutes and a new decode of
    the same VIN, whatever record that decode stored is gone from the
    cache at T plus five minutes. *)
Theorem stale_timer_evicts_newer_record net X w :
  isValidVinFormat X = true ->
  cache w !! toUpperCase X = None ->
  (forall R, registry net <> registry_json R) ->
  forall dt1 dt2 net' token',
    0 <= dt1 -> dt1 < five_minutes -> 0 <= dt2 -> five_minutes <= dt1 + dt2 ->
    cache (advance dt2
             (snd (decodeVin net' X token'
                     (advance dt1
                        (clearCache (snd (decodeVin net X None w)))))))
      !! toUpperCase X = None.
Proof.
  intros Hv Hc Hfail dt1 dt2 net' token' H1 H2 H3 H4.
  rewrite (Retention.decodeVin_anonymous_failed net X None w Hv Hc eq_refl Hfail).
  simpl snd.
  set (t0 := {| due := clock w + five_minutes; key := toUpperCase X |}).
  set (w2 := advance dt1 _).
  assert (Hin2 : In t0 (timers w2)).
  { subst w2. simpl. apply list_elem_of_In, list_elem_of_filter. split.
    - unfold is_due. simpl. apply Z.leb_gt. lia.
    - apply list_elem_of_In. left. reflexivity. }
  assert (Hclock2 : clock w2 = clock w + dt1) by (subst w2; simpl; lia).
  destruct (decodeVin_frame net' X token' w2) as [Hclock3 Hin3].
  apply Retention.advance_expires. apply Exists_exists. exists t0.
  split; [apply list_elem_of_In, Hin3, Hin2|].
  split; [reflexivity|]. rewrite Hclock3, Hclock2. simpl. lia.
Qed.

Lemma stale_timer_evicts_newer_record_witness :
  (exists r, cache Cases.after_refresh !! Scenario.honda = Some r
             /\ valid r = true)
  /\ cache (advance 240000 Cases.after_refresh) !! toUpperCase Scenario.honda
     = None.
Proof.
  split; [eexists; split; reflexivity|].
  refine (stale_timer_evicts_newer_record Scenario.offline Scenario.honda
            initial _ _ _ Cases.one_minute 240000 Scenario.online None
            _ _ _ _);
    try reflexivity; try (intros R; discriminate);
    vm_compute; discriminate.
Defined.

(** X11.  [clearCache()] empties the cache and touches nothing else: the
    pending timers, the clock and the network log stay; the next decode of
    any valid VIN then goes to the network. *)
Theorem clearCache_forces_fetch net X token w :
  isValidVinFormat X = true ->
  cache (clearCache w) = ∅
  /\ timers (clearCache w) = timers w
  /\ calls (clearCache w) = calls w
  /\ exists c l,
      calls (snd (decodeVin net X token (clearCache w))) = calls w ++ c :: l.
Proof.
  intros Hv. repeat split.
  apply (Retention.decodeVin_miss_calls net X token (clearCache w) Hv).
  apply lookup_empty.
Qed.

Lemma clearCache_forces_fetch_witness :
  cache (clearCache Scenario.after_success) = ∅
  /\ timers (clearCache Scenario.after_success) = timers Scenario.after_success
  /\ calls (clearCache Scenario.after_success) = calls Scenario.after_success
  /\ exists c l,
      calls (snd (decodeVin Scenario.online Scenario.honda None
                    (clearCache Scenario.after_success)))
      = calls Scenario.after_success ++ c :: l.
Proof.
  apply (clearCache_forces_fetch Scenario.online Scenario.honda None
           Scenario.after_success). reflexivity.
Defined.

End TimerFacts.

(** ** The scanner: manual entry and what the heuristics can yield *)

Module ScannerMore.

Import JS Scanner.

Local Open Scope list_scope.

(** X13.  What [handleManualSubmit] hands to [onScan] is always a result
    that [handleScanResult] would accept and that the mode admits: a VIN
    is the trimmed, upper-cased input, passes [isValidVinFormat] and is
    its own upper-casing; a barcode is the trimmed input.  Input that is
    empty or white space does nothing.  A trimmed input that is a VIN up
    to case is submitted as a VIN unless the mode is [barcode], where it
    is answered by the complaint. *)
Theorem handleManualSubmit_submits_valid mode input :
  (forall r,
      Entry.handleManualSubmit mode input = Entry.submitted r ->
      isValid r = true /\ mode_allows mode (type r) = true
      /\ (type r = vin ->
          data r = toUpperCase (Entry.trim input)
          /\ VinService.isValidVinFormat (data r) = true
          /\ toUpperCase (data r) = data r)
      /\ (type r = barcode -> data r = Entry.trim input))
  /\ (Entry.trim input = "" -> Entry.handleManualSubmit mode input = Entry.nothing)
  /\ (VinService.isValidVinFormat (Entry.trim input) = true ->
      Entry.handleManualSubmit mode input
      = if mode_allows mode vin
        then Entry.submitted
               {| type := vin; data := toUpperCase (Entry.trim input) |}
        else Entry.complaint (Entry.complaint_for mode)).
Proof.
  unfold Entry.handleManualSubmit. split; [|split].
  - intros r.
    destruct (truthy (Entry.trim input)); simpl; [|discriminate].
    destruct (VIN_PATTERN_test (toUpperCase (Entry.trim input))) eqn:Ev.
    + simpl. destruct (mode_allows mode vin) eqn:Em; [|discriminate].
      intros [= <-]. unfold isValid. simpl.
      repeat split; try assumption; try discriminate.
      * unfold VinService.isValidVinFormat.
        rewrite StringFacts.toUpperCase_idem. assumption.
      * apply StringFacts.toUpperCase_idem.
    + destruct (BARCODE_PATTERN_test (Entry.trim input)) eqn:Eb;
        [|discriminate].
      simpl. destruct (mode_allows mode barcode) eqn:Em; [|discriminate].
      intros [= <-]. unfold isValid. simpl.
      repeat split; try assumption; try discriminate.
  - intros ->. reflexivity.
  - intros Hv.
    rewrite (StringFacts.toUpperCase_truthy _
               (ServerMore.vinPattern_truthy _ Hv)).
    unfold VinService.isValidVinFormat in Hv.
    unfold VIN_PATTERN_test. rewrite Hv. simpl. reflexivity.
Qed.

Lemma handleManualSubmit_submits_valid_witness :
  Entry.handleManualSubmit mode_auto "  1hgbh41jxmn109186 "
  = Entry.submitted {| type := vin; data := "1HGBH41JXMN109186" |}
  /\ Entry.handleManualSubmit mode_barcode "1hgbh41jxmn109186"
     = Entry.complaint "Please enter a valid barcode (8-14 digits)"
  /\ Entry.handleManualSubmit mode_vin "   " = Entry.nothing
  /\ (isValid {| type := barcode; data := "12345678" |} = true
      /\ mode_allows mode_auto barcode = true
      /\ (barcode = vin ->
          "12345678" = toUpperCase (Entry.trim " 12345678")
          /\ VinService.isValidVinFormat "12345678" = true
          /\ toUpperCase "12345678" = "12345678")
      /\ (barcode = barcode -> "12345678" = Entry.trim " 12345678")).
Proof.
  split; [|split; [|split]].
  - apply (proj2 (proj2 (handleManualSubmit_submits_valid mode_auto
                           "  1hgbh41jxmn109186 "))). reflexivity.
  - apply (proj2 (proj2 (handleManualSubmit_submits_valid mode_barcode
                           "1hgbh41jxmn109186"))). reflexivity.
  - apply (proj1 (proj2 (handleManualSubmit_submits_valid mode_vin "   "))).
    reflexivity.
  - apply (proj1 (handleManualSubmit_submits_valid mode_auto " 12345678")
             {| type := barcode; data := "12345678" |}). reflexivity.
Defined.

(** An offered candidate that fails its pattern is logged, ignored or
    dropped, and changes neither [scanned] nor [scanning]. *)
Lemma offer_invalid seen r st :
  isValid r = false ->
  scanned (fst (offer seen r st)) = scanned st
  /\ scanning (fst (offer seen r st)) = scanning st
  /\ exists f, trace (fst (offer seen r st))
               = trace st ++ [ {| candidate := r; fate := f |} ]
               /\ f <> Forwarded.
Proof.
  intros Hbad. unfold offer.
  destruct (String.eqb (data r) seen); simpl.
  - repeat split. exists Ignored. split; [reflexivity|discriminate].
  - unfold handleScanResult. rewrite Hbad. simpl.
    repeat split. exists Dropped. split; [reflexivity|discriminate].
Qed.

(** Method 3 stays silent on the tick, and the mode is [vin] or the row
    scan of the frame counts fewer than five barcode-like rows. *)
Definition quiet (mode : Mode) (f : Frame) : Prop :=
  random_below (u_demo (draws f)) 2 100 = false
  /\ (mode = mode_vin
      \/ forall c imageData n,
          canvas f = Some c -> context2d c = Some imageData ->
          RowScan.verticalLines_of (enough imageData) imageData = Some n ->
          (n < 5)%Z).

Definition untouched (st : Session) : Prop :=
  scanned st = [] /\ scanning st = true
  /\ Forall (fun e => type (candidate e) = vin
                      /\ String.length (data (candidate e)) = 15
                      /\ fate e <> Forwarded) (trace st).

Lemma scanFrame_untouched mode b f st st' :
  quiet mode f -> untouched st ->
  scanFrame mode b f st = Some st' -> untouched st'.
Proof.
  intros [Hdemo Hbar] (Hsc & Hrun & Htr). unfold scanFrame.
  destruct (canvas f) as [c|] eqn:Hc;
    [|intros [= <-]; repeat split; assumption].
  destruct (context2d c) as [imageData|] eqn:Hctx;
    [|intros [= <-]; repeat split; assumption].
  destruct ((width imageData <=? 0)%Z || (height imageData <=? 0)%Z) eqn:Hd0;
    [intros [= <-]; repeat split; assumption|].
  unfold detectTextInImage.
  destruct (detectBarcodePatterns c (draws f)) as [found|] eqn:Ef;
    [|discriminate].
  assert (H1 : match found with
               | Some detectedBarcode =>
                   if truthy detectedBarcode && mode_allows mode barcode
                   then offer (read b st)
                          {| type := barcode; data := detectedBarcode |} st
                   else (st, false)
               | None => (st, false)
               end = (st, false)).
  { destruct Hbar as [->|Hlow].
    - destruct found as [d|]; [|reflexivity].
      rewrite andb_false_r. reflexivity.
    - unfold detectBarcodePatterns in Ef. rewrite Hctx, Hd0 in Ef.
      unfold RowScan.detectBarcodePatterns in Ef.
      destruct (RowScan.verticalLines_of (enough imageData) imageData)
        as [n|] eqn:En; [|discriminate].
      specialize (Hlow c imageData n eq_refl Hctx En).
      replace (5 <=? n)%Z with false in Ef
        by (symmetry; apply Z.leb_gt; assumption).
      injection Ef as <-. reflexivity. }
  rewrite H1. clear H1.
  destruct (detectVinPatterns c (draws f)) as [d|] eqn:Hd.
  2:{ rewrite Hdemo. intros [= <-]. repeat split; assumption. }
  destruct (truthy d && mode_allows mode vin).
  2:{ rewrite Hdemo. intros [= <-]. repeat split; assumption. }
  pose proof (DetectionFacts.detectVinPatterns_length _ _ _ Hd) as Hlen.
  assert (Hbad : isValid {| type := vin; data := d |} = false).
  { unfold isValid. simpl.
    destruct (VIN_PATTERN_test d) eqn:E; [|reflexivity].
    apply DetectionFacts.VIN_PATTERN_test_length in E. lia. }
  destruct (offer_invalid (read b st) {| type := vin; data := d |} st Hbad)
    as (Hs1 & Hr1 & fa & Ht1 & Hfa).
  assert (Hst1 : untouched
                   (fst (offer (read b st) {| type := vin; data := d |} st))).
  { repeat split; [congruence|congruence|].
    rewrite Ht1. apply Forall_app. split; [assumption|].
    repeat constructor; assumption. }
  destruct (offer (read b st) {| type := vin; data := d |} st)
    as [st1 returned].
  simpl in Hst1. destruct returned; [intros [= <-]; assumption|].
  rewrite Hdemo. intros [= <-]. assumption.
Qed.

(** X14.  As long as Method 3 stays silent, a session forwards nothing
    when the mode is [vin], or when every frame has fewer than five
    barcode-like rows: the interval keeps running and every candidate of
    the session is a 15-character VIN payload that was ignored or
    dropped.  The VIN heuristic can never end a session. *)
Theorem heuristics_never_forward mode b frames :
  Forall (quiet mode) frames ->
  scanned (run mode b frames opened) = []
  /\ scanning (run mode b frames opened) = true
  /\ Forall (fun e => type (candidate e) = vin
                      /\ String.length (data (candidate e)) = 15
                      /\ fate e <> Forwarded)
            (trace (run mode b frames opened)).
Proof.
  intros Hq.
  assert (H : forall st, untouched st -> untouched (run mode b frames st)).
  { induction Hq as [|f frames Hf _ IH]; intros st Hst; simpl; [assumption|].
    destruct (intervals st); [assumption|].
    destruct (scanFrame mode b f st) as [st'|] eqn:E; [|assumption].
    apply IH. exact (scanFrame_untouched _ _ _ _ _ Hf Hst E). }
  apply H. repeat split. constructor.
Qed.

Lemma heuristics_never_forward_witness :
  trace (run mode_vin live Cases.vin_session opened)
  = [ {| candidate := Scenario.mock_vin; fate := Dropped |};
      {| candidate := Scenario.mock_vin; fate := Ignored |} ]
  /\ (scanned (run mode_vin live Cases.vin_session opened) = []
      /\ scanning (run mode_vin live Cases.vin_session opened) = true
      /\ Forall (fun e => type (candidate e) = vin
                          /\ String.length (data (candidate e)) = 15
                          /\ fate e <> Forwarded)
                (trace (run mode_vin live Cases.vin_session opened))).
Proof.
  split; [vm_compute; reflexivity|].
  apply (heuristics_never_forward mode_vin live Cases.vin_session).
  repeat constructor.
Defined.

End ScannerMore.

(** ** The scanner: bounds on what the pixel loops can count *)

Module PixelFacts.

Import JS Scanner.

Local Open Scope list_scope.
Local Open Scope Z_scope.

(** A loop with a positive step that is within [k] steps of its bound
    makes at most [k] rounds. *)
Lemma visits_length step bound fuel :
  forall i (k : nat),
    0 < step -> bound <= i + step * Z.of_nat k ->
    (length (visits fuel i bound step) <= k)%nat.
Proof.
  induction fuel as [|fuel IH]; intros i k Hs Hk; simpl; [lia|].
  destruct (i <? bound) eqn:E; simpl; [|lia].
  apply Z.ltb_lt in E. destruct k as [|k]; [lia|].
  apply le_n_S, IH; [assumption|]. lia.
Qed.

Lemma count_le {A} (p : A -> bool) (xs : list A) :
  forall c,
    c <= fold_left (fun count x => if p x then count + 1 else count) xs c
      <= c + Z.of_nat (length xs).
Proof.
  induction xs as [|x xs IH]; intros c; simpl; [lia|].
  destruct (p x); [specialize (IH (c + 1))|specialize (IH c)]; lia.
Qed.

Lemma grid_count_le {A B} (p : A -> B -> bool) (ys : list A) (xs : list B) :
  forall c,
    fold_left
      (fun count y =>
         fold_left (fun count x => if p y x then count + 1 else count)
                   xs count) ys c
    <= c + Z.of_nat (length ys) * Z.of_nat (length xs).
Proof.
  induction ys as [|y ys IH]; intros c; simpl fold_left; [simpl; lia|].
  specialize (IH (fold_left
                    (fun count x => if p y x then count + 1 else count) xs c)).
  pose proof (count_le (p y) xs c).
  change (length (y :: ys)) with (S (length ys)). lia.
Qed.

(** X15.  [detectTextRegions] needs more than 100 sampled pixels to say
    yes: on a frame whose sampling grid has at most 100 points, in
    particular on every frame of at most 41 by 41 pixels, it returns
    false whatever the pixels are. *)
Theorem detectTextRegions_small_frames imageData (a b : nat) :
  width imageData - 2 <= 4 * Z.of_nat a ->
  height imageData - 2 <= 4 * Z.of_nat b ->
  (a * b <= 100)%nat ->
  detectTextRegions imageData = false.
Proof.
  intros Hw Hh Hab. unfold detectTextRegions. apply Z.ltb_ge.
  pose proof (grid_count_le (is_edge imageData)
                (for_loop 1 (height imageData - 1) 4)
                (for_loop 1 (width imageData - 1) 4) 0) as Hc.
  assert (Hy : (length (for_loop 1 (height imageData - 1) 4) <= b)%nat)
    by (apply visits_length; lia).
  assert (Hx : (length (for_loop 1 (width imageData - 1) 4) <= a)%nat)
    by (apply visits_length; lia).
  etransitivity; [exact Hc|]. nia.
Qed.

Lemma detectTextRegions_small_frames_witness :
  detectTextRegions Cases.tiny = false.
Proof.
  apply (detectTextRegions_small_frames Cases.tiny 10 10);
    vm_compute; discriminate || lia.
Defined.

Import RowScan.

(** The row scan ends within [k] rounds when its step is positive, and
    counts at most one row a round. *)
Lemma rows_counts imageData bound step fuel :
  forall y v (k : nat) n,
    0 < step -> bound <= y + step * Z.of_nat k ->
    rows fuel imageData y bound step v = Some n ->
    v <= n <= v + Z.of_nat k.
Proof.
  induction fuel as [|fuel IH]; intros y v k n Hs Hk; simpl; [discriminate|].
  destruct (y <? bound) eqn:E.
  - apply Z.ltb_lt in E. destruct k as [|k]; [lia|].
    intros H. apply (IH _ _ k) in H; [|assumption|lia].
    destruct ((20 <? transitions imageData y)
              && (transitions imageData y <? 200))%bool; lia.
  - intros [= <-]. lia.
Qed.

Lemma rows_ends imageData bound step fuel :
  forall y v (k : nat),
    0 < step -> bound <= y + step * Z.of_nat k -> (k < fuel)%nat ->
    exists n, rows fuel imageData y bound step v = Some n.
Proof.
  induction fuel as [|fuel IH]; intros y v k Hs Hk Hf; simpl; [lia|].
  destruct (y <? bound) eqn:E; [|eauto].
  apply Z.ltb_lt in E. destruct k as [|k]; [lia|].
  apply (IH _ _ k); [assumption|lia|lia].
Qed.

(** With a step of 0 and a non-empty band the loop never ends. *)
Lemma rows_stuck imageData bound fuel :
  forall y v, y < bound -> rows fuel imageData y bound 0 v = None.
Proof.
  induction fuel as [|fuel IH]; intros y v Hy; simpl; [reflexivity|].
  replace (y <? bound) with true by (symmetry; apply Z.ltb_lt; assumption).
  rewrite Z.add_0_r. apply IH. assumption.
Qed.

(** With a step of 0 or less and a non-empty band the loop never ends. *)
Lemma rows_never imageData bound step fuel :
  forall y v,
    step <= 0 -> y < bound -> rows fuel imageData y bound step v = None.
Proof.
  induction fuel as [|fuel IH]; intros y v Hs Hy; simpl; [reflexivity|].
  replace (y <? bound) with true by (symmetry; apply Z.ltb_lt; assumption).
  apply IH; lia.
Qed.

(** More rounds do not change what the row scan returns. *)
Lemma rows_more_fuel imageData bound step fuel :
  forall fuel' y v n,
    (fuel <= fuel')%nat ->
    rows fuel imageData y bound step v = Some n ->
    rows fuel' imageData y bound step v = Some n.
Proof.
  induction fuel as [|fuel IH]; intros fuel' y v n Hle; simpl;
    [discriminate|].
  destruct fuel' as [|fuel']; [lia|]. simpl.
  destruct (y <? bound); [|auto]. apply IH. lia.
Qed.

(** What the row scan returns at all, it returns within as many rounds
    as the band has rows, and one more. *)
Lemma rows_adequate imageData bound step fuel y v n :
  rows fuel imageData y bound step v = Some n ->
  rows (S (Z.to_nat (bound - y))) imageData y bound step v = Some n.
Proof.
  intros H. destruct (Z_lt_le_dec y bound) as [Hy|Hy].
  - destruct (Z_lt_le_dec 0 step) as [Hs|Hs].
    + destruct (rows_ends imageData bound step (S (Z.to_nat (bound - y)))
                  y v (Z.to_nat (bound - y))) as [n' Hn']; [lia|nia|lia|].
      destruct (Nat.le_ge_cases fuel (S (Z.to_nat (bound - y)))) as [Hle|Hle].
      * exact (rows_more_fuel _ _ _ _ _ _ _ _ Hle H).
      * pose proof (rows_more_fuel _ _ _ _ _ _ _ _ Hle Hn') as H'.
        congruence.
    + rewrite rows_never in H by assumption. discriminate.
  - destruct fuel as [|fuel]; [discriminate|]. simpl in H |- *.
    replace (y <? bound) with false in *
      by (symmetry; apply Z.ltb_ge; assumption).
    assumption.
Qed.

(** [enough] rounds are enough: a count the row scan reaches on some fuel
    it reaches on [enough], and a scan that has not ended by then never
    ends. *)
Lemma enough_is_enough imageData fuel n :
  verticalLines_of fuel imageData = Some n ->
  verticalLines_of (enough imageData) imageData = Some n.
Proof. apply rows_adequate. Qed.

Lemma never_returns imageData u :
  RowScan.detectBarcodePatterns (enough imageData) imageData u = None ->
  forall fuel, RowScan.detectBarcodePatterns fuel imageData u = None.
Proof.
  unfold RowScan.detectBarcodePatterns. intros H fuel.
  destruct (verticalLines_of fuel imageData) as [n|] eqn:E; [|reflexivity].
  rewrite (enough_is_enough _ _ _ E) in H. discriminate.
Qed.

Definition band_ok (h : Z) : bool :=
  (1 <=? row_step h) && (end_row h - first_row h <=? 4 * row_step h).

Definition heights (from : Z) (n : nat) : list Z :=
  map (fun i => from + Z.of_nat i) (seq 0 n).

Lemma in_heights from n h :
  from <= h < from + Z.of_nat n -> In h (heights from n).
Proof.
  intros H. unfold heights. apply in_map_iff.
  exists (Z.to_nat (h - from)). split; [lia|]. apply in_seq. lia.
Qed.

(** The loop constants, computed as doubles, for every height from 10 to
    8192: the band between the first and the end row is at most four
    steps long. *)
Lemma band_checked : forallb band_ok (heights 10 (Z.to_nat 8183)) = true.
Proof. vm_compute. reflexivity. Qed.

Lemma band_short h :
  10 <= h <= 8192 ->
  1 <= row_step h /\ end_row h - first_row h <= 4 * row_step h.
Proof.
  intros H. pose proof band_checked as Hall.
  rewrite forallb_forall in Hall.
  specialize (Hall h (in_heights 10 (Z.to_nat 8183) h ltac:(lia))).
  unfold band_ok in Hall. apply andb_true_iff in Hall as [H1 H2].
  apply Z.leb_le in H1, H2. lia.
Qed.

(** On a frame 10 to 8192 pixels high the scan ends within five rounds
    with a count of at most 4. *)
Lemma high_frame_count fuel imageData :
  10 <= height imageData <= 8192 ->
  (5 <= fuel)%nat ->
  exists n, verticalLines_of fuel imageData = Some n /\ 0 <= n <= 4.
Proof.
  intros Hh Hfuel. destruct (band_short _ Hh) as [Hstep Hband].
  unfold verticalLines_of.
  destruct (rows_ends imageData (end_row (height imageData))
              (row_step (height imageData)) fuel
              (first_row (height imageData)) 0 4) as [n Hn]; [lia|lia|lia|].
  assert (Hle : 0 <= n <= 0 + Z.of_nat 4)
    by (apply (rows_counts _ _ _ _ _ _ 4%nat _) in Hn; [exact Hn|lia|lia]).
  exists n. split; [assumption|lia].
Qed.

(** The heights on which the step is 0 and the band is not empty. *)
Lemma low_frame_band h :
  In h [2; 4; 5; 6; 7; 8; 9] -> row_step h = 0 /\ first_row h < end_row h.
Proof.
  intros Hin. simpl in Hin.
  repeat (destruct Hin as [<-|Hin]; [vm_compute; split; reflexivity|]).
  destruct Hin.
Qed.

(** X16.  On a frame 10 to 8192 pixels high the row scan of
    [detectBarcodePatterns] visits at most four rows, so [verticalLines]
    is at most 4, the test [verticalLines >= 5] fails and the function
    returns null: the barcode heuristic never yields a candidate,
    whatever the pixels and the draws. *)
Theorem barcode_heuristic_never_fires fuel imageData u :
  10 <= height imageData <= 8192 ->
  (5 <= fuel)%nat ->
  RowScan.detectBarcodePatterns fuel imageData u = Some None
  /\ exists n, verticalLines_of fuel imageData = Some n /\ 0 <= n <= 4.
Proof.
  intros Hh Hfuel.
  destruct (high_frame_count fuel imageData Hh Hfuel) as (n & Hn & Hle).
  unfold RowScan.detectBarcodePatterns. rewrite Hn.
  split; [|exists n; split; [reflexivity|lia]].
  replace (5 <=? n) with false by (symmetry; apply Z.leb_gt; lia).
  reflexivity.
Qed.

Lemma barcode_heuristic_never_fires_witness :
  RowScan.detectBarcodePatterns 5 (Cases.tall 720) Scenario.draws0 = Some None
  /\ exists n, verticalLines_of 5 (Cases.tall 720) = Some n /\ 0 <= n <= 4.
Proof.
  apply (barcode_heuristic_never_fires 5 (Cases.tall 720) Scenario.draws0);
    [vm_compute; split; discriminate|lia].
Defined.

(** X17.  On a frame 2, 4, 5, 6, 7, 8 or 9 pixels high the step of the
    row loop, [Math.floor(canvas.height / 10)], is 0 while the band from
    [Math.floor(canvas.height * 0.4)] to [Math.floor(canvas.height * 0.6)]
    is not empty: [y] never advances and [detectBarcodePatterns] does not
    return, however long it runs. *)
Theorem row_scan_hangs_on_low_frames imageData u fuel :
  In (height imageData) [2; 4; 5; 6; 7; 8; 9] ->
  RowScan.detectBarcodePatterns fuel imageData u = None.
Proof.
  unfold RowScan.detectBarcodePatterns, verticalLines_of. intros Hin.
  destruct (low_frame_band _ Hin) as [-> Hlt].
  rewrite rows_stuck by assumption. reflexivity.
Qed.

Lemma row_scan_hangs_on_low_frames_witness :
  RowScan.detectBarcodePatterns 1000 (Cases.tall 5) Scenario.draws0 = None.
Proof.
  apply (row_scan_hangs_on_low_frames (Cases.tall 5) Scenario.draws0 1000).
  simpl. auto.
Defined.

(** The band of a frame 1 or 3 pixels high is empty. *)
Lemma empty_band h : h = 1 \/ h = 3 -> end_row h <= first_row h.
Proof. intros [->| ->]; vm_compute; discriminate. Qed.

Lemma empty_band_count imageData :
  end_row (height imageData) <= first_row (height imageData) ->
  verticalLines_of (enough imageData) imageData = Some 0.
Proof.
  intros H. unfold verticalLines_of, enough. simpl.
  replace (first_row (height imageData) <? end_row (height imageData))
    with false by (symmetry; apply Z.ltb_ge; assumption).
  reflexivity.
Qed.

(** X12.  On a canvas at most 8192 pixels high [detectBarcodePatterns]
    never yields a candidate, whatever the pixels and the draws: it
    returns null, except on a canvas that is not empty and 2, 4, 5, 6, 7,
    8 or 9 pixels high, and only there, where it does not return,
    however long the row scan is run.  The mock number of
    [if (verticalLines >= 5)] is never produced. *)
Theorem detectBarcodePatterns_yields_nothing canvas u :
  (forall imageData,
      context2d canvas = Some imageData -> height imageData <= 8192) ->
  (Scanner.detectBarcodePatterns canvas u = Some None
   \/ Scanner.detectBarcodePatterns canvas u = None)
  /\ (Scanner.detectBarcodePatterns canvas u = None
      <-> exists imageData,
            context2d canvas = Some imageData /\ 0 < width imageData
            /\ In (height imageData) [2; 4; 5; 6; 7; 8; 9])
  /\ (Scanner.detectBarcodePatterns canvas u = None ->
      forall imageData fuel,
        context2d canvas = Some imageData ->
        RowScan.detectBarcodePatterns fuel imageData u = None).
Proof.
  intros Hmax. unfold Scanner.detectBarcodePatterns.
  destruct (context2d canvas) as [imageData|] eqn:Hc.
  2:{ split; [left; reflexivity|]. split; [|discriminate].
      split; [discriminate|]. intros (i & Hi & _). discriminate. }
  specialize (Hmax imageData eq_refl).
  destruct ((width imageData <=? 0) || (height imageData <=? 0))%bool
    eqn:Hd.
  { split; [left; reflexivity|]. split; [|discriminate].
    split; [discriminate|]. intros (i & [= <-] & Hw & Hin).
    apply orb_true_iff in Hd as [Hd|Hd]; apply Z.leb_le in Hd;
      simpl in Hin; lia. }
  apply orb_false_iff in Hd as [Hw Hh]. apply Z.leb_gt in Hw, Hh.
  assert (Hcases : (exists n, verticalLines_of (enough imageData) imageData
                              = Some n /\ n < 5
                              /\ ~ In (height imageData) [2; 4; 5; 6; 7; 8; 9])
                   \/ In (height imageData) [2; 4; 5; 6; 7; 8; 9]).
  { destruct (Z_lt_le_dec (height imageData) 10) as [Hlow|Hhigh].
    - assert (Hs : (height imageData = 1 \/ height imageData = 3)
                   \/ In (height imageData) [2; 4; 5; 6; 7; 8; 9])
        by (simpl; lia).
      destruct Hs as [Hs|Hs]; [left|right; assumption].
      exists 0. split; [apply empty_band_count, empty_band, Hs|].
      split; [lia|]. simpl. lia.
    - left.
      destruct (high_frame_count 5 imageData ltac:(lia) ltac:(lia))
        as (n & Hn & Hle).
      exists n. split; [exact (enough_is_enough _ _ _ Hn)|].
      split; [lia|]. simpl. lia. }
  destruct Hcases as [(n & Hn & Hlt & Hnot)|Hin].
  - assert (Hres : RowScan.detectBarcodePatterns (enough imageData)
                     imageData u = Some None).
    { unfold RowScan.detectBarcodePatterns. rewrite Hn.
      replace (5 <=? n) with false by (symmetry; apply Z.leb_gt; assumption).
      reflexivity. }
    rewrite Hres. split; [left; reflexivity|]. split; [|discriminate].
    split; [discriminate|]. intros (i & [= <-] & _ & Hin). contradiction.
  - assert (Hres : RowScan.detectBarcodePatterns (enough imageData)
                     imageData u = None).
    { unfold RowScan.detectBarcodePatterns, verticalLines_of.
      destruct (low_frame_band _ Hin) as [-> Hband].
      rewrite rows_stuck by assumption. reflexivity. }
    rewrite Hres. split; [right; reflexivity|]. split.
    + split; [|reflexivity]. intros _. exists imageData. auto.
    + intros _ i fuel [= <-]. apply never_returns. assumption.
Qed.

Lemma detectBarcodePatterns_yields_nothing_witness :
  (Scanner.detectBarcodePatterns Scenario.text_canvas Scenario.draws0
   = Some None
   \/ Scanner.detectBarcodePatterns Scenario.text_canvas Scenario.draws0
      = None)
  /\ Scanner.detectBarcodePatterns Scenario.text_canvas Scenario.draws0
     = Some None
  /\ Scanner.detectBarcodePatterns {| context2d := Some (Cases.tall 5) |}
       Scenario.draws0 = None.
Proof.
  split; [|split].
  - apply (detectBarcodePatterns_yields_nothing
             Scenario.text_canvas Scenario.draws0).
    intros imageData [= <-]. vm_compute. discriminate.
  - vm_compute. reflexivity.
  - assert (Hmax : forall imageData,
               context2d {| context2d := Some (Cases.tall 5) |}
               = Some imageData -> height imageData <= 8192)
      by (intros imageData [= <-]; vm_compute; discriminate).
    apply (proj2 (proj1 (proj2 (detectBarcodePatterns_yields_nothing
                                  {| context2d := Some (Cases.tall 5) |}
                                  Scenario.draws0 Hmax)))).
    exists (Cases.tall 5). split; [reflexivity|]. split; [reflexivity|].
    simpl. auto.
Defined.

End PixelFacts.

(** ** The identification form: what the user is told *)

Module FormFacts.

Import JS VinService Decode Form.

Local Open Scope list_scope.

(** In a reachable world a record without [valid] has a truthy
    [error]. *)
Lemma resolved_invalid_has_error net X token w r :
  reachable w ->
  fst (Decode.decodeVin net X token w) = Resolved r ->
  valid r = false -> truthy_opt (error r) = true.
Proof.
  intros Hw Hr.
  apply (Keyed.decodeVin_resolves_kept
           (fun _ r => valid r = false -> truthy_opt (error r) = true))
    with (net := net) (X := X) (token := token) (w := w); try assumption.
  - intros v rows now e He. simpl.
    destruct (truthy (findResult rows "Model Year")
              && truthy (findResult rows "Make")
              && truthy (findResult rows "Model"))%bool;
      [discriminate|intros _; exact He].
  - intros v e a He _. exact He.
Qed.

(** X18.  In every reachable world, the form's [decodeVin] ends with the
    spinner off and has shown exactly one toast: a success toast with a
    valid record displayed, a warning toast carrying the error of the
    invalid record displayed, or the error toast "Failed to decode VIN"
    with the displayed record left as it was.  The branch that shows
    nothing (a record neither valid nor with an error) is never taken. *)
Theorem form_decodeVin_one_toast net vinToCheck accessToken st w :
  reachable w ->
  isDecodingVin (fst (Form.decodeVin net vinToCheck accessToken st w)) = false
  /\ exists t,
      toasts (fst (Form.decodeVin net vinToCheck accessToken st w))
      = toasts st ++ [t]
      /\ match t with
         | toast_success _ =>
             exists v,
               vehicleInfo (fst (Form.decodeVin net vinToCheck accessToken st w))
               = Some v /\ valid v = true
         | toast_warning m =>
             exists v,
               vehicleInfo (fst (Form.decodeVin net vinToCheck accessToken st w))
               = Some v /\ valid v = false /\ error v = Some m /\ m <> ""
         | toast_error m =>
             m = "Failed to decode VIN"
             /\ vehicleInfo (fst (Form.decodeVin net vinToCheck accessToken st w))
                = vehicleInfo st
         end.
Proof.
  intros Hw. unfold Form.decodeVin.
  pose proof (resolved_invalid_has_error net vinToCheck
                (or_undefined accessToken) w) as Herr.
  destruct (Decode.decodeVin net vinToCheck (or_undefined accessToken) w)
    as [[r|e] w'] eqn:E; simpl in Herr |- *.
  - destruct (valid r) eqn:Hv.
    + split; [reflexivity|]. eexists. split; [reflexivity|].
      exists r. split; [reflexivity|assumption].
    + specialize (Herr r Hw eq_refl Hv). rewrite Herr.
      split; [reflexivity|]. eexists. split; [reflexivity|].
      exists r. destruct (error r) as [m|]; [|discriminate].
      simpl in Herr |- *.
      split; [reflexivity|]. split; [assumption|]. split; [reflexivity|].
      apply JSFacts.truthy_true. assumption.
  - split; [reflexivity|]. eexists. split; [reflexivity|].
    split; reflexivity.
Qed.

Lemma form_decodeVin_one_toast_witness :
  isDecodingVin
    (fst (Form.decodeVin Scenario.offline Scenario.honda (Some "token")
            {| vehicleInfo := None; isDecodingVin := false; toasts := [] |}
            initial)) = false
  /\ exists t,
      toasts
        (fst (Form.decodeVin Scenario.offline Scenario.honda (Some "token")
                {| vehicleInfo := None; isDecodingVin := false; toasts := [] |}
                initial))
      = [] ++ [t]
      /\ match t with
         | toast_success _ =>
             exists v,
               vehicleInfo
                 (fst (Form.decodeVin Scenario.offline Scenario.honda
                         (Some "token")
                         {| vehicleInfo := None; isDecodingVin := false;
                            toasts := [] |} initial))
               = Some v /\ valid v = true
         | toast_warning m =>
             exists v,
               vehicleInfo
                 (fst (Form.decodeVin Scenario.offline Scenario.honda
                         (Some "token")
                         {| vehicleInfo := None; isDecodingVin := false;
                            toasts := [] |} initial))
               = Some v /\ valid v = false /\ error v = Some m /\ m <> ""
         | toast_error m =>
             m = "Failed to decode VIN"
             /\ vehicleInfo
                  (fst (Form.decodeVin Scenario.offline Scenario.honda
                          (Some "token")
                          {| vehicleInfo := None; isDecodingVin := false;
                             toasts := [] |} initial))
                = None
         end.
Proof.
  apply (form_decodeVin_one_toast Scenario.offline Scenario.honda
           (Some "token")
           {| vehicleInfo := None; isDecodingVin := false; toasts := [] |}
           initial).
  apply reach_initial.
Defined.

(** X19.  The auto-decode effect never touches the network, the cache or
    the timers for an input that is not a well-formed VIN: with any
    other length than 17 it clears the displayed record and shows
    nothing; with 17 characters it displays the "Invalid VIN format"
    record for the upper-cased input and warns with that message. *)
Theorem autoDecode_malformed_is_local net vin accessToken st w :
  isValidVinFormat vin = false ->
  snd (autoDecode net vin accessToken st w) = w
  /\ (String.length vin <> 17%nat ->
      vehicleInfo (fst (autoDecode net vin accessToken st w)) = None
      /\ toasts (fst (autoDecode net vin accessToken st w)) = toasts st)
  /\ (String.length vin = 17%nat ->
      vehicleInfo (fst (autoDecode net vin accessToken st w))
      = Some (failure_record (toUpperCase vin) "Invalid VIN format" None)
      /\ toasts (fst (autoDecode net vin accessToken st w))
         = toasts st ++ [toast_warning "Invalid VIN format"]).
Proof.
  intros Hbad. unfold autoDecode, Form.decodeVin.
  rewrite (DecodeFacts.decodeVin_invalid _ _ _ _ Hbad).
  destruct (Nat.eqb_spec (String.length vin) 17) as [Hl|Hl].
  - assert (Ht : truthy vin = true)
      by (apply JSFacts.truthy_true; intros ->; discriminate).
    rewrite Ht. simpl. split; [reflexivity|]. split; [congruence|].
    intros _. split; reflexivity.
  - rewrite andb_false_r. simpl. split; [reflexivity|].
    split; [intros _; split; reflexivity|congruence].
Qed.

Lemma autoDecode_malformed_is_local_witness :
  snd (autoDecode Scenario.online "1HGCM82633A00435O" None
         {| vehicleInfo := None; isDecodingVin := false; toasts := [] |}
         initial) = initial
  /\ toasts
       (fst (autoDecode Scenario.online "1HGCM82633A00435O" None
               {| vehicleInfo := None; isDecodingVin := false; toasts := [] |}
               initial))
     = [] ++ [toast_warning "Invalid VIN format"].
Proof.
  destruct (autoDecode_malformed_is_local Scenario.online "1HGCM82633A00435O"
              None
              {| vehicleInfo := None; isDecodingVin := false; toasts := [] |}
              initial eq_refl) as (H1 & _ & H3).
  split; [exact H1|]. apply H3. reflexivity.
Defined.

End FormFacts.

(** ** The server's users and fuel entries: properties *)

Module LedgerFacts.

Import JS VinService Ledger.

Local Open Scope list_scope.

(** *** Keys *)

Lemma user_key_inj a b : user_key a = user_key b -> a = b.
Proof. intros H. cbv [user_key append] in H. congruence. Qed.

Lemma entry_key_inj a b : entry_key a = entry_key b -> a = b.
Proof. intros H. cbv [entry_key append] in H. congruence. Qed.

Lemma entries_key_inj a b : entries_key a = entries_key b -> a = b.
Proof. intros H. cbv [entries_key append] in H. congruence. Qed.

Lemma entry_not_user a b : entry_key a <> user_key b.
Proof. cbv [entry_key user_key append]. congruence. Qed.

Lemma entries_not_user a b : entries_key a <> user_key b.
Proof. cbv [entries_key user_key append]. congruence. Qed.

Lemma entry_not_entries a b : entry_key a <> entries_key b.
Proof. cbv [entry_key entries_key append]. congruence. Qed.

(** *** Objects *)

Lemma field_app k a b :
  field k (a ++ b)
  = match field k b with Some w => Some w | None => field k a end.
Proof.
  induction a as [|[k' v] a IH]; simpl.
  - destruct (field k b); reflexivity.
  - rewrite IH. destruct (field k b); reflexivity.
Qed.

Lemma field_single k k' v :
  field k [(k', v)] = if String.eqb k' k then Some v else None.
Proof. reflexivity. Qed.

Lemma field_without k k' o :
  field k (without k' o) = if String.eqb k' k then None else field k o.
Proof.
  induction o as [|[k0 v] o IH]; simpl.
  - destruct (String.eqb k' k); reflexivity.
  - destruct (String.eqb_spec k0 k') as [->|Hne]; simpl.
    + rewrite IH. destruct (String.eqb k' k); [reflexivity|].
      destruct (field k o); reflexivity.
    + rewrite IH. destruct (String.eqb_spec k' k) as [->|Hk];
        [|reflexivity].
      destruct (String.eqb_spec k0 k); [contradiction|reflexivity].
Qed.

(** *** [requireAuth] *)

Fixpoint spaceless (s : string) : bool :=
  match s with
  | "" => true
  | String c rest => negb (Ascii.eqb c " ") && spaceless rest
  end.

Lemma split_spaceless s : spaceless s = true -> split s = [s].
Proof.
  induction s as [|c s IH]; simpl; [reflexivity|].
  destruct (Ascii.eqb c " "); simpl; [discriminate|].
  intros H. rewrite (IH H). reflexivity.
Qed.

Lemma split_piece s rest :
  spaceless s = true -> split (s ++ " " ++ rest)%string = s :: split rest.
Proof.
  induction s as [|c s IH]; simpl; [reflexivity|].
  destruct (Ascii.eqb c " "); simpl; [discriminate|].
  intros H. rewrite (IH H). reflexivity.
Qed.

(** X21.  [requireAuth] takes the second space-separated piece of the
    [Authorization] header for the token and looks at nothing else: the
    scheme word is not compared with [Bearer], and what follows a second
    space is dropped.  A header without a space (a bare token, say) is
    refused with "No token provided" and Supabase is not asked. *)
Theorem requireAuth_reads_second_piece getUser scheme token rest :
  spaceless scheme = true ->
  spaceless token = true ->
  requireAuth getUser (Some (scheme ++ " " ++ token ++ " " ++ rest)%string)
  = requireAuth getUser (Some ("Bearer " ++ token)%string)
  /\ requireAuth getUser (Some (scheme ++ " " ++ token)%string)
     = requireAuth getUser (Some ("Bearer " ++ token)%string)
  /\ requireAuth getUser (Some ("Bearer " ++ token)%string)
     = (if truthy token then
          match getUser token with
          | Some id => inr id
          | None => inl (refusal "Unauthorized - Invalid token" 401)
          end
        else inl (refusal "Unauthorized - No token provided" 401))
  /\ requireAuth getUser (Some token)
     = inl (refusal "Unauthorized - No token provided" 401).
Proof.
  intros Hs Ht.
  assert (H3 : requireAuth getUser (Some ("Bearer " ++ token)%string)
               = (if truthy token then
                    match getUser token with
                    | Some id => inr id
                    | None => inl (refusal "Unauthorized - Invalid token" 401)
                    end
                  else inl (refusal "Unauthorized - No token provided" 401))).
  { unfold requireAuth.
    change ("Bearer " ++ token)%string with ("Bearer" ++ " " ++ token)%string.
    rewrite split_piece by reflexivity. rewrite (split_spaceless _ Ht).
    simpl. destruct (truthy token); reflexivity. }
  split; [|split; [|split]].
  - rewrite H3. unfold requireAuth.
    rewrite split_piece by assumption. rewrite split_piece by assumption.
    simpl. destruct (truthy token); reflexivity.
  - rewrite H3. unfold requireAuth.
    rewrite split_piece by assumption. rewrite (split_spaceless _ Ht).
    simpl. destruct (truthy token); reflexivity.
  - exact H3.
  - unfold requireAuth. rewrite (split_spaceless _ Ht). reflexivity.
Qed.

Lemma requireAuth_reads_second_piece_witness :
  requireAuth Book.getUser (Some "Basic t-alice x") = inr "alice"
  /\ requireAuth Book.getUser (Some "t-alice")
     = inl (refusal "Unauthorized - No token provided" 401).
Proof.
  destruct (requireAuth_reads_second_piece Book.getUser "Basic" "t-alice" "x"
              eq_refl eq_refl) as (H1 & _ & H3 & H4).
  split; [|exact H4].
  change (requireAuth Book.getUser (Some "Basic t-alice x"))
    with (requireAuth Book.getUser
            (Some ("Basic" ++ " " ++ "t-alice" ++ " " ++ "x")%string)).
  rewrite H1, H3. reflexivity.
Defined.


(** *** Fuel entries *)

(** [fuelEntry.id] and its siblings, read off the entry. *)
Lemma fuelEntry_id user entryData vehicleData uuid now :
  field "id" (fuelEntry user entryData vehicleData uuid now)
  = Some (default (JStr uuid) (field "id" (spread entryData))).
Proof.
  unfold fuelEntry. rewrite !field_app. simpl.
  destruct (field "id" (spread entryData)); reflexivity.
Qed.

Lemma fuelEntry_user_id user entryData vehicleData uuid now :
  field "user_id" (fuelEntry user entryData vehicleData uuid now)
  = Some (default (JStr user) (field "user_id" (spread entryData))).
Proof.
  unfold fuelEntry. rewrite !field_app. simpl.
  destruct (field "user_id" (spread entryData)); reflexivity.
Qed.

Lemma entry_id_fuelEntry user entryData vehicleData uuid now :
  entry_id (fuelEntry user entryData vehicleData uuid now)
  = default (JStr uuid) (field "id" (spread entryData)).
Proof. unfold entry_id. rewrite fuelEntry_id. reflexivity. Qed.

(** What a [POST /fuel-entries] that answers with the entry has done. *)
Lemma create_entry_answer user body uuid now db e :
  fst (create_entry user body uuid now db) = answer e ->
  exists entryData vehicleData ids,
    body = Some entryData
    /\ vehicle_of entryData db = Some vehicleData
    /\ e = JObj (fuelEntry user entryData vehicleData uuid now)
    /\ iterate (or_empty_array (rows db !! entries_key user)) = Some ids
    /\ snd (create_entry user body uuid now db)
       = with_rows
           (<[entries_key user :=
                JArr (ids ++ [entry_id
                                (fuelEntry user entryData vehicleData
                                           uuid now)])]>
              (<[entry_key
                   (String_of
                      (entry_id (fuelEntry user entryData vehicleData
                                           uuid now))) :=
                   JObj (fuelEntry user entryData vehicleData uuid now)]>
                 (rows db))) db.
Proof.
  unfold create_entry.
  destruct body as [entryData|]; [|discriminate].
  destruct (vehicle_of entryData db) as [vehicleData|] eqn:Hv;
    [|destruct entryData; discriminate].
  rewrite lookup_insert_ne by apply entry_not_entries.
  destruct (iterate (or_empty_array (rows db !! entries_key user)))
    as [ids|] eqn:Hi; [|destruct entryData; discriminate].
  destruct entryData; simpl; try discriminate;
    intros [= <-]; eexists _, vehicleData, ids; repeat split; eassumption.
Qed.

(** X22.  [POST /fuel-entries] spreads the request body over the [id] and
    [user_id] it has just set: an object body that names an [id] or a
    [user_id] decides them, and the entry is filed under the body's [id],
    replacing whatever entry was there.  The vehicle fields and
    [created_at] come after the spread and are always the server's. *)
Theorem create_entry_trusts_body user bindings uuid now db e :
  fst (create_entry user (Some (JObj bindings)) uuid now db) = answer e ->
  prop e "id" = Some (default (JStr uuid) (field "id" bindings))
  /\ prop e "user_id" = Some (default (JStr user) (field "user_id" bindings))
  /\ prop e "created_at" = Some (JStr now)
  /\ (exists vehicleData,
        vehicle_of (JObj bindings) db = Some vehicleData
        /\ prop e "vehicle_year" = Some (or_null (year <$> vehicleData))
        /\ prop e "vehicle_make" = Some (or_null (make <$> vehicleData))
        /\ prop e "vehicle_model" = Some (or_null (model <$> vehicleData))
        /\ prop e "vehicle_trim" = Some (or_null (vehicleData ≫= trim)))
  /\ rows (snd (create_entry user (Some (JObj bindings)) uuid now db))
       !! entry_key (String_of (default (JStr uuid) (field "id" bindings)))
     = Some e.
Proof.
  intros H. apply create_entry_answer in H
    as (entryData & vehicleData & ids & [= <-] & Hv & -> & Hi & ->).
  split; [apply fuelEntry_id|]. split; [apply fuelEntry_user_id|].
  split; [unfold prop, fuelEntry; rewrite !field_app; reflexivity|].
  split.
  - exists vehicleData. split; [assumption|].
    unfold prop, fuelEntry. rewrite !field_app. simpl.
    repeat split; reflexivity.
  - simpl. rewrite lookup_insert_ne
      by (intros E; symmetry in E; revert E; apply entry_not_entries).
    rewrite entry_id_fuelEntry. apply lookup_insert_eq.
Qed.

Lemma create_entry_trusts_body_witness :
  rows Book.alice_db !! entry_key "e1"
  = Some (JObj (fuelEntry "alice" Book.fill_up None "e1" Book.stamp))
  /\ prop (JObj (fuelEntry "mallory" Book.forged None "e2" Book.stamp))
          "user_id" = Some (JStr "alice")
  /\ rows (snd (create_entry "mallory" (Some Book.forged) "e2" Book.stamp
                  Book.alice_db)) !! entry_key "e1"
     = Some (JObj (fuelEntry "mallory" Book.forged None "e2" Book.stamp)).
Proof.
  destruct (create_entry_trusts_body "mallory" Book.forged_fields "e2"
              Book.stamp Book.alice_db
              (JObj (fuelEntry "mallory" Book.forged None "e2" Book.stamp))
              ltac:(vm_compute; reflexivity)) as (_ & H2 & _ & _ & H5).
  split; [vm_compute; reflexivity|]. split; [exact H2|exact H5].
Defined.


Lemma omap_agree {A B} (f g : A -> option B) (l : list A) :
  (forall x, In x l -> f x = g x) -> omap f l = omap g l.
Proof.
  induction l as [|x l IH]; intros H; [reflexivity|].
  change (omap f (x :: l))
    with (match f x with Some y => y :: omap f l | None => omap f l end).
  change (omap g (x :: l))
    with (match g x with Some y => y :: omap g l | None => omap g l end).
  rewrite (H x) by (left; reflexivity).
  rewrite IH by (intros y Hy; apply H; right; assumption). reflexivity.
Qed.

Lemma prefix_entry_key id : String.prefix "fuel_entry:" (entry_key id) = true.
Proof. unfold entry_key. simpl. destruct id; reflexivity. Qed.

Lemma in_getByPrefix p (r : gmap string Json) k v :
  r !! k = Some v -> String.prefix p k = true -> In v (getByPrefix p r).
Proof.
  intros Hk Hp. unfold getByPrefix. apply list_elem_of_In.
  apply list_elem_of_fmap. exists (k, v). split; [reflexivity|].
  apply elem_of_map_to_list. apply map_lookup_filter_Some.
  split; assumption.
Qed.

(** X23.  An entry that [POST /fuel-entries] has answered with is the
    last one [GET /fuel-entries] lists to its author, after the entries
    listed before when the author's list did not hold the new id; an
    admin's list holds it too. *)
Theorem posted_entry_is_listed user body uuid now db e :
  fst (create_entry user body uuid now db) = answer e ->
  (is_admin (rows db !! user_key user) = false ->
   exists others,
     list_entries user (snd (create_entry user body uuid now db))
     = answer (JArr (others ++ [e]))
     /\ ((forall ids x,
            iterate (or_empty_array (rows db !! entries_key user)) = Some ids ->
            In x ids ->
            String_of x <> String_of (default JNull (prop e "id"))) ->
         list_entries user db = answer (JArr others)))
  /\ (forall admin,
        is_admin (rows db !! user_key admin) = true ->
        exists items,
          list_entries admin (snd (create_entry user body uuid now db))
          = answer (JArr items)
          /\ In e items).
Proof.
  intros H. apply create_entry_answer in H
    as (entryData & vehicleData & ids & -> & Hv & -> & Hi & ->).
  set (entry := fuelEntry user entryData vehicleData uuid now).
  set (key := entry_key (String_of (entry_id entry))).
  split.
  - intros Hadmin. unfold list_entries. simpl.
    rewrite !lookup_insert_ne
      by first [apply entries_not_user | apply entry_not_user].
    rewrite Hadmin, lookup_insert_eq. simpl. rewrite omap_app. simpl.
    rewrite lookup_insert_ne
      by (intros E; symmetry in E; revert E; apply entry_not_entries).
    fold key. rewrite lookup_insert_eq. simpl.
    eexists. split; [reflexivity|].
    intros Hfresh. rewrite Hi. do 2 f_equal. apply omap_agree.
    intros x Hx.
    rewrite lookup_insert_ne
      by (intros E; symmetry in E; revert E; apply entry_not_entries).
    rewrite lookup_insert_ne; [reflexivity|].
    unfold key. intros E. apply entry_key_inj in E.
    apply (Hfresh ids x Hi Hx). symmetry. exact E.
  - intros admin Hadmin. unfold list_entries. simpl.
    rewrite !lookup_insert_ne
      by first [apply entries_not_user | apply entry_not_user].
    rewrite Hadmin. eexists. split; [reflexivity|].
    apply in_getByPrefix with (k := key); [|apply prefix_entry_key].
    rewrite lookup_insert_ne
      by (intros E; symmetry in E; revert E; apply entry_not_entries).
    apply lookup_insert_eq.
Qed.

Lemma posted_entry_is_listed_witness :
  exists others,
    list_entries "alice"
      (snd (create_entry "alice" (Some Book.fill_up) "e2" Book.stamp
              Book.alice_db))
    = answer (JArr (others
                    ++ [JObj (fuelEntry "alice" Book.fill_up None "e2"
                                Book.stamp)]))
    /\ list_entries "alice" Book.alice_db = answer (JArr others).
Proof.
  destruct (posted_entry_is_listed "alice" (Some Book.fill_up) "e2"
              Book.stamp Book.alice_db
              (JObj (fuelEntry "alice" Book.fill_up None "e2" Book.stamp))
              ltac:(vm_compute; reflexivity)) as [H _].
  destruct (H ltac:(vm_compute; reflexivity)) as (others & Ha & Hb).
  exists others. split; [exact Ha|]. apply Hb.
  intros ids x Hi Hx. vm_compute in Hi. injection Hi as <-.
  destruct Hx as [<-|[]]. vm_compute. discriminate.
Defined.

(** *** Deleting a user *)

Section Deletes.

Variable f : Json -> string.

Lemma fold_delete_none ids : forall (m : gmap string Json) k,
  m !! k = None ->
  fold_left (fun r x => delete (f x) r) ids m !! k = None.
Proof.
  induction ids as [|x ids IH]; intros m k H; simpl; [assumption|].
  apply IH. destruct (decide (f x = k)) as [<-|Hne].
  - apply lookup_delete_eq.
  - rewrite lookup_delete_ne by assumption. assumption.
Qed.

Lemma fold_delete_in ids : forall (m : gmap string Json) x,
  In x ids ->
  fold_left (fun r x => delete (f x) r) ids m !! f x = None.
Proof.
  induction ids as [|y ids IH]; intros m x Hx; simpl; [destruct Hx|].
  destruct Hx as [->|Hx]; [|apply IH; assumption].
  apply fold_delete_none, lookup_delete_eq.
Qed.

Lemma fold_delete_other ids : forall (m : gmap string Json) k,
  (forall x, In x ids -> f x <> k) ->
  fold_left (fun r x => delete (f x) r) ids m !! k = m !! k.
Proof.
  induction ids as [|y ids IH]; intros m k H; simpl; [reflexivity|].
  rewrite IH by (intros x Hx; apply H; right; assumption).
  apply lookup_delete_ne, H. left. reflexivity.
Qed.

Lemma fold_delete_some ids (m : gmap string Json) k j :
  fold_left (fun r x => delete (f x) r) ids m !! k = Some j ->
  m !! k = Some j.
Proof.
  destruct (m !! k) as [j'|] eqn:E.
  - revert m E. induction ids as [|y ids IH]; intros m E; simpl.
    + congruence.
    + destruct (decide (f y = k)) as [<-|Hne].
      * rewrite fold_delete_none by apply lookup_delete_eq. discriminate.
      * apply IH. rewrite lookup_delete_ne by assumption. assumption.
  - rewrite fold_delete_none by assumption. discriminate.
Qed.

End Deletes.

(** X24.  [DELETE /admin/users/:userId] by an admin, on a store whose list
    of the user's entries can be run through, removes the profile, the
    list and every entry the list names, and leaves every other row and
    every vehicle as it was.  Afterwards the user has no profile and
    [GET /fuel-entries] lists nothing to them. *)
Theorem delete_user_erases admin userId db ids :
  is_admin (rows db !! user_key admin) = true ->
  iterate (or_empty_array (rows db !! entries_key userId)) = Some ids ->
  fst (delete_user admin userId db)
  = answer (JObj [("message", JStr "User deleted successfully")])
  /\ rows (snd (delete_user admin userId db)) !! user_key userId = None
  /\ rows (snd (delete_user admin userId db)) !! entries_key userId = None
  /\ (forall x, In x ids ->
        rows (snd (delete_user admin userId db))
          !! entry_key (String_of x) = None)
  /\ (forall k,
        k <> user_key userId -> k <> entries_key userId ->
        (forall x, In x ids -> k <> entry_key (String_of x)) ->
        rows (snd (delete_user admin userId db)) !! k = rows db !! k)
  /\ vehicles (snd (delete_user admin userId db)) = vehicles db
  /\ get_profile userId (snd (delete_user admin userId db))
     = refusal "Profile not found" 404
  /\ list_entries userId (snd (delete_user admin userId db))
     = answer (JArr []).
Proof.
  intros Hadmin Hi. unfold delete_user. rewrite Hadmin. simpl.
  rewrite lookup_delete_ne
    by (intros E; symmetry in E; revert E; apply entries_not_user).
  rewrite Hi. simpl.
  set (gone := fold_left
                 (fun r entryId => delete (entry_key (String_of entryId)) r)
                 ids (delete (user_key userId) (rows db))).
  assert (Hu : delete (entries_key userId) gone !! user_key userId = None).
  { rewrite lookup_delete_ne by apply entries_not_user.
    apply fold_delete_none, lookup_delete_eq. }
  assert (He : delete (entries_key userId) gone !! entries_key userId = None)
    by apply lookup_delete_eq.
  split; [reflexivity|]. split; [exact Hu|]. split; [exact He|].
  split; [|split; [|split; [reflexivity|split]]].
  - intros x Hx. rewrite lookup_delete_ne
      by (intros E; symmetry in E; revert E; apply entry_not_entries).
    apply (fold_delete_in (fun x => entry_key (String_of x))). assumption.
  - intros k H1 H2 H3. rewrite lookup_delete_ne by congruence.
    unfold gone.
    rewrite (fold_delete_other (fun x => entry_key (String_of x)))
      by (intros x Hx E; apply (H3 x Hx); symmetry; exact E).
    apply lookup_delete_ne. congruence.
  - unfold get_profile. simpl. rewrite Hu. reflexivity.
  - unfold list_entries. simpl. rewrite Hu, He. reflexivity.
Qed.

Lemma delete_user_erases_witness :
  rows Book.root_db !! entry_key "e1"
  = Some (JObj (fuelEntry "alice" Book.fill_up None "e1" Book.stamp))
  /\ rows (snd (delete_user "root" "alice" Book.root_db)) !! entry_key "e1"
     = None
  /\ rows (snd (delete_user "root" "alice" Book.root_db)) !! user_key "root"
     = Some (JObj Book.root_fields)
  /\ list_entries "alice" (snd (delete_user "root" "alice" Book.root_db))
     = answer (JArr []).
Proof.
  destruct (delete_user_erases "root" "alice" Book.root_db [JStr "e1"]
              ltac:(vm_compute; reflexivity) ltac:(vm_compute; reflexivity))
    as (_ & _ & _ & H4 & H5 & _ & _ & H8).
  split; [vm_compute; reflexivity|].
  split; [apply (H4 (JStr "e1")); left; reflexivity|].
  split; [|exact H8].
  rewrite H5; [vm_compute; reflexivity|discriminate|discriminate|].
  intros x [<-|[]]. discriminate.
Defined.


(** *** What requests keep *)

(** Nobody is an admin. *)
Definition no_admin (db : Db) : Prop :=
  forall id, is_admin (rows db !! user_key id) = false.

Lemma append_cons c (a b : string) :
  (String c a ++ b)%string = String c (a ++ b)%string.
Proof. reflexivity. Qed.

Lemma substring_skip p s m :
  substring (String.length p) m (p ++ s)%string = substring 0 m s.
Proof.
  induction p as [|c p IH]; [reflexivity|].
  rewrite append_cons. exact IH.
Qed.

Lemma substring_all s : substring 0 (String.length s) s = s.
Proof. induction s as [|c s IH]; simpl; [reflexivity|now rewrite IH]. Qed.

Lemma substring_split s : forall k m,
  (k + m = String.length s)%nat ->
  s = (substring 0 k s ++ substring k m s)%string.
Proof.
  induction s as [|c s IH]; intros k m H; simpl in H.
  - destruct k, m; try discriminate. reflexivity.
  - destruct k as [|k].
    + destruct m as [|m]; [discriminate|].
      injection H as H. subst m.
      change (substring 0 0 (String c s)) with "".
      change (substring 0 (S (String.length s)) (String c s))
        with (String c (substring 0 (String.length s) s)).
      rewrite substring_all. reflexivity.
    + change (substring 0 (S k) (String c s))
        with (String c (substring 0 k s)).
      change (substring (S k) m (String c s)) with (substring k m s).
      rewrite append_cons. f_equal. apply IH. lia.
Qed.

(** [endsWith] holds of the strings that end with the suffix. *)
Lemma endsWith_spec s suffix :
  endsWith s suffix = true <-> exists p, s = (p ++ suffix)%string.
Proof.
  unfold endsWith. split.
  - intros H. apply andb_true_iff in H as [Hl He].
    apply Nat.leb_le in Hl. apply String.eqb_eq in He.
    exists (substring 0 (String.length s - String.length suffix) s).
    rewrite <- He at 2. apply substring_split. lia.
  - intros [p ->]. rewrite JSFacts.length_append.
    apply andb_true_iff. split; [apply Nat.leb_le; lia|].
    replace (String.length p + String.length suffix - String.length suffix)%nat
      with (String.length p) by lia.
    rewrite substring_skip, substring_all. apply String.eqb_refl.
Qed.

Definition porter_profile (id email : string) (name : list (string * Json))
    (now : string) : list (string * Json) :=
  [("id", JStr id); ("email", JStr email)] ++ name
  ++ [("role", JStr "porter"); ("created_at", JStr now);
      ("updated_at", JStr now)].

Lemma porter_profile_role id email name now :
  field "role" (porter_profile id email name now) = Some (JStr "porter").
Proof. unfold porter_profile. rewrite !field_app. reflexivity. Qed.

(** [signup] refuses and changes nothing, or files one profile of a
    porter. *)
Lemma signup_cases body outcome now db :
  (exists message status,
      signup body outcome now db = (refusal message status, db))
  \/ exists b id mailbox r,
       body = Some b
       /\ prop b "email" = Some (JStr (mailbox ++ "@napleton.com"))
       /\ outcome = created id
       /\ signup body outcome now db
          = (answer r,
             with_rows
               (<[user_key id :=
                    JObj (porter_profile id (mailbox ++ "@napleton.com")
                            match prop b "name" with
                            | Some n => [("name", n)]
                            | None => []
                            end now)]> (rows db)) db).
Proof.
  unfold signup.
  destruct body as [b|]; [|left; eauto].
  destruct (prop b "email") as [[| | |email| |]|] eqn:He;
    try solve [left; destruct b; eauto].
  destruct (endsWith email "@napleton.com") eqn:Hend;
    [|left; destruct b; eauto].
  apply endsWith_spec in Hend as [mailbox ->].
  destruct outcome as [id| |]; try solve [left; destruct b; eauto].
  destruct b; try solve [left; eauto];
    right; eexists _, id, mailbox, _;
    (split; [reflexivity|]); (split; [exact He|]);
    (split; [reflexivity|]); reflexivity.
Qed.

Lemma signup_rows body outcome now db :
  snd (signup body outcome now db) = db
  \/ exists id email name,
       snd (signup body outcome now db)
       = with_rows (<[user_key id :=
                        JObj (porter_profile id email name now)]> (rows db))
                   db.
Proof.
  destruct (signup_cases body outcome now db)
    as [(m & s & ->)|(b & id & mailbox & r & _ & _ & _ & ->)];
    [left; reflexivity|right; eauto].
Qed.

Lemma signup_no_admin body outcome now db :
  no_admin db -> no_admin (snd (signup body outcome now db)).
Proof.
  intros H id.
  destruct (signup_rows body outcome now db)
    as [->|(id' & email & name & ->)]; [apply H|]. simpl.
  destruct (decide (user_key id' = user_key id)) as [->|Hne].
  - rewrite lookup_insert_eq. unfold is_admin, prop_opt, prop.
    rewrite porter_profile_role. reflexivity.
  - rewrite lookup_insert_ne by assumption. apply H.
Qed.

Lemma create_entry_user_rows user body uuid now db id :
  rows (snd (create_entry user body uuid now db)) !! user_key id
  = rows db !! user_key id.
Proof.
  unfold create_entry.
  destruct body as [entryData|]; [|reflexivity].
  destruct (vehicle_of entryData db) as [vehicleData|];
    [|destruct entryData; reflexivity].
  destruct (iterate _);
    destruct entryData; simpl; try reflexivity;
    rewrite ?lookup_insert_ne
      by first [apply entries_not_user | apply entry_not_user];
    reflexivity.
Qed.

Lemma serve_no_admin r db : no_admin db -> no_admin (serve r db).
Proof.
  intros H. destruct r; simpl.
  - apply signup_no_admin, H.
  - intros id. rewrite create_entry_user_rows. apply H.
  - unfold update_role. rewrite (H user). exact H.
  - unfold delete_user. rewrite (H user). exact H.
  - exact H.
Qed.

(** X25.  Through signing up, posting entries, the admin routes and VIN
    decoding, a store without an admin never gets one: [signup] files a
    porter whatever the body says, entries never touch a profile, and the
    routes that write a role want an admin first.  (The routes that set
    up the demo users are the only other writers of profiles.) *)
Theorem no_admin_is_kept db0 db :
  no_admin db0 -> reaches db0 db ->
  no_admin db
  /\ forall user userId body now,
       update_role user userId body now db
       = (refusal "Admin access required" 403, db)
       /\ delete_user user userId db
          = (refusal "Admin access required" 403, db)
       /\ list_users user db = refusal "Admin access required" 403.
Proof.
  intros H0 Hr.
  assert (H : no_admin db)
    by (induction Hr; [assumption|apply serve_no_admin; assumption]).
  split; [exact H|]. intros user userId body now.
  unfold update_role, delete_user, list_users. rewrite (H user).
  repeat split.
Qed.

Lemma no_admin_is_kept_witness :
  no_admin Book.alice_db
  /\ update_role "alice" "alice" (Some (JObj [("role", JStr "admin")]))
       Book.stamp Book.alice_db
     = (refusal "Admin access required" 403, Book.alice_db).
Proof.
  destruct (no_admin_is_kept Ledger.empty Book.alice_db) as [H1 H2].
  - intros id. reflexivity.
  - unfold Book.alice_db. repeat constructor.
  - split; [exact H1|].
    apply (H2 "alice" "alice" (Some (JObj [("role", JStr "admin")]))
              Book.stamp).
Defined.

(** Every list of entry ids is an array. *)
Definition tidy (db : Db) : Prop :=
  forall user j, rows db !! entries_key user = Some j ->
                 exists ids, j = JArr ids.

Lemma tidy_iterate db user :
  tidy db ->
  exists ids,
    iterate (or_empty_array (rows db !! entries_key user)) = Some ids.
Proof.
  intros H. destruct (rows db !! entries_key user) as [j|] eqn:E; simpl.
  - destruct (H _ _ E) as [ids ->]. simpl. eauto.
  - eauto.
Qed.

Lemma signup_entries_rows body outcome now db user :
  rows (snd (signup body outcome now db)) !! entries_key user
  = rows db !! entries_key user.
Proof.
  destruct (signup_rows body outcome now db)
    as [->|(id' & email & name & ->)]; [reflexivity|]. simpl.
  apply lookup_insert_ne. intros E. symmetry in E. revert E.
  apply entries_not_user.
Qed.

Lemma create_entry_tidy user body uuid now db :
  tidy db -> tidy (snd (create_entry user body uuid now db)).
Proof.
  intros H. unfold create_entry.
  destruct body as [entryData|]; [|exact H].
  destruct (vehicle_of entryData db) as [vehicleData|];
    [|destruct entryData; exact H].
  rewrite lookup_insert_ne by apply entry_not_entries.
  destruct (tidy_iterate db user H) as [ids ->].
  assert (Ht : tidy
            (with_rows
               (<[entries_key user :=
                    JArr (ids ++ [entry_id (fuelEntry user entryData
                                              vehicleData uuid now)])]>
                  (<[entry_key
                       (String_of
                          (entry_id (fuelEntry user entryData vehicleData
                                               uuid now))) :=
                       JObj (fuelEntry user entryData vehicleData uuid now)]>
                     (rows db))) db)).
  { intros u j. simpl.
    destruct (decide (entries_key user = entries_key u)) as [->|Hne].
    - rewrite lookup_insert_eq. intros [= <-]. eauto.
    - rewrite lookup_insert_ne by assumption.
      rewrite lookup_insert_ne by apply entry_not_entries. apply H. }
  destruct entryData; first [exact H | exact Ht].
Qed.

Lemma update_role_entries_rows user userId body now db u :
  rows (snd (update_role user userId body now db)) !! entries_key u
  = rows db !! entries_key u.
Proof.
  unfold update_role.
  destruct (is_admin (rows db !! user_key user)); [|reflexivity]. simpl.
  destruct body as [b|]; [|reflexivity].
  destruct (rows db !! user_key userId) as [targetUser|];
    [|destruct b; reflexivity].
  destruct (truthy_json targetUser); [|destruct b; reflexivity].
  destruct b; try reflexivity; simpl;
    (apply lookup_insert_ne; intros E; symmetry in E; revert E;
     apply entries_not_user).
Qed.

Lemma delete_user_tidy user userId db :
  tidy db -> tidy (snd (delete_user user userId db)).
Proof.
  intros H. unfold delete_user.
  destruct (is_admin (rows db !! user_key user)); [|exact H]. simpl.
  destruct (iterate _) as [ids|]; intros u j; simpl.
  - intros E. apply lookup_delete_Some in E as [_ E].
    apply fold_delete_some in E.
    apply lookup_delete_Some in E as [_ E]. eapply H, E.
  - intros E. apply lookup_delete_Some in E as [_ E]. eapply H, E.
Qed.

Lemma serve_tidy r db : tidy db -> tidy (serve r db).
Proof.
  intros H. destruct r; simpl.
  - intros u j. rewrite signup_entries_rows. apply H.
  - apply create_entry_tidy, H.
  - intros u j. rewrite update_role_entries_rows. apply H.
  - apply delete_user_tidy, H.
  - exact H.
Qed.

Lemma demo_user_tidy email name role outcome t1 t2 db :
  tidy db -> tidy (demo_user email name role outcome t1 t2 db).
Proof.
  intros H. unfold demo_user. destruct outcome; [|exact H|exact H].
  intros u j. simpl.
  rewrite lookup_insert_ne
    by (intros E; symmetry in E; revert E; apply entries_not_user).
  apply H.
Qed.

Lemma arises_tidy db : arises db -> tidy db.
Proof.
  induction 1 as [|r db _ IH|admin porter t1 t2 t3 t4 db _ IH].
  - intros u j. simpl. rewrite lookup_empty. discriminate.
  - apply serve_tidy, IH.
  - unfold initDemoUsers. apply demo_user_tidy, demo_user_tidy, IH.
Qed.

(** X26.  On every store that arises, from the empty one by the
    requests and by setting up the demo users: a [POST /fuel-entries] that
    answers with an error has changed nothing, and it does so only for a
    body that is no JSON, is [null], or has a truthy [vin] that is not a
    string; and an admin's [DELETE /admin/users/:userId] always goes
    through.  No route stops half-way, because every list of entry ids in
    such a store is an array. *)
Theorem failed_post_changes_nothing db user body uuid now message status :
  arises db ->
  fst (create_entry user body uuid now db) = refusal message status ->
  snd (create_entry user body uuid now db) = db
  /\ (body = None \/ body = Some JNull
      \/ exists b v, body = Some b /\ prop b "vin" = Some v
                     /\ truthy_json v = true /\ forall s, v <> JStr s)
  /\ forall admin userId,
       is_admin (rows db !! user_key admin) = true ->
       fst (delete_user admin userId db)
       = answer (JObj [("message", JStr "User deleted successfully")]).
Proof.
  intros Hr Hf. pose proof (arises_tidy db Hr) as Ht.
  assert (Hpost :
    snd (create_entry user body uuid now db) = db
    /\ (body = None \/ body = Some JNull
        \/ exists b v, body = Some b /\ prop b "vin" = Some v
                       /\ truthy_json v = true /\ forall s, v <> JStr s)).
  { revert Hf. unfold create_entry.
    destruct body as [entryData|]; [|intros _; split; [reflexivity|tauto]].
    destruct (vehicle_of entryData db) as [vehicleData|] eqn:Hv.
    - rewrite lookup_insert_ne by apply entry_not_entries.
      destruct (tidy_iterate db user Ht) as [ids ->].
      destruct entryData; try discriminate.
      intros _. split; [reflexivity|tauto].
    - intros _. split; [destruct entryData; reflexivity|].
      right. right. exists entryData. revert Hv. unfold vehicle_of.
      destruct (prop entryData "vin") as [v|]; [|discriminate].
      intros Hv. exists v. split; [reflexivity|]. split; [reflexivity|].
      destruct v as [|b|n|s|items|bindings]; simpl in Hv |- *.
      + discriminate.
      + destruct b; [|discriminate]. split; [reflexivity|discriminate].
      + destruct (negb (n =? "0")%string); [|discriminate].
        split; [reflexivity|discriminate].
      + destruct (truthy s); discriminate.
      + split; [reflexivity|discriminate].
      + split; [reflexivity|discriminate]. }
  destruct Hpost as [H1 H2]. split; [exact H1|]. split; [exact H2|].
  intros admin userId Hadmin. unfold delete_user. rewrite Hadmin. simpl.
  rewrite lookup_delete_ne
    by (intros E; symmetry in E; revert E; apply entries_not_user).
  destruct (tidy_iterate db userId Ht) as [ids ->]. reflexivity.
Qed.

Lemma failed_post_changes_nothing_witness :
  fst (create_entry "alice" (Some (JObj [("vin", JNum "5")])) "e9"
         Book.stamp Book.demo_db)
  = refusal "Failed to create fuel entry" 500
  /\ snd (create_entry "alice" (Some (JObj [("vin", JNum "5")])) "e9"
            Book.stamp Book.demo_db) = Book.demo_db
  /\ is_admin (rows Book.demo_db !! user_key "root") = true
  /\ fst (delete_user "root" "alice" Book.demo_db)
     = answer (JObj [("message", JStr "User deleted successfully")])
  /\ rows (snd (delete_user "root" "alice" Book.demo_db))
       !! user_key "alice" = None.
Proof.
  destruct (failed_post_changes_nothing Book.demo_db "alice"
              (Some (JObj [("vin", JNum "5")])) "e9" Book.stamp
              "Failed to create fuel entry" 500) as (H1 & _ & H2).
  - unfold Book.demo_db. repeat constructor.
  - reflexivity.
  - split; [reflexivity|]. split; [exact H1|]. split; [reflexivity|].
    split; [apply H2; reflexivity|]. vm_compute. reflexivity.
Defined.

(** *** Entries and decoded vehicles *)

Lemma decode_ok_pattern a v reply now (s : gmap string VehicleInfo) r :
  fst (Server.decode_vin a v reply now s) = Server.json_vehicle r false ->
  Regex.vinPattern_test (toUpperCase v) = true.
Proof.
  unfold Server.decode_vin.
  destruct a; simpl; [|discriminate].
  destruct (truthy v); simpl; [|discriminate].
  destruct (Regex.vinPattern_test (toUpperCase v)); simpl;
    [reflexivity|discriminate].
Qed.

(** X27.  Once [POST /decode-vin] has answered 200 with a record for a
    VIN, a fuel entry posted with that VIN, in any case, is filed with
    the record's year, make, model and trim ([null] for an empty one),
    whatever vehicle fields the body itself names. *)
Theorem entry_carries_decoded_vehicle
    db user bindings X X' registry now0 r uuid now :
  fst (Server.decode_vin true X registry now0 (vehicles db))
  = Server.json_vehicle r false ->
  field "vin" bindings = Some (JStr X') ->
  toUpperCase X' = toUpperCase X ->
  vehicle_of (JObj bindings) (decode_vin true X registry now0 db)
  = Some (Some r)
  /\ field "vehicle_year" (fuelEntry user (JObj bindings) (Some r) uuid now)
     = Some (or_null (Some (year r)))
  /\ field "vehicle_make" (fuelEntry user (JObj bindings) (Some r) uuid now)
     = Some (or_null (Some (make r)))
  /\ field "vehicle_model" (fuelEntry user (JObj bindings) (Some r) uuid now)
     = Some (or_null (Some (model r)))
  /\ field "vehicle_trim" (fuelEntry user (JObj bindings) (Some r) uuid now)
     = Some (or_null (trim r))
  /\ rows (snd (create_entry user (Some (JObj bindings)) uuid now
                  (decode_vin true X registry now0 db)))
       !! entry_key
            (String_of
               (entry_id (fuelEntry user (JObj bindings) (Some r) uuid now)))
     = Some (JObj (fuelEntry user (JObj bindings) (Some r) uuid now)).
Proof.
  intros Hok Hvin Hup.
  assert (Hv : vehicle_of (JObj bindings) (decode_vin true X registry now0 db)
               = Some (Some r)).
  { unfold vehicle_of, prop. rewrite Hvin.
    assert (Ht : truthy X' = true).
    { apply JSFacts.truthy_true. intros ->.
      apply decode_ok_pattern in Hok. rewrite <- Hup in Hok. discriminate. }
    rewrite Ht, Hup. simpl. f_equal.
    apply ServerMore.server_ok_stored. assumption. }
  split; [exact Hv|].
  repeat (split;
          [unfold fuelEntry; rewrite !field_app; reflexivity|]).
  unfold create_entry. rewrite Hv.
  rewrite lookup_insert_ne by apply entry_not_entries.
  destruct (iterate _); simpl.
  - rewrite lookup_insert_ne
      by (intros E; symmetry in E; revert E; apply entry_not_entries).
    apply lookup_insert_eq.
  - apply lookup_insert_eq.
Qed.

Lemma entry_carries_decoded_vehicle_witness :
  field "vehicle_year"
    (fuelEntry "alice" Book.fill_up
       (Some (extract Scenario.honda Scenario.civic 0
                "Vehicle information not found for this VIN"))
       "e1" Book.stamp) = Some (JStr "2010")
  /\ field "vehicle_make"
       (fuelEntry "alice" Book.fill_up
          (Some (extract Scenario.honda Scenario.civic 0
                   "Vehicle information not found for this VIN"))
          "e1" Book.stamp) = Some (JStr "Honda")
  /\ field "vehicle_trim"
       (fuelEntry "alice" Book.fill_up
          (Some (extract Scenario.honda Scenario.civic 0
                   "Vehicle information not found for this VIN"))
          "e1" Book.stamp) = Some JNull.
Proof.
  destruct (entry_carries_decoded_vehicle Ledger.empty "alice"
              Book.fill_up_fields Scenario.honda "1hgbh41jxmn109186"
              (registry_json (Some Scenario.civic)) 0
              (extract Scenario.honda Scenario.civic 0
                 "Vehicle information not found for this VIN")
              "e1" Book.stamp
              ltac:(vm_compute; reflexivity) eq_refl
              ltac:(vm_compute; reflexivity))
    as (_ & H2 & H3 & _ & H5 & _).
  split; [exact H2|]. split; [exact H3|exact H5].
Defined.

(** *** Roles *)

(** X28.  [PUT /admin/users/:userId/role] by an admin, for a profile that
    is an object, overwrites [role] with whatever the body gives, any
    JSON value unchecked, and drops it when the body gives none; it sets
    [updated_at] and keeps every other field.  The user is an admin
    afterwards exactly when the body's role is the string "admin". *)
Theorem update_role_sets_only_role admin userId b now db target :
  is_admin (rows db !! user_key admin) = true ->
  b <> JNull ->
  rows db !! user_key userId = Some (JObj target) ->
  exists updated,
    update_role admin userId (Some b) now db
    = (answer (JObj updated),
       with_rows (<[user_key userId := JObj updated]> (rows db)) db)
    /\ field "role" updated = prop b "role"
    /\ field "updated_at" updated = Some (JStr now)
    /\ (forall k, k <> "role" -> k <> "updated_at" ->
                  field k updated = field k target)
    /\ is_admin (rows (snd (update_role admin userId (Some b) now db))
                   !! user_key userId)
       = match prop b "role" with
         | Some (JStr role) => String.eqb role "admin"
         | _ => false
         end.
Proof.
  intros Hadmin Hb Ht.
  set (spreadRole := match prop b "role" with
                     | Some role => target ++ [("role", role)]
                     | None => without "role" target
                     end).
  assert (Hupd : update_role admin userId (Some b) now db
                 = (answer (JObj (spreadRole ++ [("updated_at", JStr now)])),
                    with_rows
                      (<[user_key userId :=
                           JObj (spreadRole ++ [("updated_at", JStr now)])]>
                         (rows db)) db)).
  { unfold update_role. rewrite Hadmin, Ht.
    destruct b; try reflexivity. contradiction. }
  assert (Hrole : field "role" (spreadRole ++ [("updated_at", JStr now)])
                  = prop b "role").
  { rewrite field_app, field_single. simpl. unfold spreadRole.
    destruct (prop b "role") as [role|].
    - rewrite field_app. reflexivity.
    - rewrite field_without. reflexivity. }
  exists (spreadRole ++ [("updated_at", JStr now)]).
  rewrite Hupd. split; [reflexivity|].
  split; [exact Hrole|].
  split; [rewrite field_app; reflexivity|].
  split.
  - intros k H1 H2. rewrite field_app, field_single.
    destruct (String.eqb_spec "updated_at" k) as [<-|_]; [contradiction|].
    unfold spreadRole. destruct (prop b "role") as [role|].
    + rewrite field_app, field_single.
      destruct (String.eqb_spec "role" k) as [<-|_]; [contradiction|].
      reflexivity.
    + rewrite field_without.
      destruct (String.eqb_spec "role" k) as [<-|_]; [contradiction|].
      reflexivity.
  - simpl. rewrite lookup_insert_eq. unfold is_admin, prop_opt, prop.
    rewrite Hrole. reflexivity.
Qed.

Lemma update_role_sets_only_role_witness :
  is_admin (rows Book.root_db !! user_key "root") = true
  /\ is_admin (rows (snd (update_role "root" "root" (Some (JObj []))
                            Book.stamp Book.root_db)) !! user_key "root")
     = false.
Proof.
  destruct (update_role_sets_only_role "root" "root" (JObj []) Book.stamp
              Book.root_db Book.root_fields
              ltac:(vm_compute; reflexivity) ltac:(discriminate)
              ltac:(vm_compute; reflexivity))
    as (updated & _ & _ & _ & _ & H).
  split; [vm_compute; reflexivity|exact H].
Defined.

(** *** Signing up *)

(** X29.  [POST /signup] answers with a user only for a body whose
    [email] is a string ending in [@napleton.com] and an account that
    Supabase created; the profile then found under the new id is a
    porter's, whatever [role] the body names.  Every refused signup
    leaves the store as it was. *)
Theorem signup_files_a_porter body outcome now db :
  (forall r,
      fst (signup body outcome now db) = answer r ->
      exists b id mailbox profile,
        body = Some b
        /\ prop b "email" = Some (JStr (mailbox ++ "@napleton.com"))
        /\ outcome = created id
        /\ get_profile id (snd (signup body outcome now db))
           = answer (JObj profile)
        /\ field "id" profile = Some (JStr id)
        /\ field "role" profile = Some (JStr "porter")
        /\ vehicles (snd (signup body outcome now db)) = vehicles db
        /\ forall k, k <> user_key id ->
                     rows (snd (signup body outcome now db)) !! k
                     = rows db !! k)
  /\ (forall message status,
        fst (signup body outcome now db) = refusal message status ->
        snd (signup body outcome now db) = db).
Proof.
  destruct (signup_cases body outcome now db)
    as [(m & s & ->)|(b & id & mailbox & r0 & -> & He & -> & ->)].
  - split; [discriminate|reflexivity].
  - split; [|discriminate]. intros r _. simpl.
    exists b, id, mailbox,
      (porter_profile id (mailbox ++ "@napleton.com")
         match prop b "name" with Some n => [("name", n)] | None => [] end
         now).
    split; [reflexivity|]. split; [exact He|]. split; [reflexivity|].
    split; [unfold get_profile; simpl; rewrite lookup_insert_eq;
            reflexivity|].
    split; [unfold porter_profile; rewrite !field_app;
            destruct (prop b "name"); reflexivity|].
    split; [apply porter_profile_role|].
    split; [reflexivity|].
    intros k Hk. apply lookup_insert_ne. congruence.
Qed.

End LedgerFacts.
